(** * Pallas TPU (Mosaic) lowering: a shallow embedding of
    [jax/_src/pallas/mosaic/lowering.py] and the properties of its
    block-spec validation, constant materializer, grid mapping, equation
    dispatcher, memory rules and control-flow rules. *)

From Stdlib Require Import ZArith List String Ascii Bool Lia Arith.
Import ListNotations.
Local Open Scope string_scope.
Local Open Scope Z_scope.
#[local] Set Warnings "-register-all".

(* ===================================================================== *)
(** * Part I: definitions *)
(* ===================================================================== *)

(** ** Python exceptions and fallible results *)

Inductive exn_class :=
| NotImplementedError
| ValueError
| AssertionError
| IndexError
| RuntimeError
| AttributeError
| ZeroDivisionError
| StopIteration
| TypeError
| OverflowError
| LoweringException.

(** An exception object: its class and its message; [ExnFrom] also
    carries the [__cause__] set by [raise ... from e]. *)
Inductive exn :=
| Exn (cls : exn_class) (msg : string)
| ExnFrom (cls : exn_class) (msg : string) (cause : exn).

Definition exn_cls (e : exn) : exn_class :=
  match e with Exn c _ | ExnFrom c _ _ => c end.
Definition exn_msg (e : exn) : string :=
  match e with Exn _ m | ExnFrom _ m _ => m end.
Definition exn_cause (e : exn) : option exn :=
  match e with Exn _ _ => None | ExnFrom _ _ c => Some c end.

Definition exn_class_eqb (a b : exn_class) : bool :=
  match a, b with
  | NotImplementedError, NotImplementedError
  | ValueError, ValueError
  | AssertionError, AssertionError
  | IndexError, IndexError
  | RuntimeError, RuntimeError
  | AttributeError, AttributeError
  | ZeroDivisionError, ZeroDivisionError
  | StopIteration, StopIteration
  | TypeError, TypeError
  | OverflowError, OverflowError
  | LoweringException, LoweringException => true
  | _, _ => false
  end.

Definition is_lowering_exception (e : exn) : bool :=
  exn_class_eqb (exn_cls e) LoweringException.

(** Number of [LoweringException] layers on the cause chain of [e]. *)
Fixpoint lowering_layers (e : exn) : nat :=
  ((if is_lowering_exception e then 1 else 0)
   + match e with
     | Exn _ _ => 0
     | ExnFrom _ _ cause => lowering_layers cause
     end)%nat.

Inductive result (A : Type) :=
| Ok (a : A)
| Raise (e : exn).
Arguments Ok {A} a.
Arguments Raise {A} e.

Definition rbind {A B} (m : result A) (k : A -> result B) : result B :=
  match m with
  | Ok a => k a
  | Raise e => Raise e
  end.

Declare Scope res_scope.
Delimit Scope res_scope with res.
Notation "x <- m ;; k" := (rbind m (fun x => k))
  (at level 61, m at next level, right associativity) : res_scope.
Notation "m ;;; k" := (rbind m (fun _ => k))
  (at level 61, right associativity) : res_scope.

Definition raise_ {A} (c : exn_class) (msg : string) : result A :=
  Raise (Exn c msg).

Definition nl : string := String (ascii_of_nat 10) EmptyString.

(** Python sequence indexing [xs[-k]] for [k >= 1]. *)
Definition py_index_from_end {A} (xs : list A) (k : nat) : result A :=
  match nth_error (rev xs) (k - 1) with
  | Some x => Ok x
  | None => raise_ IndexError "list index out of range"
  end.

(** Python [a // b] and [a % b] on integers: floor division, raising on a
    zero divisor. *)
Definition py_floordiv (a b : Z) : result Z :=
  if b =? 0 then raise_ ZeroDivisionError "integer division or modulo by zero"
  else Ok (a / b).

Definition py_mod (a b : Z) : result Z :=
  if b =? 0 then raise_ ZeroDivisionError "integer division or modulo by zero"
  else Ok (a mod b).

(** ** Memory spaces, element types and IR types *)

(** [TPUMemorySpace] of [tpu_core] and [MemorySpace] of [pallas_core]. *)
Inductive memory_space :=
| ANY | VMEM | SMEM | SEMAPHORE   (* TPUMemorySpace *)
| ERROR | INDEX.                   (* pallas_core.MemorySpace *)

Definition memory_space_eqb (a b : memory_space) : bool :=
  match a, b with
  | ANY, ANY | VMEM, VMEM | SMEM, SMEM | SEMAPHORE, SEMAPHORE
  | ERROR, ERROR | INDEX, INDEX => true
  | _, _ => false
  end.

Definition opt_space_is (m : option memory_space) (s : memory_space) : bool :=
  match m with
  | Some m' => memory_space_eqb m' s
  | None => false
  end.

(** [_memory_space_to_tpu_memspace]: the space named in the attribute
    [#tpu.memory_space<...>]. *)
Definition _memory_space_to_tpu_memspace (m : option memory_space)
  : memory_space :=
  match m with
  | None => VMEM
  | Some ERROR => SMEM
  | Some INDEX => SMEM
  | Some s => s
  end.

(** NumPy element types that [mlir.dtype_to_ir_type] knows, and the
    semaphore types of [tpu_core]. *)
Inductive dtype :=
| Bool_
| Int8 | Int16 | Int32 | Int64
| UInt8 | UInt16 | UInt32 | UInt64
| BFloat16 | Float16 | Float32 | Float64
| DmaSemaphoreDtype | SemaphoreDtype | BarrierSemaphoreDtype.

Definition dtype_eqb (a b : dtype) : bool :=
  match a, b with
  | Bool_, Bool_
  | Int8, Int8 | Int16, Int16 | Int32, Int32 | Int64, Int64
  | UInt8, UInt8 | UInt16, UInt16 | UInt32, UInt32 | UInt64, UInt64
  | BFloat16, BFloat16 | Float16, Float16 | Float32, Float32
  | Float64, Float64
  | DmaSemaphoreDtype, DmaSemaphoreDtype
  | SemaphoreDtype, SemaphoreDtype
  | BarrierSemaphoreDtype, BarrierSemaphoreDtype => true
  | _, _ => false
  end.

(** Booleans are stored as the following type in memrefs. *)
Definition BOOL_MEMREF_TYPE : dtype := Int32.

Inductive ir_type :=
| IntegerType (signed : option bool) (width : Z)
    (* [None]: signless; [Some true]: signed; [Some false]: unsigned *)
| IndexType
| BF16Type | F16Type | F32Type | F64Type
| TpuDmaSemaphoreType
| TpuSemaphoreType
| VectorType (shape : list Z) (elt : ir_type)
| MemRefType (shape : list Z) (elt : ir_type) (space : memory_space).

Fixpoint list_Z_eqb (a b : list Z) : bool :=
  match a, b with
  | [], [] => true
  | x :: a', y :: b' => (x =? y) && list_Z_eqb a' b'
  | _, _ => false
  end.

Definition opt_bool_eqb (a b : option bool) : bool :=
  match a, b with
  | None, None => true
  | Some x, Some y => Bool.eqb x y
  | _, _ => false
  end.

Fixpoint ir_type_eqb (a b : ir_type) : bool :=
  match a, b with
  | IntegerType s w, IntegerType s' w' => opt_bool_eqb s s' && (w =? w')
  | IndexType, IndexType
  | BF16Type, BF16Type | F16Type, F16Type | F32Type, F32Type
  | F64Type, F64Type
  | TpuDmaSemaphoreType, TpuDmaSemaphoreType
  | TpuSemaphoreType, TpuSemaphoreType => true
  | VectorType sh e, VectorType sh' e' => list_Z_eqb sh sh' && ir_type_eqb e e'
  | MemRefType sh e m, MemRefType sh' e' m' =>
      list_Z_eqb sh sh' && ir_type_eqb e e' && memory_space_eqb m m'
  | _, _ => false
  end.

(** Modelled from the spec: [mlir.dtype_to_ir_type] of
    [jax/_src/interpreters/mlir.py] is not part of this file.  No native
    boolean memory representation exists, so a boolean is a 1-bit
    register value; integers keep their width, and unsigned ones are
    normalized to same-width signless types by [_dtype_to_ir_type]
    below. *)
Definition mlir_dtype_to_ir_type (d : dtype) : ir_type :=
  match d with
  | Bool_ => IntegerType None 1
  | Int8 => IntegerType None 8
  | Int16 => IntegerType None 16
  | Int32 => IntegerType None 32
  | Int64 => IntegerType None 64
  | UInt8 => IntegerType (Some false) 8
  | UInt16 => IntegerType (Some false) 16
  | UInt32 => IntegerType (Some false) 32
  | UInt64 => IntegerType (Some false) 64
  | BFloat16 => BF16Type
  | Float16 => F16Type
  | Float32 => F32Type
  | Float64 => F64Type
  | DmaSemaphoreDtype => TpuDmaSemaphoreType
  | SemaphoreDtype | BarrierSemaphoreDtype => TpuSemaphoreType
  end.

Definition is_semaphore_dtype (d : dtype) : bool :=
  match d with
  | DmaSemaphoreDtype | SemaphoreDtype | BarrierSemaphoreDtype => true
  | _ => false
  end.

(** [_dtype_to_ir_type(dtype, is_kernel_boundary)]. *)
Definition _dtype_to_ir_type (d : dtype) (is_kernel_boundary : bool) : ir_type :=
  if is_semaphore_dtype d then
    match d with
    | DmaSemaphoreDtype => TpuDmaSemaphoreType
    | _ => TpuSemaphoreType
    end
  else
    let d := if is_kernel_boundary && dtype_eqb d Bool_
             then BOOL_MEMREF_TYPE else d in
    match mlir_dtype_to_ir_type d with
    | IntegerType _ w => IntegerType None w
    | t => t
    end.

(** ** Block-spec validation ([lower_jaxpr_to_module], lines 442-520) *)

(** One entry of a block shape: an integer or [pallas_core.mapped]. *)
Inductive block_dim :=
| Mapped
| Blocked (n : Z).

(** The attributes of a [pallas_core.BlockMapping] that the validation
    reads.  [has_trivial_window] is a method of [BlockMapping] and
    [_bit_width] a function of [lax_internal]; both live outside this
    file and are taken as given per block mapping. *)
Record BlockMapping := mkBlockMapping {
  bm_block_shape : list block_dim;
  bm_array_shape : list Z;              (* array_shape_dtype.shape *)
  bm_bit_width : Z;                     (* _bit_width(array_shape_dtype.dtype) *)
  bm_memory_space : option memory_space; (* block_aval.memory_space *)
  bm_has_trivial_window : bool
}.

Definition unmap_dim (b : block_dim) : Z :=
  match b with
  | Mapped => 1
  | Blocked n => n
  end.

(** SMEM operands with a trivial window skip every check ([continue]). *)
Definition bm_exempt (bm : BlockMapping) : bool :=
  opt_space_is (bm_memory_space bm) SMEM && bm_has_trivial_window bm.

Definition rank_msg_2 : string :=
  "The Pallas TPU lowering currently supports only blocks of rank >= 2 for blocks, except those in the SMEM memory space having the same block shape as the array shape and a trivial index_map (returning all 0s). ".
Definition rank_msg_1 : string :=
  "The Pallas TPU lowering currently supports only blocks of rank >= 1. ".
Definition any_msg : string :=
  "The Pallas TPU lowering currently supports in memory space ANY only blocks having the same block shape as the array shape and a trivial index_map (returning all 0s).".
Definition div_msg_compat : string :=
  "The Pallas TPU lowering currently requires that the last two dimensions of your block shape are divisible by 8 and 128 respectively, if the respective dimensions of the overall array are larger than the respective factors. If array dimensions are smaller, the block should span the full array dimension. ".
Definition div_msg : string :=
  "The Pallas TPU lowering currently requires that the last two dimensions of your block shape are divisible by 8 and 128 respectively, or be equal to the respective dimensions of the overall array. ".

(** The body of the loop over [grid_mapping.block_mappings] for one
    block mapping.  [forward_compat] is
    [lowering_context.is_forward_compat()], [old_jaxlib] is
    [jaxlib_version < (0, 4, 32)]; the formatted [err_details()] suffix
    of the messages is left out. *)
Definition check_block_mapping (forward_compat old_jaxlib : bool)
    (bm : BlockMapping) : result unit :=
  let rank := Z.of_nat (List.length (bm_block_shape bm)) in
  if bm_exempt bm then Ok tt
  else
    ((if forward_compat || old_jaxlib then
        if rank <? 2 then raise_ ValueError rank_msg_2 else Ok tt
      else
        if rank <? 1 then raise_ ValueError rank_msg_1 else Ok tt) ;;;
     (if opt_space_is (bm_memory_space bm) ANY
         && negb (bm_has_trivial_window bm)
      then raise_ ValueError any_msg else Ok tt) ;;;
     let unmapped_bs := map unmap_dim (bm_block_shape bm) in
     bs0 <- py_index_from_end unmapped_bs 1 ;;
     as0 <- py_index_from_end (bm_array_shape bm) 1 ;;
     bs1as1 <- (if rank >=? 2 then
                  bs1 <- py_index_from_end unmapped_bs 2 ;;
                  as1 <- py_index_from_end (bm_array_shape bm) 2 ;;
                  Ok (bs1, as1)
                else Ok (1, 1)) ;;
     let '(bs1, as1) := bs1as1 in
     evenly_divisible <-
       (if forward_compat then
          let evenly_divisible :=
            ((bs0 mod 128 =? 0) || ((bs0 =? as0) && (as0 <? 128)))
            && ((bs1 mod 8 =? 0) || ((bs1 =? as1) && (as1 <? 8))) in
          if negb evenly_divisible then raise_ ValueError div_msg_compat
          else Ok evenly_divisible
        else if rank >=? 2 then
          Ok (((bs0 =? as0) || (bs0 mod 128 =? 0))
              && ((bs1 =? as1) || (bs1 mod 8 =? 0)))
        else
          (if rank =? 1 then Ok tt
           else raise_ AssertionError "") ;;;
          q <- py_floordiv 32 (bm_bit_width bm) ;;
          let tiling_size := 128 * q in
          if bs0 =? as0 then Ok true
          else
            r <- py_mod bs0 tiling_size ;;
            Ok (r =? 0)) ;;
     if negb evenly_divisible then raise_ ValueError div_msg
     else Ok tt)%res.

(** The validation loop at the head of [lower_jaxpr_to_module]: the
    first offending block mapping raises. *)
Fixpoint check_block_mappings (forward_compat old_jaxlib : bool)
    (bms : list BlockMapping) : result unit :=
  match bms with
  | [] => Ok tt
  | bm :: rest =>
      (check_block_mapping forward_compat old_jaxlib bm ;;;
       check_block_mappings forward_compat old_jaxlib rest)%res
  end.

(** ** IR values, attributes and operations *)

(** Host-side (Python / NumPy) values handed to the lowering. *)
Inductive py_scalar :=
| PyInt (n : Z)
| PyBool (b : bool)          (* [bool] is a subclass of [int] *)
| PyFloat (bits : Z).        (* a binary64 float, by its bit pattern *)

Inductive np_kind :=
| NpGeneric                  (* a NumPy scalar, [np.generic] *)
| NpNdarray.                 (* an [np.ndarray] or a JAX array *)

Inductive host_value :=
| Py (s : py_scalar)
| PyObject                                   (* no [dtype], not a number *)
| NpArrayOf (s : py_scalar) (dt : dtype)     (* [np.array(s, dt)] *)
| NpValue (k : np_kind) (dt : dtype) (data : list Z).

(** Attributes; the host conversions [int(x)], [float(x)] and [bool(x)]
    are kept symbolic in the attribute that stores them. *)
Inductive attr :=
| IntegerAttr (ty : ir_type) (int_of : host_value)
| FloatAttr (ty : ir_type) (float_of : host_value)
| BoolAttr (bool_of : host_value)
| DenseSplatAttr (ty : ir_type) (elt : attr).

(** SSA values: results of operations and block arguments are numbered
    by the builder; the arguments of the lowered function are named. *)
Inductive vname :=
| ArgName (s : string)
| ResId (n : nat).

Record value := mkValue { v_name : vname; v_ty : ir_type }.

(** An operand of a rule: a host value or an [ir.Value]. *)
Inductive operand :=
| Host (h : host_value)
| IR (v : value).

(** A jaxpr handed to a nested [jaxpr_subcomp] call by a rule: it is
    identified by name, and its lowering returns one value per output. *)
Record sub_jaxpr := mkSubJaxpr {
  sj_name : string;
  sj_out_types : list ir_type
}.

(** Static sizes and dynamic ([ir.Value]) sizes of slices. *)
Inductive size :=
| SInt (n : Z)
| SVal (v : value).

(** One entry of the block shape of a reference while it is indexed. *)
Inductive ref_dim :=
| RMapped
| RDim (s : size).

(** The operations the modelled rules create, in the dialects [arith],
    [memref], [vector], [scf] and [tpu].  [SubcompOp] stands for the
    operations appended by one nested call [jaxpr_subcomp(ctx, jaxpr,
    *args)] with the given block shapes. *)
Inductive op :=
| ArithConstantOp (res : value) (a : attr)
| ArithIndexCastOp (res : value) (x : value)
| ArithAddIOp (res : value) (x y : value)
| ArithSubIOp (res : value) (x y : value)
| ArithCmpIOp (res : value) (predicate : Z) (x y : value)
| ArithExtUIOp (res : value) (x : value)
| MemrefLoadOp (res : value) (ref : value) (starts : list value)
| MemrefStoreOp (val : value) (ref : value) (starts : list value)
| VectorLoadOp (res : value) (ref : value) (starts : list value)
| VectorStoreOp (val : value) (ref : value) (starts : list value)
| TpuStridedLoadOp (res : value) (ref : value) (starts : list value)
    (strides : list Z)
| TpuStridedStoreOp (val : value) (ref : value) (starts : list value)
    (strides : list Z)
| VectorShapeCastOp (res : value) (x : value)
| TpuMemRefSliceOp (res : value) (ref : value) (starts : list value)
    (dynamic_sizes : list value)
| TpuMemRefSqueezeOp (res : value) (x : value)
| ScfForOp (results : list value) (lbd ubd step : value)
    (init : list value) (induction_variable : value)
    (inner_iter_args : list value) (body : list op)
| ScfYieldOp (vals : list value)
| ScfIfOp (results : list value) (pred : value)
    (then_block else_block : list op)
| SubcompOp (results : list value) (block_shapes : list (option (list ref_dim)))
    (jaxpr : sub_jaxpr) (args : list operand)
| TpuTraceStartOp (message : string) (level : Z)
| TpuTraceStopOp
| GenericOp (name : string).         (* any operation not listed above *)

(** The builder: the next free value number and the operations appended
    at the current insertion point, oldest first. *)
Record builder := mkBuilder { next_id : nat; emitted : list op }.

Definition M (A : Type) : Type := builder -> result (A * builder).

Definition ret {A} (a : A) : M A := fun b => Ok (a, b).
Definition bind {A B} (m : M A) (k : A -> M B) : M B :=
  fun b => match m b with
           | Ok (a, b') => k a b'
           | Raise e => Raise e
           end.
Definition throw {A} (c : exn_class) (msg : string) : M A :=
  fun _ => Raise (Exn c msg).
Definition lift {A} (r : result A) : M A :=
  fun b => match r with Ok a => Ok (a, b) | Raise e => Raise e end.

Declare Scope builder_scope.
Delimit Scope builder_scope with M.
Notation "x <- m ;; k" := (bind m (fun x => k))
  (at level 61, m at next level, right associativity) : builder_scope.
Notation "' pat <- m ;; k" := (bind m (fun x => match x with pat => k end))
  (at level 61, pat pattern, m at next level, right associativity)
  : builder_scope.
Notation "m ;;; k" := (bind m (fun _ => k))
  (at level 61, right associativity) : builder_scope.

(** A fresh result of type [ty]. *)
Definition fresh (ty : ir_type) : M value :=
  fun b => Ok (mkValue (ResId (next_id b)) ty,
               mkBuilder (S (next_id b)) (emitted b)).

Fixpoint fresh_list (tys : list ir_type) : M (list value) :=
  match tys with
  | [] => ret []
  | t :: ts => (v <- fresh t ;; vs <- fresh_list ts ;; ret (v :: vs))%M
  end.

(** Append an operation at the insertion point. *)
Definition emit (o : op) : M unit :=
  fun b => Ok (tt, mkBuilder (next_id b) (emitted b ++ [o])).

(** [with ir.InsertionPoint(block): body]: the operations of [body] go
    to a block of their own; value numbering continues. *)
Definition in_region {A} (body : M A) : M (A * list op) :=
  fun b => match body (mkBuilder (next_id b) []) with
           | Ok (a, b') => Ok ((a, emitted b'), mkBuilder (next_id b') (emitted b))
           | Raise e => Raise e
           end.

(** Monadic map, in list order. *)
Fixpoint mapM {A B} (f : A -> M B) (xs : list A) : M (list B) :=
  match xs with
  | [] => ret []
  | x :: xs' => (y <- f x ;; ys <- mapM f xs' ;; ret (y :: ys))%M
  end.

(** ** Constant materializer ([ir_constant], lines 219-242) *)

Definition has_dtype (x : host_value) : bool :=
  match x with
  | NpArrayOf _ _ | NpValue _ _ _ => true
  | _ => false
  end.

(** [isinstance(x, int)]. *)
Definition isinstance_int (x : host_value) : bool :=
  match x with
  | Py (PyInt _) | Py (PyBool _) => true
  | _ => false
  end.

(** [isinstance(x, float)]; [np.float64] scalars subclass [float]. *)
Definition isinstance_float (x : host_value) : bool :=
  match x with
  | Py (PyFloat _) => true
  | NpValue NpGeneric Float64 _ => true
  | _ => false
  end.

(** [x.dtype]. *)
Definition get_dtype (x : host_value) : result dtype :=
  match x with
  | NpArrayOf _ dt | NpValue _ dt _ => Ok dt
  | _ => raise_ AttributeError "object has no attribute 'dtype'"
  end.

Definition dtype_in (d : dtype) (ds : list dtype) : bool :=
  existsb (dtype_eqb d) ds.

(** [arith.ConstantOp(mlir_type, attr).result]. *)
Definition arith_constant (ty : ir_type) (a : attr) : M value :=
  (r <- fresh ty ;; emit (ArithConstantOp r a) ;;; ret r)%M.

(** Whether a Python [int] fits the 32-bit signed integers:
    [np.array(n, np.int32)] raises [OverflowError] when it does not
    (the integer NumPy formats into the message is left out). *)
Definition fits_int32 (n : Z) : bool :=
  (-2147483648 <=? n) && (n <=? 2147483647).

Definition ir_constant (x : host_value) (mlir_type : option ir_type)
  : M value :=
  (x <-
     (if negb (has_dtype x) then
        match x with
        | Py (PyInt n) =>
            if fits_int32 n then ret (NpArrayOf (PyInt n) Int32)
            else throw OverflowError
                   "Python integer out of bounds for int32"
        | Py (PyBool b) => ret (NpArrayOf (PyBool b) Int32)
        | Py (PyFloat f) => ret (NpArrayOf (PyFloat f) Float32)
        | _ => ret x
        end
      else ret x) ;;
   mlir_type <-
     match mlir_type with
     | Some t => ret t
     | None => (d <- lift (get_dtype x) ;; ret (_dtype_to_ir_type d false))
     end ;;
   if isinstance_int x then arith_constant mlir_type (IntegerAttr mlir_type x)
   else
     d <- lift (get_dtype x) ;;
     if dtype_in d [Int32; UInt32; Int8]
     then arith_constant mlir_type (IntegerAttr mlir_type x)
     else if isinstance_float x || dtype_eqb d Float32
     then arith_constant mlir_type (FloatAttr mlir_type x)
     else if dtype_eqb d BFloat16
     then arith_constant mlir_type (FloatAttr mlir_type x)
     else if dtype_eqb d Bool_
     then arith_constant mlir_type (BoolAttr x)
     else throw NotImplementedError "")%M.

(** ** Grid mapping: per-dimension semantics
    ([MosaicGridMapping.__init__], lines 296-323, and
    [get_dimension_semantics]) *)

(** A grid size: an integer or [pallas_core.dynamic_grid_dim]. *)
Inductive grid_dim :=
| GridSize (n : Z)
| DynamicGridDim.

(** [i in mapped_dims]. *)
Definition in_dims (i : Z) (mapped_dims : list Z) : bool :=
  existsb (Z.eqb i) mapped_dims.

(** [range(n)]. *)
Definition py_range (n : nat) : list Z := map Z.of_nat (seq 0 n).

(** [tuple(g for i, g in enumerate(grid) if i not in mapped_dims)]. *)
Definition user_grid (grid : list grid_dim) (mapped_dims : list Z)
  : list grid_dim :=
  map snd
    (filter (fun ig => negb (in_dims (fst ig) mapped_dims))
       (combine (py_range (List.length grid)) grid)).

(** The generator expression that interleaves the user's semantics with
    ["parallel"] for the vmapped dimensions; [semantics_iter] is what is
    left of [iter(dimension_semantics)].  A [StopIteration] escaping
    [next] inside a generator surfaces as [RuntimeError]. *)
Fixpoint interleave_semantics (indices : list Z) (mapped_dims : list Z)
    (semantics_iter : list (option string)) : result (list (option string)) :=
  match indices with
  | [] => Ok []
  | i :: rest =>
      if negb (in_dims i mapped_dims) then
        match semantics_iter with
        | s :: semantics_iter' =>
            (r <- interleave_semantics rest mapped_dims semantics_iter' ;;
             Ok (s :: r))%res
        | [] => raise_ RuntimeError "generator raised StopIteration"
        end
      else
        (r <- interleave_semantics rest mapped_dims semantics_iter ;;
         Ok (Some "parallel" :: r))%res
  end.

(** The part of [MosaicGridMapping.__init__] that computes
    [self._dimension_semantics]; the rest of the constructor (argument
    types, block shapes, mesh info) does not touch it. *)
Definition MosaicGridMapping_init (grid : list grid_dim)
    (mapped_dims : list Z)
    (dimension_semantics : option (list (option string)))
  : result (list (option string)) :=
  let user_grid := user_grid grid mapped_dims in
  let dimension_semantics :=
    match dimension_semantics with
    | None => repeat (Some "arbitrary") (List.length user_grid)
    | Some l => l
    end in
  if negb (List.length user_grid =? List.length dimension_semantics)%nat then
    raise_ ValueError
      "Must have dimension semantics for each dimension of the grid."
  else if negb (List.length mapped_dims + List.length dimension_semantics
                =? List.length grid)%nat then
    raise_ AssertionError "Misconfigured grid"
  else
    interleave_semantics (py_range (List.length grid)) mapped_dims
      dimension_semantics.

Definition _get_semantics (s : option string) : string :=
  match s with
  | None => "#tpu.dimension_semantics<arbitrary>"
  | Some s => "#tpu.dimension_semantics<" ++ s ++ ">"
  end.

(** [get_dimension_semantics]: the texts handed to [ir.Attribute.parse],
    one per grid dimension. *)
Definition get_dimension_semantics (_dimension_semantics : list (option string))
  : list string :=
  map _get_semantics _dimension_semantics.

(** ** Equation-level dispatcher ([jaxpr_subcomp], lines 758-853) *)

(** Modelled from the spec: [NameStack.__add__] of
    [jax/_src/source_info_util.py] is not part of this file.  A name
    stack is kept as the sequence of its scope names
    ([[scope.name for scope in stack.stack]]); the sum of two stacks has
    the scopes of the first followed by those of the second. *)
Definition name_stack_add (a b : list string) : list string := a ++ b.

(** The loop of [_compute_name_stack_updates] over
    [enumerate(zip(old, new))]. *)
Fixpoint common_prefix_loop (common_prefix_idx i : nat)
    (old_name_stack new_name_stack : list string) : nat :=
  match old_name_stack, new_name_stack with
  | old :: old_rest, new :: new_rest =>
      if String.eqb old new
      then common_prefix_loop (S i) (S i) old_rest new_rest
      else common_prefix_idx
  | _, _ => common_prefix_idx
  end.

(** Returns [(popped, pushed)]. *)
Definition _compute_name_stack_updates
    (old_name_stack new_name_stack : list string)
  : list string * list string :=
  let common_prefix_idx :=
    common_prefix_loop 0 0 old_name_stack new_name_stack in
  (skipn common_prefix_idx old_name_stack,
   skipn common_prefix_idx new_name_stack).

(** What a lowering rule does, as far as the dispatcher can observe it:
    it appends operations of its own (none of the rules of this file
    creates a trace marker), calls [jaxpr_subcomp] on jaxprs of the
    equation with the context's name stack unchanged, or raises. *)
Inductive rule_step :=
| EmitOp (name : string)
| CallSubcomp (k : nat)
| RaiseExn (cls : exn_class) (msg : string).

(** An equation: its primitive, the values read for its inputs with the
    dtypes of their avals, the scope names of its source info, its
    static parameters and the jaxprs its rule dispatches on (jaxpr-valued
    parameters, or the helper jaxpr of a rule made by [lower_fun]).  The
    binding of results to outputs is not modelled: jaxprs are well formed
    by construction and neither markers nor exceptions depend on it. *)
Inductive jaxpr :=
| Jaxpr (eqns : list eqn)
with eqn :=
| Eqn (primitive : string) (invals : list (operand * dtype))
    (name_stack : list string) (params : list Z) (subjaxprs : list jaxpr).

(** The global tables [lowering_rules] and [skip_mlir_conversions]. *)
Record rule_tables := mkTables {
  lowering_rules : string -> option (list Z -> list rule_step);
  skip_mlir_conversions : string -> bool
}.

Definition _ensure_mlir_value (val : operand) (aval_dtype : dtype) : M value :=
  match val with
  | IR v => ret v
  | Host PyObject =>
      throw RuntimeError "Unsupported argument to a JAX primitive of type"
  | Host h => ir_constant h (Some (_dtype_to_ir_type aval_dtype false))
  end.

Fixpoint run_rule (steps : list rule_step) (sub : list (M unit)) : M unit :=
  match steps with
  | [] => ret tt
  | EmitOp name :: rest => (emit (GenericOp name) ;;; run_rule rest sub)%M
  | CallSubcomp k :: rest =>
      match nth_error sub k with
      | Some call => (call ;;; run_rule rest sub)%M
      | None => throw IndexError "tuple index out of range"
      end
  | RaiseExn cls msg :: _ => throw cls msg
  end.

Definition unimplemented_primitive_msg (name : string) : string :=
  "Unimplemented primitive in Pallas TPU lowering: " ++ name ++ ". "
  ++ "Please file an issue on https://github.com/google/jax/issues.".

(** The message of the wrapper; the renderings of the equation's
    context, of the input shapes and types and of the jaxpr are left
    out. *)
Definition lowering_exception_msg (eqn_text : string) (e : exn) : string :=
  "Exception while lowering eqn:" ++ nl ++ "  " ++ eqn_text ++ nl
  ++ "Exception: " ++ exn_msg e.

(** The two handlers of the [try] around the rule call:
    [except LoweringException: raise] and
    [except Exception as e: raise LoweringException(...) from e]. *)
Definition on_rule_exception (eqn_text : string) (e : exn) : exn :=
  if is_lowering_exception e then e
  else ExnFrom LoweringException (lowering_exception_msg eqn_text e) e.

Definition try_rule {A} (eqn_text : string) (body : M A) : M A :=
  fun b =>
    match body b with
    | Ok r => Ok r
    | Raise e => Raise (on_rule_exception eqn_text e)
    end.

Fixpoint emit_trace_stops (popped : list string) : M unit :=
  match popped with
  | [] => ret tt
  | _ :: rest => (emit TpuTraceStopOp ;;; emit_trace_stops rest)%M
  end.

Fixpoint emit_trace_starts (pushed : list string) : M unit :=
  match pushed with
  | [] => ret tt
  | name :: rest =>
      (emit (TpuTraceStartOp name 10) ;;; emit_trace_starts rest)%M
  end.

(** [for eqn in jaxpr.eqns: ...], threading [current_name_stack]. *)
Definition for_each_eqn (body : list string -> eqn -> M (list string))
  : list string -> list eqn -> M (list string) :=
  fix loop (current_name_stack : list string) (eqns : list eqn) {struct eqns} :=
    match eqns with
    | [] => ret current_name_stack
    | e :: rest =>
        (current_name_stack <- body current_name_stack e ;;
         loop current_name_stack rest)%M
    end.

(** [_ensure_mlir_value] over the inputs, unless the primitive is in
    [skip_mlir_conversions]. *)
Definition materialize_invals (t : rule_tables) (primitive : string)
    (invals : list (operand * dtype)) : M unit :=
  if skip_mlir_conversions t primitive then ret tt
  else
    (mapM (fun xv => _ensure_mlir_value (fst xv) (snd xv)) invals ;;;
     ret tt)%M.

(** Drain the name stack at the end of a jaxpr and insert trace_stop
    ops. *)
Definition drain_name_stack (current_name_stack initial_name_stack : list string)
  : M unit :=
  let '(popped, pushed) :=
    _compute_name_stack_updates current_name_stack initial_name_stack in
  (emit_trace_stops popped ;;;
   if negb (List.length pushed =? 0)%nat then throw AssertionError ""
   else ret tt)%M.

(** [jaxpr_subcomp(ctx, jaxpr, *args)] and the body of its loop over
    [jaxpr.eqns]; [ctx_name_stack] is [ctx.name_stack]. *)
Fixpoint jaxpr_subcomp (t : rule_tables) (ctx_name_stack : list string)
    (j : jaxpr) {struct j} : M unit :=
  match j with
  | Jaxpr eqns =>
      let initial_name_stack := ctx_name_stack in
      (current_name_stack <-
         for_each_eqn (fun current_name_stack e =>
                         lower_eqn t ctx_name_stack current_name_stack e)
           initial_name_stack eqns ;;
       drain_name_stack current_name_stack initial_name_stack)%M
  end
with lower_eqn (t : rule_tables) (ctx_name_stack current_name_stack : list string)
    (e : eqn) {struct e} : M (list string) :=
  match e with
  | Eqn primitive invals eqn_name_stack params subjaxprs =>
      match lowering_rules t primitive with
      | Some rule =>
          (materialize_invals t primitive invals ;;;
           (* Insert trace_start and trace_stop ops on named_scope
              boundaries. *)
           let name_stack := name_stack_add ctx_name_stack eqn_name_stack in
           let '(popped, pushed) :=
             _compute_name_stack_updates current_name_stack name_stack in
           emit_trace_stops popped ;;;
           emit_trace_starts pushed ;;;
           try_rule primitive
             (run_rule (rule params)
                (map (jaxpr_subcomp t ctx_name_stack) subjaxprs)) ;;;
           ret name_stack)%M
      | None =>
          throw NotImplementedError (unimplemented_primitive_msg primitive)
      end
  end.

(** The loop over the equations on its own. *)
Definition lower_eqns (t : rule_tables) (ctx_name_stack : list string)
  : list string -> list eqn -> M (list string) :=
  for_each_eqn (fun current_name_stack e =>
                  lower_eqn t ctx_name_stack current_name_stack e).

Definition eqn_primitive (e : eqn) : string :=
  match e with Eqn primitive _ _ _ _ => primitive end.

(** Scope markers among emitted operations. *)
Definition is_trace_start (o : op) : bool :=
  match o with TpuTraceStartOp _ _ => true | _ => false end.

Definition is_trace_stop (o : op) : bool :=
  match o with TpuTraceStopOp => true | _ => false end.

Definition count_trace_starts (ops : list op) : nat :=
  List.length (filter is_trace_start ops).

Definition count_trace_stops (ops : list op) : nat :=
  List.length (filter is_trace_stop ops).

(** The depth of the scope stack after the markers of [ops], starting
    at [depth]; [None] if a stop marker finds the stack empty. *)
Fixpoint scope_depth (ops : list op) (depth : nat) : option nat :=
  match ops with
  | [] => Some depth
  | TpuTraceStartOp _ _ :: rest => scope_depth rest (S depth)
  | TpuTraceStopOp :: rest =>
      match depth with
      | O => None
      | S d => scope_depth rest d
      end
  | _ :: rest => scope_depth rest depth
  end.

(** ** Vocabulary for statements about the builder *)

(** Every successful run of [m] only appends operations, and the result
    and the appended operations satisfy [P]. *)
Definition appends {A} (m : M A) (P : A -> list op -> Prop) : Prop :=
  forall b a b',
    m b = Ok (a, b') ->
    exists ops, emitted b' = (emitted b ++ ops)%list /\ P a ops.

(** The markers of [ops] leave every scope depth where it was. *)
Definition scope_neutral (ops : list op) : Prop :=
  forall depth, scope_depth ops depth = Some depth.

(** One equation moves the scope stack from the current names to the
    names of the equation, above the names of the context. *)
Definition eqn_scopes (e : eqn) : Prop :=
  forall t ctx X b cur' b',
    lower_eqn t ctx (ctx ++ X)%list e b = Ok (cur', b') ->
    exists Y ops,
      cur' = (ctx ++ Y)%list /\ emitted b' = (emitted b ++ ops)%list /\
      forall d, scope_depth ops (List.length X + d)
                = Some (List.length Y + d)%nat.

Definition jaxpr_scopes (j : jaxpr) : Prop :=
  forall t ctx, appends (jaxpr_subcomp t ctx j) (fun _ => scope_neutral).


(** An exception with no [__cause__], or a [LoweringException] raised
    from such an exception that is not itself a [LoweringException]. *)
Definition wrapped_at_most_once (e : exn) : bool :=
  match e with
  | Exn _ _ => true
  | ExnFrom cls _ (Exn cause_cls _) =>
      exn_class_eqb cls LoweringException
      && negb (exn_class_eqb cause_cls LoweringException)
  | ExnFrom _ _ (ExnFrom _ _ _) => false
  end.

(** Every exception that escapes [m] satisfies [P]. *)
Definition raises_only {A} (m : M A) (P : exn -> Prop) : Prop :=
  forall b e, m b = Raise e -> P e.

(** ** Example inputs *)

Definition example_tables : rule_tables :=
  mkTables
    (fun primitive =>
       if String.eqb primitive "add"
       then Some (fun _ => [EmitOp "arith.addf"])
       else if String.eqb primitive "cond"
       then Some (fun _ => [EmitOp "scf.if"; CallSubcomp 1; CallSubcomp 0])
       else None)
    (fun primitive => String.eqb primitive "cond").

Definition example_jaxpr : jaxpr :=
  Jaxpr
    [Eqn "add" [(Host (Py (PyFloat 0)), Float32)] ["outer"; "a"] [] [];
     Eqn "cond" [] ["outer"; "b"] []
       [Jaxpr [Eqn "add" [] ["outer"; "b"; "else"] [] []];
        Jaxpr [Eqn "add" [] ["then"] [] []; Eqn "add" [] [] [] []]];
     Eqn "add" [] ["c"] [] []].

Definition example_lowered : builder :=
  Eval vm_compute in
    match jaxpr_subcomp example_tables [] example_jaxpr (mkBuilder 0 []) with
    | Ok (_, b') => b'
    | Raise _ => mkBuilder 0 []
    end.

(** A jaxpr with one equation of a primitive that has no rule, alone and
    as the second branch of a [cond]. *)
Definition unregistered_jaxpr : jaxpr := Jaxpr [Eqn "mystery" [] [] [] []].

Definition nesting_jaxpr : jaxpr :=
  Jaxpr [Eqn "add" [] ["a"] [] [];
         Eqn "cond" [] [] [] [Jaxpr []; unregistered_jaxpr]].

(** ** Abstract values and their IR types ([aval_to_ir_type]) *)

Inductive semaphore_type := SEM_REGULAR | SEM_DMA | SEM_BARRIER.

(** Abstract values: semaphores, references ([state.AbstractRef]) and
    arrays ([jax_core.ShapedArray]); [OtherAval] is any other kind.
    Extended (PRNG key) dtypes are not modelled. *)
Inductive aval :=
| AbstractSemaphore (sem_type : semaphore_type)
| AbstractRef (shape : list Z) (dt : dtype)
| ShapedArray (shape : list Z) (dt : dtype)
| OtherAval.

Definition aval_to_ir_type (a : aval) (shape : option (list Z))
    (memory_space : option memory_space) (is_kernel_boundary : bool)
  : result ir_type :=
  match a with
  | AbstractSemaphore sem_type =>
      let sem_type :=
        match sem_type with
        | SEM_DMA => TpuDmaSemaphoreType
        | SEM_REGULAR => TpuSemaphoreType
        | SEM_BARRIER => TpuSemaphoreType
        end in
      let memspace := _memory_space_to_tpu_memspace (Some SEMAPHORE) in
      Ok (MemRefType [] sem_type memspace)
  | AbstractRef aval_shape dt =>
      let shape := match shape with None => aval_shape | Some s => s end in
      let memspace := _memory_space_to_tpu_memspace memory_space in
      Ok (MemRefType shape (_dtype_to_ir_type dt true) memspace)
  | ShapedArray aval_shape dt =>
      let shape := match shape with None => aval_shape | Some s => s end in
      match shape with
      | [] => Ok (_dtype_to_ir_type dt is_kernel_boundary)
      | _ => Ok (VectorType shape (_dtype_to_ir_type dt is_kernel_boundary))
      end
  | OtherAval => raise_ NotImplementedError ""
  end.

Fixpoint map_result {A B} (f : A -> result B) (xs : list A) : result (list B) :=
  match xs with
  | [] => Ok []
  | x :: xs' => (y <- f x ;; ys <- map_result f xs' ;; Ok (y :: ys))%res
  end.

(** ** Control-flow rules *)

(** A nested call [jaxpr_subcomp(lowering_context, jaxpr, *args)] made by
    a rule, where [lowering_context] is the rule's context with the given
    block shapes: it appends the operations of the jaxpr (kept as one
    [SubcompOp]) and returns one value per output of the jaxpr. *)
Definition jaxpr_subcomp_call (block_shapes : list (option (list ref_dim)))
    (jaxpr : sub_jaxpr) (args : list value) : M (list value) :=
  (results <- fresh_list (sj_out_types jaxpr) ;;
   emit (SubcompOp results block_shapes jaxpr (map IR args)) ;;;
   ret results)%M.

(** A loop bound: a Python [int] or an [ir.Value]. *)
Inductive int_or_value :=
| StaticInt (n : Z)
| Dynamic (v : value).

(** Modelled from the spec: [pallas_core.index_map_grid_aval] is not
    part of this file; grid and loop indices are scalar 32-bit
    integers. *)
Definition index_map_grid_dtype : dtype := Int32.

Definition i32 : ir_type := _dtype_to_ir_type Int32 false.

(** [range(start, stop)]. *)
Definition py_range2 (start stop : Z) : list Z :=
  map (fun k => start + Z.of_nat k) (seq 0 (Z.to_nat (stop - start))).

(** [_run_body] of [_lower_jaxpr_to_for_loop]. *)
Definition _run_body (block_shapes : list (option (list ref_dim)))
    (jaxpr : sub_jaxpr) (consts : list value) (has_loop_index : bool)
    (i : value) (args : list value) : M (list value) :=
  if has_loop_index then
    jaxpr_subcomp_call block_shapes jaxpr (consts ++ i :: args)
  else
    jaxpr_subcomp_call
      (firstn (List.length consts) block_shapes
       ++ skipn (List.length consts + 1) block_shapes)
      jaxpr (consts ++ args).

(** The complete unroll: [for i in range(start, start + num_steps)]. *)
Fixpoint unroll_body (run_body : value -> list value -> M (list value))
    (indices : list Z) (args : list value) : M (list value) :=
  match indices with
  | [] => ret args
  | i :: rest =>
      (iv <- ir_constant (Py (PyInt i)) (Some i32) ;;
       args <- run_body iv args ;;
       unroll_body run_body rest args)%M
  end.

Definition ensure_index (x : int_or_value) : M value :=
  match x with
  | StaticInt n =>
      _ensure_mlir_value (Host (Py (PyInt n))) index_map_grid_dtype
  | Dynamic v => _ensure_mlir_value (IR v) index_map_grid_dtype
  end.

(** [_lower_jaxpr_to_for_loop] (lines 2126-2169); [block_shapes] is
    [ctx.block_shapes], [unroll] an [int] (a [bool] counts as 0 or 1).
    The numbers formatted into the error message are left out. *)
Definition _lower_jaxpr_to_for_loop (block_shapes : list (option (list ref_dim)))
    (jaxpr : sub_jaxpr) (start num_steps : int_or_value)
    (consts args : list value) (has_loop_index : bool) (unroll : Z)
  : M (list value) :=
  let run_body := _run_body block_shapes jaxpr consts has_loop_index in
  let fully_unrolled :=
    match start, num_steps with
    | StaticInt start, StaticInt num_steps =>
        if num_steps =? unroll then Some (start, num_steps) else None
    | _, _ => None
    end in
  match fully_unrolled with
  | Some (start, num_steps) =>
      (* No need for an scf.For. We can just unroll completely *)
      unroll_body run_body (py_range2 start (start + num_steps)) args
  | None =>
      if negb (unroll =? 1) then
        throw NotImplementedError "Only unroll=num_steps and unroll=1 supported."
      else
        (lbd <- ensure_index start ;;
         n <- ensure_index num_steps ;;
         ubd <- fresh (v_ty lbd) ;;
         emit (ArithAddIOp ubd lbd n) ;;;
         step <- ir_constant (Py (PyInt 1)) (Some i32) ;;
         results <- fresh_list (map v_ty args) ;;
         iv <- fresh (v_ty lbd) ;;
         inner_args <- fresh_list (map v_ty args) ;;
         ' (_, body) <- in_region
                          (inner_out <- run_body iv inner_args ;;
                           emit (ScfYieldOp inner_out)) ;;
         emit (ScfForOp results lbd ubd step args iv inner_args body) ;;;
         ret results)%M
  end.

(** [_cond_lowering_rule] (lines 2309-2335); [block_shapes] and
    [avals_out] are those of the rule context, [args] the operands,
    index first. *)
Fixpoint _cond_lowering_rule (block_shapes : list (option (list ref_dim)))
    (avals_out : list aval) (args : list value) (branches : list sub_jaxpr)
    {struct branches} : M (list value) :=
  match args with
  | [] => throw ValueError "not enough values to unpack (expected at least 1, got 0)"
  | index :: args =>
      (out_types <-
         lift (map_result (fun a => aval_to_ir_type a None None false) avals_out) ;;
       zero <- ir_constant (Py (PyInt 0)) (Some (v_ty index)) ;;
       pred <- fresh (IntegerType None 1) ;;
       emit (ArithCmpIOp pred 1 index zero) ;;;
       results <- fresh_list out_types ;;
       let lowering_block_shapes := tl block_shapes in
       ' (_, then_block) <-
         in_region
           (out <-
              match branches with
              | _ :: rest =>
                  if (2 <? List.length branches)%nat then
                    (* TODO(b/300272065): Use [scf.IndexSwitchOp] instead
                       of a cascade of if/else. *)
                    one <- ir_constant (Py (PyInt 1)) (Some (v_ty index)) ;;
                    index' <- fresh (v_ty index) ;;
                    emit (ArithSubIOp index' index one) ;;;
                    _cond_lowering_rule block_shapes avals_out
                      (index' :: args) rest
                  else
                    match nth_error branches 1 with
                    | Some branch =>
                        jaxpr_subcomp_call lowering_block_shapes branch args
                    | None => throw IndexError "tuple index out of range"
                    end
              | [] => throw IndexError "tuple index out of range"
              end ;;
            emit (ScfYieldOp out)) ;;
       ' (_, else_block) <-
         in_region
           (out <-
              match nth_error branches 0 with
              | Some branch =>
                  jaxpr_subcomp_call lowering_block_shapes branch args
              | None => throw IndexError "tuple index out of range"
              end ;;
            emit (ScfYieldOp out)) ;;
       emit (ScfIfOp results pred then_block else_block) ;;;
       ret results)%M
  end.

(** ** Evaluation of emitted operations

    Enough of the meaning of the [arith], [memref], [vector] and [scf]
    operations to run what the rules emit: signless integers are kept as
    bit patterns in [0, 2^width), vectors as the list of their elements,
    and memory as cells addressed by the SSA name of the reference, the
    start indices and the strides of an access (views made by slicing
    are separate names; aliasing between them is not modelled). *)

Inductive rt :=
| RInt (z : Z)
| RVec (zs : list Z).

Definition location : Type := vname * list Z * list Z.

Record machine := mkMachine {
  m_env : vname -> option rt;
  m_mem : location -> option rt
}.

Definition vname_eqb (a b : vname) : bool :=
  match a, b with
  | ArgName s, ArgName s' => String.eqb s s'
  | ResId n, ResId n' => Nat.eqb n n'
  | _, _ => false
  end.

Definition location_eqb (a b : location) : bool :=
  let '(r, s, t) := a in
  let '(r', s', t') := b in
  vname_eqb r r' && list_Z_eqb s s' && list_Z_eqb t t'.

Definition set_value (m : machine) (v : value) (x : option rt) : machine :=
  mkMachine (fun n => if vname_eqb n (v_name v) then x else m_env m n)
    (m_mem m).

Fixpoint set_values (m : machine) (vs : list value) (xs : list (option rt))
  : machine :=
  match vs with
  | [] => m
  | v :: vs' =>
      match xs with
      | x :: xs' => set_values (set_value m v x) vs' xs'
      | [] => set_values (set_value m v None) vs' []
      end
  end.

Definition set_cell (m : machine) (l : location) (x : option rt) : machine :=
  mkMachine (m_env m)
    (fun l' => if location_eqb l' l then x else m_mem m l').

Definition get_value (m : machine) (v : value) : option rt := m_env m (v_name v).

Definition type_width (t : ir_type) : option Z :=
  match t with
  | IntegerType _ w => Some w
  | IndexType => Some 64
  | _ => None
  end.

Fixpoint element_type (t : ir_type) : ir_type :=
  match t with
  | VectorType _ e => element_type e
  | MemRefType _ e _ => element_type e
  | t => t
  end.

Definition wrap_to (t : ir_type) (z : Z) : option Z :=
  match type_width (element_type t) with
  | Some w => Some (z mod 2 ^ w)
  | None => None
  end.

Definition num_elements (shape : list Z) : nat :=
  Z.to_nat (fold_right Z.mul 1 shape).

(** The integer a host value converts to with [int(x)] or [bool(x)]. *)
Definition host_int (h : host_value) : option Z :=
  match h with
  | Py (PyInt n) | NpArrayOf (PyInt n) _ => Some n
  | Py (PyBool b) | NpArrayOf (PyBool b) _ => Some (if b then 1 else 0)
  | _ => None
  end.

Fixpoint attr_value (a : attr) : option rt :=
  match a with
  | IntegerAttr ty h =>
      match host_int h with
      | Some n => option_map RInt (wrap_to ty n)
      | None => None
      end
  | BoolAttr h =>
      match host_int h with
      | Some n => Some (RInt (if n =? 0 then 0 else 1))
      | None => None
      end
  | DenseSplatAttr (VectorType shape _) elt =>
      match attr_value elt with
      | Some (RInt z) => Some (RVec (repeat z (num_elements shape)))
      | _ => None
      end
  | _ => None
  end.

Definition to_signed (w z : Z) : Z :=
  if z <? 2 ^ (w - 1) then z else z - 2 ^ w.

(** [arith.cmpi] predicates: 0 eq, 1 ne, 2 slt, 3 sle, 4 sgt, 5 sge,
    6 ult, 7 ule, 8 ugt, 9 uge. *)
Definition eval_cmpi (predicate w x y : Z) : option Z :=
  let b (c : bool) := Some (if c then 1 else 0) in
  match predicate with
  | 0 => b (x =? y)
  | 1 => b (negb (x =? y))
  | 2 => b (to_signed w x <? to_signed w y)
  | 3 => b (to_signed w x <=? to_signed w y)
  | 4 => b (to_signed w x >? to_signed w y)
  | 5 => b (to_signed w x >=? to_signed w y)
  | 6 => b (x <? y)
  | 7 => b (x <=? y)
  | 8 => b (x >? y)
  | 9 => b (x >=? y)
  | _ => None
  end.

Fixpoint zip_with_opt (f : Z -> Z -> option Z) (xs ys : list Z)
  : option (list Z) :=
  match xs, ys with
  | [], [] => Some []
  | x :: xs', y :: ys' =>
      match f x y, zip_with_opt f xs' ys' with
      | Some z, Some zs => Some (z :: zs)
      | _, _ => None
      end
  | _, _ => None
  end.

Definition binary_rt (f : Z -> Z -> option Z) (x y : option rt) : option rt :=
  match x, y with
  | Some (RInt a), Some (RInt b) => option_map RInt (f a b)
  | Some (RVec a), Some (RVec b) => option_map RVec (zip_with_opt f a b)
  | _, _ => None
  end.

Definition unary_rt (f : Z -> option Z) (x : option rt) : option rt :=
  binary_rt (fun a _ => f a) x x.

(** [arith.cmpi] on operands of type [ty]. *)
Definition compare_rt (predicate : Z) (ty : ir_type) (x y : option rt)
  : option rt :=
  match type_width (element_type ty) with
  | Some w => binary_rt (eval_cmpi predicate w) x y
  | None => None
  end.

(** The integer values of the start indices of an access. *)
Fixpoint index_values (m : machine) (starts : list value) : option (list Z) :=
  match starts with
  | [] => Some []
  | s :: rest =>
      match get_value m s, index_values m rest with
      | Some (RInt z), Some zs => Some (z :: zs)
      | _, _ => None
      end
  end.

Definition do_load (m : machine) (res ref : value) (starts : list value)
    (strides : list Z) : option machine :=
  match index_values m starts with
  | Some idx => Some (set_value m res (m_mem m (v_name ref, idx, strides)))
  | None => None
  end.

Definition do_store (m : machine) (val ref : value) (starts : list value)
    (strides : list Z) : option machine :=
  match index_values m starts with
  | Some idx => Some (set_cell m (v_name ref, idx, strides) (get_value m val))
  | None => None
  end.

(** A block of operations: the machine after it, the jaxprs whose
    lowered bodies ran, in order, and the values of its [scf.yield]. *)
Definition exec_ops
    (exec_op : op -> machine -> option (machine * list sub_jaxpr))
  : list op -> machine -> option (machine * list sub_jaxpr * list (option rt)) :=
  fix loop (ops : list op) (m : machine) {struct ops} :=
    match ops with
    | [] => Some (m, [], [])
    | ScfYieldOp vals :: _ => Some (m, [], map (get_value m) vals)
    | o :: rest =>
        match exec_op o m with
        | Some (m1, t1) =>
            match loop rest m1 with
            | Some (m2, t2, y) => Some (m2, (t1 ++ t2)%list, y)
            | None => None
            end
        | None => None
        end
    end.

Fixpoint exec_op (o : op) (m : machine) {struct o}
  : option (machine * list sub_jaxpr) :=
  let pure (res : value) (x : option rt) := Some (set_value m res x, []) in
  match o with
  | ArithConstantOp res a => pure res (attr_value a)
  | ArithIndexCastOp res x =>
      pure res (unary_rt (wrap_to (v_ty res)) (get_value m x))
  | ArithAddIOp res x y =>
      pure res (binary_rt (fun a b => wrap_to (v_ty res) (a + b))
                  (get_value m x) (get_value m y))
  | ArithSubIOp res x y =>
      pure res (binary_rt (fun a b => wrap_to (v_ty res) (a - b))
                  (get_value m x) (get_value m y))
  | ArithCmpIOp res predicate x y =>
      pure res (compare_rt predicate (v_ty x) (get_value m x) (get_value m y))
  | ArithExtUIOp res x => pure res (get_value m x)
  | VectorShapeCastOp res x => pure res (get_value m x)
  | MemrefLoadOp res ref starts | VectorLoadOp res ref starts =>
      option_map (fun m' => (m', [])) (do_load m res ref starts [])
  | TpuStridedLoadOp res ref starts strides =>
      option_map (fun m' => (m', [])) (do_load m res ref starts strides)
  | MemrefStoreOp val ref starts | VectorStoreOp val ref starts =>
      option_map (fun m' => (m', [])) (do_store m val ref starts [])
  | TpuStridedStoreOp val ref starts strides =>
      option_map (fun m' => (m', [])) (do_store m val ref starts strides)
  | TpuMemRefSliceOp _ _ _ _ | TpuMemRefSqueezeOp _ _ => Some (m, [])
  | TpuTraceStartOp _ _ | TpuTraceStopOp | GenericOp _ => Some (m, [])
  | ScfYieldOp _ => Some (m, [])
  | SubcompOp results _ jaxpr _ => Some (set_values m results [], [jaxpr])
  | ScfIfOp results pred then_block else_block =>
      match get_value m pred with
      | Some (RInt p) =>
          match (if p =? 0 then exec_ops exec_op else_block m
                 else exec_ops exec_op then_block m) with
          | Some (m', t, yielded) => Some (set_values m' results yielded, t)
          | None => None
          end
      | _ => None
      end
  | ScfForOp _ _ _ _ _ _ _ _ => None
  end.

Definition exec_block : list op -> machine
                        -> option (machine * list sub_jaxpr * list (option rt)) :=
  exec_ops exec_op.

(** Counting the operations of a block by kind. *)
Definition is_subcomp (o : op) : bool :=
  match o with SubcompOp _ _ _ _ => true | _ => false end.

Definition is_structured_loop (o : op) : bool :=
  match o with ScfForOp _ _ _ _ _ _ _ _ => true | _ => false end.

Definition count_ops (which : op -> bool) (ops : list op) : nat :=
  List.length (filter which ops).

(** The block shapes and the arguments [_run_body] hands to the nested
    call. *)
Definition body_block_shapes (block_shapes : list (option (list ref_dim)))
    (consts : list value) (has_loop_index : bool)
  : list (option (list ref_dim)) :=
  if has_loop_index then block_shapes
  else (firstn (List.length consts) block_shapes
        ++ skipn (List.length consts + 1) block_shapes)%list.

Definition body_args (consts : list value) (has_loop_index : bool)
    (i : value) (args : list value) : list value :=
  if has_loop_index then (consts ++ i :: args)%list
  else (consts ++ args)%list.

(** [unrolled_copies ... indices args ops out]: [ops] is, for each index
    of [indices] in order, a 32-bit constant of that index followed by
    one inlined copy of the body, each copy taking the results of the
    one before it; [out] are the results of the last. *)
Inductive unrolled_copies (block_shapes : list (option (list ref_dim)))
    (jaxpr : sub_jaxpr) (consts : list value) (has_loop_index : bool)
  : list Z -> list value -> list op -> list value -> Prop :=
| unrolled_nil args :
    unrolled_copies block_shapes jaxpr consts has_loop_index [] args [] args
| unrolled_cons i rest args iv results ops out :
    v_ty iv = i32 ->
    map v_ty results = sj_out_types jaxpr ->
    unrolled_copies block_shapes jaxpr consts has_loop_index
      rest results ops out ->
    unrolled_copies block_shapes jaxpr consts has_loop_index
      (i :: rest) args
      (ArithConstantOp iv (IntegerAttr i32 (NpArrayOf (PyInt i) Int32))
       :: SubcompOp results
            (body_block_shapes block_shapes consts has_loop_index)
            jaxpr (map IR (body_args consts has_loop_index iv args))
       :: ops)
      out.

(** [v] was created before the builder reached value number [n]. *)
Definition older (v : value) (n : nat) : Prop :=
  match v_name v with
  | ResId k => (k < n)%nat
  | ArgName _ => True
  end.

Definition is_yield (o : op) : bool :=
  match o with ScfYieldOp _ => true | _ => false end.

Definition example_body : sub_jaxpr := mkSubJaxpr "body" [F32Type].
Definition example_carry : value := mkValue (ArgName "x") F32Type.
Definition example_index : value := mkValue (ArgName "index") i32.
Definition example_branches : list sub_jaxpr :=
  [mkSubJaxpr "branch0" [F32Type]; mkSubJaxpr "branch1" [F32Type];
   mkSubJaxpr "branch2" [F32Type]].

(** [cond_cascade block_shapes args index branches ops results]: [ops]
    tests [index] against zero and holds one two-way [scf.if] whose else
    region is the lowered first branch and whose then region is the
    lowered second branch when two branches are left, and otherwise the
    cascade for the remaining branches on [index - 1]. *)
Inductive cond_cascade (block_shapes : list (option (list ref_dim)))
    (args : list value)
  : value -> list sub_jaxpr -> list op -> list value -> Prop :=
| cascade_last index b0 b1 zero pred results r0 r1 :
    cond_cascade block_shapes args index [b0; b1]
      [ArithConstantOp zero
         (IntegerAttr (v_ty index) (NpArrayOf (PyInt 0) Int32));
       ArithCmpIOp pred 1 index zero;
       ScfIfOp results pred
         [SubcompOp r1 block_shapes b1 (map IR args); ScfYieldOp r1]
         [SubcompOp r0 block_shapes b0 (map IR args); ScfYieldOp r0]]
      results
| cascade_peel index b0 rest zero pred results r0 one index' inner
    inner_results :
    (2 <= List.length rest)%nat ->
    cond_cascade block_shapes args index' rest inner inner_results ->
    cond_cascade block_shapes args index (b0 :: rest)
      [ArithConstantOp zero
         (IntegerAttr (v_ty index) (NpArrayOf (PyInt 0) Int32));
       ArithCmpIOp pred 1 index zero;
       ScfIfOp results pred
         ([ArithConstantOp one
             (IntegerAttr (v_ty index) (NpArrayOf (PyInt 1) Int32));
           ArithSubIOp index' index one]
          ++ inner ++ [ScfYieldOp inner_results])%list
         [SubcompOp r0 block_shapes b0 (map IR args); ScfYieldOp r0]]
      results.

(** ** Memory reference indexer (lines 914-1033) *)

(** One entry of [NDIndexer.indices]: an [indexing.Slice], a Python
    [int], a scalar [ir.Value] or a NumPy array of the given shape. *)
Inductive index :=
| ISlice (start : operand) (size : size) (stride : Z)
| IInt (n : Z)
| IValue (v : value)
| IArray (h : host_value) (np_shape : list Z).

(** An [NDIndexer]; [indexer_shape] is what its method
    [get_indexer_shape()] (of [jax/_src/state/indexing.py]) returns. *)
Record NDIndexer := mkNDIndexer {
  indices : list index;
  indexer_shape : list size
}.

(** The value interpreted as a dynamic dimension by MLIR. *)
Definition MLIR_DYNAMIC : Z := -9223372036854775808.

(** [isinstance(s, np.ndarray)]. *)
Definition is_ndarray (h : host_value) : bool :=
  match h with
  | NpArrayOf _ _ | NpValue NpNdarray _ _ => true
  | _ => false
  end.

Definition _make_index (s : operand) : M value :=
  match s with
  | Host h =>
      if isinstance_int h || is_ndarray h
      then ir_constant h (Some IndexType)
      else throw AttributeError "object has no attribute 'type'"
  | IR v =>
      if ir_type_eqb (v_ty v) IndexType then ret v
      else (r <- fresh IndexType ;; emit (ArithIndexCastOp r v) ;;; ret r)%M
  end.

Definition _maybe_cast_to_index (cast_to_index : bool) (x : operand) : M value :=
  if cast_to_index then _make_index x
  else _ensure_mlir_value x index_map_grid_dtype.

(** Returns [(start, size, stride, squeeze)]. *)
Definition _index_to_start_size_stride (idx : index) (cast_to_index : bool)
  : M (value * size * Z * bool) :=
  match idx with
  | ISlice start size stride =>
      (start <- _maybe_cast_to_index cast_to_index start ;;
       ret (start, size, stride, false))%M
  | IInt n =>
      (start <- _maybe_cast_to_index cast_to_index (Host (Py (PyInt n))) ;;
       ret (start, SInt 1, 1, true))%M
  | IValue v =>
      (start <- _maybe_cast_to_index cast_to_index (IR v) ;;
       ret (start, SInt 1, 1, true))%M
  | IArray h np_shape =>
      match np_shape with
      | _ :: _ =>
          throw ValueError "Can only use ()-shaped and slice indexing"
      | [] =>
          (start <- _maybe_cast_to_index cast_to_index (Host h) ;;
           ret (start, SInt 1, 1, true))%M
      end
  end.

(** The loop of [_indexer_to_start_size_stride] over [ref_block_shape];
    [indices_iter] is what is left of [iter(indexer.indices)]. *)
Fixpoint indexer_loop (cast_to_index : bool) (ref_block_shape : list ref_dim)
    (indices_iter : list index)
  : M (list (value * size * Z * bool) * list index) :=
  match ref_block_shape with
  | [] => ret ([], indices_iter)
  | s :: rest =>
      (' (entry, indices_iter) <-
         match s with
         | RMapped =>
             (start <- _maybe_cast_to_index cast_to_index
                         (Host (Py (PyInt 0))) ;;
              ret ((start, SInt 1, 1, true), indices_iter))
         | RDim _ =>
             match indices_iter with
             | idx :: indices_iter =>
                 (entry <- _index_to_start_size_stride idx cast_to_index ;;
                  ret (entry, indices_iter))
             | [] => throw StopIteration ""
             end
         end ;;
       ' (entries, indices_iter) <-
         indexer_loop cast_to_index rest indices_iter ;;
       ret (entry :: entries, indices_iter))%M
  end.

Record start_size_stride := mkSSS {
  sss_starts : list value;
  sss_sizes : list size;
  sss_strides : list Z;
  sss_squeeze_dims : list bool;
  sss_new_ref_block_shape : list ref_dim
}.

Definition _indexer_to_start_size_stride (indexer : NDIndexer)
    (ref_block_shape : option (list ref_dim)) (cast_to_index : bool)
  : M start_size_stride :=
  match ref_block_shape with
  | None => throw TypeError "'NoneType' object is not iterable"
  | Some ref_block_shape =>
      (' (entries, indices_iter) <-
         indexer_loop cast_to_index ref_block_shape (indices indexer) ;;
       match indices_iter with
       | [] =>
           ret (mkSSS
                  (map (fun e => fst (fst (fst e))) entries)
                  (map (fun e => snd (fst (fst e))) entries)
                  (map (fun e => snd (fst e)) entries)
                  (map (fun e => snd e) entries)
                  (map (fun e => RDim (snd (fst (fst e))))
                     (filter (fun e => negb (snd e)) entries)))
       | _ :: _ => throw AssertionError ""
       end)%M
  end.

Definition static_size (s : size) : Z :=
  match s with
  | SInt n => n
  | SVal _ => MLIR_DYNAMIC
  end.

Fixpoint dynamic_sizes_of (sizes : list size) : list value :=
  match sizes with
  | [] => []
  | SVal v :: rest => v :: dynamic_sizes_of rest
  | SInt _ :: rest => dynamic_sizes_of rest
  end.

(** [ref.type.memory_space]. *)
Definition type_memory_space (t : ir_type) : result memory_space :=
  match t with
  | MemRefType _ _ space => Ok space
  | _ => raise_ AttributeError "object has no attribute 'memory_space'"
  end.

(** [_slice_memref]; [ref_dtype] is [ref_aval.dtype]. *)
Definition _slice_memref (ref : value) (ref_dtype : dtype)
    (indexer : NDIndexer) (ref_block_shape : option (list ref_dim))
  : M (value * list ref_dim) :=
  match ref_block_shape with
  | None => throw AssertionError ""
  | Some _ =>
      let target_shape := indexer_shape indexer in
      (r <- _indexer_to_start_size_stride indexer ref_block_shape false ;;
       if negb (forallb (fun s => s =? 1) (sss_strides r)) then
         throw NotImplementedError "Strided slices of references are unsupported."
       else
         let dynamic_sizes := dynamic_sizes_of (sss_sizes r) in
         let static_sizes := map static_size (sss_sizes r) in
         memory_space <- lift (type_memory_space (v_ty ref)) ;;
         let target_ref_ty :=
           MemRefType static_sizes (_dtype_to_ir_type ref_dtype false)
             memory_space in
         out <- fresh target_ref_ty ;;
         emit (TpuMemRefSliceOp out ref (sss_starts r) dynamic_sizes) ;;;
         out <-
           (if existsb (fun sq => sq) (sss_squeeze_dims r) then
              (* We need to squeeze out some dimensions *)
              let static_sizes := map static_size target_shape in
              let squeezed_ref_ty :=
                MemRefType static_sizes (_dtype_to_ir_type ref_dtype false)
                  memory_space in
              squeezed <- fresh squeezed_ref_ty ;;
              emit (TpuMemRefSqueezeOp squeezed out) ;;;
              ret squeezed
            else ret out) ;;
         ret (out, sss_new_ref_block_shape r))%M
  end.

Fixpoint _index_ref (ref : value) (ref_dtype : dtype)
    (ref_block_shape : option (list ref_dim)) (indexers : list NDIndexer)
  : M (value * option (list ref_dim)) :=
  match indexers with
  | [] => ret (ref, ref_block_shape)
  | indexer :: rest =>
      (' (ref, ref_block_shape) <-
         _slice_memref ref ref_dtype indexer ref_block_shape ;;
       _index_ref ref ref_dtype (Some ref_block_shape) rest)%M
  end.

(** ** Load / store rules (lines 1144-1260) *)

(** The shape and dtype of a [ShapedArray]. *)
Record array_aval := mkArrayAval {
  aval_shape : list Z;
  aval_dtype : dtype
}.

Definition cmpi_result_type (t : ir_type) : ir_type :=
  match t with
  | VectorType shape _ => VectorType shape (IntegerType None 1)
  | _ => IntegerType None 1
  end.

(** [_cmpi_lowering_types[lax.ne_p]]. *)
Definition _cmpi_lowering_types_ne : Z := 1.

Definition _maybe_cast_load_to_bool (out_aval : array_aval) (val : value)
  : M value :=
  if negb (dtype_eqb (aval_dtype out_aval) Bool_) then ret val
  else
    let load_scalar_type := _dtype_to_ir_type BOOL_MEMREF_TYPE false in
    let pred := _cmpi_lowering_types_ne in
    let const_zero := IntegerAttr load_scalar_type (Py (PyInt 0)) in
    match aval_shape out_aval with
    | _ :: _ =>
        (* Vector case. *)
        (load_vector_type <-
           lift (aval_to_ir_type
                   (ShapedArray (aval_shape out_aval) (aval_dtype out_aval))
                   None None true) ;;
         vector_zeros <-
           arith_constant load_vector_type
             (DenseSplatAttr load_vector_type const_zero) ;;
         r <- fresh (cmpi_result_type (v_ty val)) ;;
         emit (ArithCmpIOp r pred val vector_zeros) ;;;
         ret r)%M
    | [] =>
        (* Scalar case. *)
        (const_zero <- arith_constant load_scalar_type const_zero ;;
         r <- fresh (cmpi_result_type (v_ty val)) ;;
         emit (ArithCmpIOp r pred val const_zero) ;;;
         ret r)%M
    end.


(** The aval of one index of an indexer: a [Slice] or an array of the
    given shape. *)
Inductive index_aval :=
| AvalSlice
| AvalArray (shape : list Z).

(** The unpacking [*init, last = xs]. *)
Definition unpack_last {A} (xs : list A) : result (list A * A) :=
  match rev xs with
  | [] => raise_ ValueError "not enough values to unpack (expected at least 1, got 0)"
  | x :: rev_init => Ok (rev rev_init, x)
  end.




Definition is_int_index_aval (a : index_aval) : bool :=
  match a with
  | AvalArray (_ :: _) => true
  | _ => false
  end.

Definition is_smem (t : ir_type) : result bool :=
  match t with
  | MemRefType _ _ space => Ok (memory_space_eqb space SMEM)
  | _ => raise_ ValueError "Cannot cast type to MemRefType"
  end.

Definition block_shape_is_empty (bs : option (list ref_dim)) : bool :=
  match bs with
  | None | Some [] => true
  | Some (_ :: _) => false
  end.





(** The indexer that slices every dimension of a block of shape [shape]
    in full: start 0, the whole extent, stride 1. *)
Definition full_slice_indexer (shape : list Z) : NDIndexer :=
  mkNDIndexer (map (fun d => ISlice (Host (Py (PyInt 0))) (SInt d) 1) shape)
    (map SInt shape).

Definition static_block_shape (shape : list Z) : list ref_dim :=
  map (fun d => RDim (SInt d)) shape.

(** A boolean reference of shape (8, 128) in VMEM, as the function
    assembler types it ([aval_to_ir_type] of its [AbstractRef]). *)
Definition bool_ref_type : ir_type :=
  match aval_to_ir_type (AbstractRef [8; 128] Bool_) None (Some VMEM) false with
  | Ok t => t
  | Raise _ => IndexType
  end.

Definition bool_ref : value := mkValue (ArgName "x_ref") bool_ref_type.



(** ** Vocabulary for the swap rule *)

(** Operations that compute indices and views, and casts of register
    values: neither kind accesses memory. *)
Definition is_setup_op (o : op) : bool :=
  match o with
  | ArithConstantOp _ _ | ArithIndexCastOp _ _
  | TpuMemRefSliceOp _ _ _ _ | TpuMemRefSqueezeOp _ _ => true
  | _ => false
  end.

Definition is_cast_op (o : op) : bool :=
  match o with
  | ArithConstantOp _ _ | ArithCmpIOp _ _ _ _ | ArithExtUIOp _ _
  | VectorShapeCastOp _ _ => true
  | _ => false
  end.

(** [m'] has the memory of [m] and the values of everything created
    before value number [n]. *)
Definition frame (n : nat) (m m' : machine) : Prop :=
  m_mem m' = m_mem m /\
  forall v, older v n -> get_value m' v = get_value m v.

(** From [b] to [b'] the builder numbered more values and appended only
    setup operations, which run on every machine and leave its memory
    and the values created before [b] as they were. *)
Definition steps (b b' : builder) : Prop :=
  (next_id b <= next_id b')%nat /\
  exists ops, emitted b' = (emitted b ++ ops)%list
              /\ forallb is_setup_op ops = true
              /\ forall m,
                   exists m',
                     exec_block ops m = Some (m', [], [])
                     /\ frame (next_id b) m m'.

Definition operand_older (x : operand) (n : nat) : Prop :=
  match x with
  | IR v => older v n
  | Host _ => True
  end.

Definition index_older (n : nat) (idx : index) : Prop :=
  match idx with
  | ISlice start _ _ => operand_older start n
  | IValue v => older v n
  | _ => True
  end.

(** *** The location an indexer names

    The start index an indexer gives every dimension of a block: 0 for
    a mapped dimension, and for the others, in order, the start of a
    slice or the index itself, read from the machine when it is an
    [ir.Value]. *)







(** The zero a loaded boolean of the given shape is compared with. *)
Definition bool_zero (shape : list Z) : rt :=
  match shape with
  | [] => RInt 0
  | _ :: _ => RVec (repeat 0 (num_elements shape))
  end.

(** What a swap of a value of aval [val_aval] returns when the cell it
    reads, through a load of type [raw_ty], holds [cell]: the cell
    itself, or for booleans its comparison with zero, not-equal. *)
Definition swap_result (val_aval : array_aval) (raw_ty : ir_type)
    (cell : option rt) : option rt :=
  if negb (dtype_eqb (aval_dtype val_aval) Bool_) then cell
  else compare_rt _cmpi_lowering_types_ne raw_ty cell
         (Some (bool_zero (aval_shape val_aval))).




(** A reference to four booleans in SMEM and the indexer [[2]] into it. *)
Definition example_smem_ref : value :=
  mkValue (ArgName "flags_ref") (MemRefType [4] (IntegerType None 32) SMEM).


Definition example_mask : operand := Host (Py (PyBool true)).







(** ** Vocabulary for indexers *)

(** The number of dimensions of a block shape that are not mapped: the
    number of indices [_indexer_to_start_size_stride] takes from the
    indexer. *)
Definition is_mapped_dim (s : ref_dim) : bool :=
  match s with RMapped => true | RDim _ => false end.

Definition unmapped_rank (ref_block_shape : list ref_dim) : nat :=
  List.length (filter (fun s => negb (is_mapped_dim s)) ref_block_shape).

Definition is_slice_index (i : index) : bool :=
  match i with ISlice _ _ _ => true | _ => false end.

(** The start indices of a memory access; empty for other operations. *)
Definition op_starts (o : op) : list value :=
  match o with
  | MemrefLoadOp _ _ starts | MemrefStoreOp _ _ starts
  | VectorLoadOp _ _ starts | VectorStoreOp _ _ starts
  | TpuStridedLoadOp _ _ starts _ | TpuStridedStoreOp _ _ starts _ => starts
  | _ => []
  end.

Definition is_memory_access (o : op) : bool :=
  match o with
  | MemrefLoadOp _ _ _ | MemrefStoreOp _ _ _
  | VectorLoadOp _ _ _ | VectorStoreOp _ _ _
  | TpuStridedLoadOp _ _ _ _ | TpuStridedStoreOp _ _ _ _ => true
  | _ => false
  end.


(** ** The load rule ([_load_lowering_rule], lines 1052-1107, and
    [_prng_key_load_lowering_rule], lines 1109-1138) *)

(** The aval of the result of a load: an array, or a PRNG key whose
    implementation has the given [key_shape]. *)
Inductive load_aval_out :=
| OutArray (aval_out : array_aval)
| OutKey (key_shape : list Z).

(** What the rule returns: an [ir.Value], or for keys a
    [KeyScalarBundle]. *)
Inductive loaded :=
| LoadedValue (v : value)
| KeyScalarBundle (key_shape : list Z) (scalars : list value).

(** [jax_core.ShapedArray(sizes, dtype)]: the shape of an array holds
    integers; the constructor (outside this file) rejects an
    [ir.Value]. *)
Fixpoint concrete_shape (sizes : list size) : result (list Z) :=
  match sizes with
  | [] => Ok []
  | SInt n :: rest => (r <- concrete_shape rest ;; Ok (n :: r))%res
  | SVal _ :: _ =>
      raise_ TypeError "Shapes must be 1D sequences of concrete values of integer type"
  end.

(** [load_aval != aval_out], on the shape and the dtype (weak types are
    not modelled). *)
Definition array_aval_eqb (a b : array_aval) : bool :=
  list_Z_eqb (aval_shape a) (aval_shape b)
  && dtype_eqb (aval_dtype a) (aval_dtype b).

Definition _prng_key_load_lowering_rule (ref : value) (key_shape : list Z)
  : M loaded :=
  let ref_block_shape := key_shape in
  if negb (List.length ref_block_shape =? 2)%nat then
    throw NotImplementedError "Seed key_data must be 2D."
  else if negb (list_Z_eqb ref_block_shape [1; 1]) then
    throw NotImplementedError "Seed key_data of shape != (1, 1) not supported."
  else
    (load_ops <-
       mapM (fun i =>
               let idx := mkNDIndexer [IInt 0; IInt i] [] in
               r <- _indexer_to_start_size_stride idx
                      (Some (map (fun d => RDim (SInt d)) ref_block_shape))
                      true ;;
               res <- fresh (element_type (v_ty ref)) ;;
               emit (MemrefLoadOp res ref (sss_starts r)) ;;;
               ret res)
         (py_range (Z.to_nat (nth 0 ref_block_shape 0))) ;;
     ret (KeyScalarBundle ref_block_shape load_ops))%M.

(** The branch [if is_smem_load:] of [_load_lowering_rule]. *)
Definition load_smem (ref : value) (starts : list value)
    (aval_out : array_aval) : M value :=
  match aval_shape aval_out with
  | _ :: _ => throw ValueError "Can only load scalars from SMEM"
  | [] =>
      (raw <- fresh (element_type (v_ty ref)) ;;
       emit (MemrefLoadOp raw ref starts) ;;;
       _maybe_cast_load_to_bool aval_out raw)%M
  end.

(** The rest of [_load_lowering_rule], for a reference that is not in
    SMEM. *)
Definition load_vector (ref : value) (starts : list value)
    (sizes : list size) (strides : list Z) (need_stride : bool)
    (ref_dtype : dtype) (aval_out : array_aval) : M value :=
  (load_shape <- lift (concrete_shape sizes) ;;
   let load_aval := mkArrayAval load_shape ref_dtype in
   load_ty <-
     lift (aval_to_ir_type
             (ShapedArray (aval_shape load_aval) (aval_dtype load_aval))
             None None true) ;;
   load_val <- fresh load_ty ;;
   (if need_stride
    then emit (TpuStridedLoadOp load_val ref starts strides)
    else emit (VectorLoadOp load_val ref starts)) ;;;
   load_val <-
     (if negb (array_aval_eqb load_aval aval_out) then
        let vec_type :=
          VectorType (aval_shape aval_out)
            (_dtype_to_ir_type (aval_dtype aval_out) true) in
        r <- fresh vec_type ;;
        emit (VectorShapeCastOp r load_val) ;;;
        ret r
      else ret load_val) ;;
   _maybe_cast_load_to_bool aval_out load_val)%M.

(** [_load_lowering_rule]: the operands are given unflattened,
    [ref_dtype] is [ref_aval.dtype], [ref_block_shape] the first entry
    of [ctx.block_shapes] and [aval_out] the single entry of
    [ctx.avals_out]. *)
Definition _load_lowering_rule
    (ref : value) (indexers : list NDIndexer) (mask : option operand)
    (ref_dtype : dtype) (indexers_avals : list (list index_aval))
    (aval_out : load_aval_out)
    (ref_block_shape : option (list ref_dim)) : M loaded :=
  (' (slice_indexers, idx) <- lift (unpack_last indexers) ;;
   (* Select last aval, which is the one that will be used for the load. *)
   ' (_, idx_aval) <- lift (unpack_last indexers_avals) ;;
   match mask with
   | Some _ => throw NotImplementedError ""
   | None =>
       let args_ref := ref in
       ' (ref, ref_block_shape) <-
         _index_ref ref ref_dtype ref_block_shape slice_indexers ;;
       is_smem_load <- lift (is_smem (v_ty ref)) ;;
       match aval_out with
       | OutKey key_shape =>
           if negb is_smem_load then
             throw ValueError "PRNG keys must be loaded from SMEM. Did you set the memory space to TPUMemorySpace.SMEM in the BlockSpec for the PRNG key input?"
           else _prng_key_load_lowering_rule args_ref key_shape
       | OutArray aval_out =>
           if negb is_smem_load && block_shape_is_empty ref_block_shape then
             throw NotImplementedError
               "Indexing into a ()-shaped Ref not yet supported on TPU."
           else if existsb is_int_index_aval idx_aval then
             throw ValueError "Cannot do int indexing on TPU"
           else
             r <- _indexer_to_start_size_stride idx ref_block_shape true ;;
             let starts := sss_starts r in
             let sizes := sss_sizes r in
             let strides := sss_strides r in
             let need_stride := negb (forallb (fun s => s =? 1) strides) in
             v <- (if is_smem_load then load_smem ref starts aval_out
                   else load_vector ref starts sizes strides need_stride
                          ref_dtype aval_out) ;;
             ret (LoadedValue v)
       end
   end)%M.

(** A load of [ref] at [starts]; [key] holds the strides of a strided
    load and is empty otherwise. *)
Inductive load_access (raw ref : value) (starts : list value)
  : list Z -> op -> Prop :=
| scalar_load :
    load_access raw ref starts [] (MemrefLoadOp raw ref starts)
| vector_load :
    load_access raw ref starts [] (VectorLoadOp raw ref starts)
| strided_load strides :
    load_access raw ref starts strides
      (TpuStridedLoadOp raw ref starts strides).

(** A reference to a 8 x 128 block of 32-bit floats in VMEM and the
    indexer [[2, :]] into it. *)
Definition example_vmem_ref : value :=
  mkValue (ArgName "x_ref") (MemRefType [8; 128] F32Type VMEM).

Definition example_row_indexer : NDIndexer :=
  mkNDIndexer [IInt 2; ISlice (Host (Py (PyInt 0))) (SInt 128) 1] [SInt 128].

Definition example_load (mask : option operand) : M loaded :=
  _load_lowering_rule example_vmem_ref [example_row_indexer] mask Float32
    [[AvalArray []; AvalSlice]] (OutArray (mkArrayAval [128] Float32))
    (Some [RDim (SInt 8); RDim (SInt 128)]).




(** ** The for rule ([_for_lowering_rule], lines 2092-2120) *)

(** [[next(non_ref_args_iter) if s else a for a, s in zip(args,
    should_discharge)]]: every argument comes with whether its aval is a
    reference, [should_discharge] being the negation. *)
Fixpoint next_non_ref_args (args : list (value * bool))
    (non_ref_args_iter : list value) : result (list (value * bool)) :=
  match args with
  | [] => Ok []
  | (a, is_ref) :: rest =>
      let should_discharge := negb is_ref in
      if should_discharge then
        match non_ref_args_iter with
        | v :: non_ref_args_iter =>
            (r <- next_non_ref_args rest non_ref_args_iter ;;
             Ok ((v, is_ref) :: r))%res
        | [] => raise_ StopIteration ""
        end
      else
        (r <- next_non_ref_args rest non_ref_args_iter ;;
         Ok ((a, is_ref) :: r))%res
  end.

(** The indices the loop visits: [i] or [nsteps - i - 1] for [i] in
    [range(nsteps)]. *)
Definition for_indices (nsteps : Z) (reverse : bool) : list Z :=
  map (fun i => if reverse then nsteps - i - 1 else i) (py_range2 0 nsteps).

Fixpoint for_loop_body (block_shapes : list (option (list ref_dim)))
    (jaxpr : sub_jaxpr) (indices : list Z) (args : list (value * bool))
  : M (list (value * bool)) :=
  match indices with
  | [] => ret args
  | i :: rest =>
      (i <- ir_constant (Py (PyInt i)) None ;;
       non_ref_args <-
         jaxpr_subcomp_call (Some [] :: block_shapes) jaxpr
           (i :: map fst args) ;;
       args <- lift (next_non_ref_args args non_ref_args) ;;
       for_loop_body block_shapes jaxpr rest args)%M
  end.

(** [_for_lowering_rule]: [jaxpr] is the body after
    [state_discharge.discharge_state], [args] the operands, each with
    whether its entry of [ctx.avals_in] is an [AbstractRef], and
    [block_shapes] is [ctx.block_shapes]. *)
Definition _for_lowering_rule (block_shapes : list (option (list ref_dim)))
    (jaxpr : sub_jaxpr) (args : list (value * bool)) (nsteps : Z)
    (reverse : bool) : M (list value) :=
  (args <- for_loop_body block_shapes jaxpr (for_indices nsteps reverse) args ;;
   ret (map fst args))%M.

(** [for_iterations ... indices args ops out]: [ops] is, for each index
    of [indices] in order, a 32-bit constant of that index followed by
    the lowered body on the constant and the current arguments; the
    results of the body replace the arguments that are not references. *)
Inductive for_iterations (block_shapes : list (option (list ref_dim)))
    (jaxpr : sub_jaxpr)
  : list Z -> list (value * bool) -> list op -> list (value * bool) -> Prop :=
| for_iterations_nil args :
    for_iterations block_shapes jaxpr [] args [] args
| for_iterations_cons i rest args iv results args' ops out :
    v_ty iv = i32 ->
    map v_ty results = sj_out_types jaxpr ->
    next_non_ref_args args results = Ok args' ->
    for_iterations block_shapes jaxpr rest args' ops out ->
    for_iterations block_shapes jaxpr (i :: rest) args
      (ArithConstantOp iv (IntegerAttr i32 (NpArrayOf (PyInt i) Int32))
       :: SubcompOp results (Some [] :: block_shapes) jaxpr
            (map IR (iv :: map fst args))
       :: ops)
      out.

Definition example_for_body : sub_jaxpr := mkSubJaxpr "for_body" [F32Type].


(** ** The scan rule ([_scan_lowering_rule], lines 2172-2215) *)

(** [_scan_lowering_rule]: the operands are given split, each with the
    dtype of its aval: [consts] are the first [num_consts] of them,
    [loop_index] the loop index start when the scan was matched with
    one ([has_loop_index]), [args] the ones that follow.
    [num_extensive] is [len(args) - num_consts - num_carry],
    [jaxpr_has_consts] says whether [jaxpr.consts] is non-empty and
    [matched] is the jaxpr returned by
    [pallas_utils.pattern_match_scan_to_fori_loop], which may raise. *)
Definition _scan_lowering_rule (block_shapes : list (option (list ref_dim)))
    (num_extensive : Z) (reverse jaxpr_has_consts : bool)
    (matched : result sub_jaxpr)
    (consts : list (operand * dtype)) (loop_index : option int_or_value)
    (args : list (operand * dtype)) (length unroll : Z) : M (list value) :=
  (* Can only handle fori_loop-like scans *)
  if negb (num_extensive =? 0) then throw NotImplementedError ""
  else if reverse then throw NotImplementedError ""
  else if jaxpr_has_consts then throw NotImplementedError ""
  else
    (jaxpr <- lift matched ;;
     let has_loop_index :=
       match loop_index with Some _ => true | None => false end in
     let loop_index_start :=
       match loop_index with Some start => start | None => StaticInt 0 end in
     consts <- mapM (fun xv => _ensure_mlir_value (fst xv) (snd xv)) consts ;;
     args <- mapM (fun xv => _ensure_mlir_value (fst xv) (snd xv)) args ;;
     out <- _lower_jaxpr_to_for_loop block_shapes jaxpr loop_index_start
              (StaticInt length) consts args has_loop_index unroll ;;
     if has_loop_index then
       (c <- ir_constant (Py (PyInt length)) (Some i32) ;; ret (c :: out))
     else ret out)%M.

(** ** While loops matched as counted loops ([_lower_while_via_fori],
    lines 2220-2244) *)

(** [args] are the operands: the constants of the condition, those of
    the body, then the carried values, of which the first two are the
    bounds. *)
Definition _lower_while_via_fori (block_shapes : list (option (list ref_dim)))
    (fori_jaxpr : sub_jaxpr) (cond_nconsts body_nconsts : nat)
    (args : list value) : M (list value) :=
  let body_consts := firstn body_nconsts (skipn cond_nconsts args) in
  let carry := skipn body_nconsts (skipn cond_nconsts args) in
  match firstn 2 carry with
  | [lb; ub] =>
      let args := skipn 2 carry in
      (num_steps <- fresh (v_ty ub) ;;
       emit (ArithSubIOp num_steps ub lb) ;;;
       for_out <-
         _lower_jaxpr_to_for_loop
           (firstn (body_nconsts + 1) block_shapes
            ++ skipn (body_nconsts + 2) block_shapes)
           fori_jaxpr (Dynamic lb) (Dynamic num_steps) body_consts args
           true 1 ;;
       ret (ub :: ub :: for_out))%M
  | _ => throw ValueError "not enough values to unpack (expected 2)"
  end.

Definition example_lower : value := mkValue (ArgName "lower") i32.
Definition example_upper : value := mkValue (ArgName "upper") i32.


(** ** Grid indices ([MosaicGridMapping.__init__], lines 350-361, and
    [_program_id_lowering_rule], lines 2378-2390) *)

(** [_get_grid_indices], the [get_grid_indices] of a grid mapping that
    was not given one. *)
Definition _get_grid_indices {A} (mapped_dims : list Z) (indices : list A)
    (maybe_include_mapped_dims : bool) : list A :=
  if maybe_include_mapped_dims then indices
  else
    map snd
      (filter (fun ix => negb (in_dims (fst ix) mapped_dims))
         (combine (py_range (List.length indices)) indices)).

(** [user_grid_indices] is [ctx.lowering_context.user_grid_indices]. *)
Definition _program_id_lowering_rule (user_grid_indices : option (list value))
    (axis : Z) : result value :=
  match user_grid_indices with
  | None =>
      raise_ ValueError "program id was passed, but user did not provide a grid."
  | Some user_grid_indices =>
      let length := Z.of_nat (List.length user_grid_indices) in
      if negb ((0 <=? axis) && (axis <? length)) then
        raise_ ValueError "user passed in program id with axis out of the grid's length"
      else
        match nth_error user_grid_indices (Z.to_nat axis) with
        | Some v => Ok v
        | None => raise_ IndexError "list index out of range"
        end
  end.

(** ** Boolean operands of the call ([_maybe_cast_to_int] and
    [_maybe_cast_to_bool] of [pallas_call_registration.py]) *)

(** [_maybe_cast_to_int] on an aval. *)
Definition _maybe_cast_to_int (x : array_aval) : array_aval :=
  if dtype_eqb (aval_dtype x) Bool_
  then mkArrayAval (aval_shape x) BOOL_MEMREF_TYPE
  else x.

(** [_maybe_cast_to_bool(x, aval)], on the dtype of the kernel output
    [x]: [x.astype(bool)] has dtype [bool]. *)
Definition _maybe_cast_to_bool (x_dtype : dtype) (aval : array_aval) : dtype :=
  if dtype_eqb (aval_dtype aval) Bool_ then Bool_ else x_dtype.

(** A PRNG key in SMEM, stored as 1 x 1 words, and the load [key_ref[...]]. *)
Definition example_key_ref : value :=
  mkValue (ArgName "key_ref") (MemRefType [1; 1] (IntegerType None 32) SMEM).

Definition example_key_load (key_shape : list Z) : M loaded :=
  _load_lowering_rule example_key_ref [mkNDIndexer [] []] None UInt32 [[]]
    (OutKey key_shape) (Some []).


(** ** Operations of the elementwise rules and of the grid and mesh
    queries *)

(** The binary operations of [arith] the rules below create. *)
Inductive arith_kind :=
| AddI | AddF | SubI | SubF | MulI | MulF
| DivSI | DivUI | DivF | RemSI | RemUI | RemF
| MaxSI | MaxUI | MaximumF | MinSI | MinUI | MinimumF.

(** The operations of these rules: those of [op], and the ones [op]
    does not list. *)
Inductive xop :=
| BaseOp (o : op)
| ArithBinaryOp (kind : arith_kind) (res x y : value)
| ArithCmpFOp (res : value) (predicate : Z) (x y : value)
| ArithSelectOp (res cond x y : value)
| VectorBroadcastOp (res x : value)
| TpuIterationBoundOp (res : value) (dim : Z)
| TpuDeviceIdOp (res : value)
| ArithXOrIOp (res x y : value).

Record xbuilder := mkXBuilder { x_next_id : nat; x_emitted : list xop }.

Definition X (A : Type) : Type := xbuilder -> result (A * xbuilder).

Definition xret {A} (a : A) : X A := fun b => Ok (a, b).
Definition xbind {A B} (m : X A) (k : A -> X B) : X B :=
  fun b => match m b with
           | Ok (a, b') => k a b'
           | Raise e => Raise e
           end.
Definition xthrow {A} (c : exn_class) (msg : string) : X A :=
  fun _ => Raise (Exn c msg).
Definition xlift {A} (r : result A) : X A :=
  fun b => match r with Ok a => Ok (a, b) | Raise e => Raise e end.

Declare Scope xbuilder_scope.
Delimit Scope xbuilder_scope with X.
Notation "x <- m ;; k" := (xbind m (fun x => k))
  (at level 61, m at next level, right associativity) : xbuilder_scope.
Notation "' pat <- m ;; k" := (xbind m (fun x => match x with pat => k end))
  (at level 61, pat pattern, m at next level, right associativity)
  : xbuilder_scope.
Notation "m ;;; k" := (xbind m (fun _ => k))
  (at level 61, right associativity) : xbuilder_scope.

Definition xfresh (ty : ir_type) : X value :=
  fun b => Ok (mkValue (ResId (x_next_id b)) ty,
               mkXBuilder (S (x_next_id b)) (x_emitted b)).

Definition xemit (o : xop) : X unit :=
  fun b => Ok (tt, mkXBuilder (x_next_id b) (x_emitted b ++ [o])).

(** A computation that creates operations of [op] only, run at the
    current insertion point. *)
Definition embed {A} (m : M A) : X A :=
  fun b =>
    match m (mkBuilder (x_next_id b) []) with
    | Ok (a, b') =>
        Ok (a, mkXBuilder (next_id b') (x_emitted b ++ map BaseOp (emitted b')))
    | Raise e => Raise e
    end.

(** ** Grid queries ([_num_programs_lowering_rule], lines 2393-2405) *)

(** The [for ... else] loop over [range(grid_rank)]: the dimension [i]
    at which it breaks, if it does. *)
Fixpoint num_programs_loop (mapped_axes : list Z) (axis : Z)
    (seen_user_axes : Z) (dims : list Z) : option Z :=
  match dims with
  | [] => None
  | i :: rest =>
      let seen_user_axes :=
        seen_user_axes + (if negb (in_dims i mapped_axes) then 1 else 0) in
      if seen_user_axes =? axis + 1 then Some i
      else num_programs_loop mapped_axes axis seen_user_axes rest
  end.

(** [mapped_dims] and [grid_rank] are those of the lowering context.
    When the loop does not break, formatting the message of the
    [ValueError] calls [len] on [grid_rank], an [int], which raises
    [TypeError] instead.  The result of [tpu.iteration_bound] is a
    32-bit integer. *)
Definition _num_programs_lowering_rule (mapped_dims : list Z)
    (grid_rank : nat) (axis : Z) : X value :=
  match num_programs_loop mapped_dims axis 0 (py_range grid_rank) with
  | Some i =>
      (r <- xfresh i32 ;; xemit (TpuIterationBoundOp r i) ;;; xret r)%X
  | None => xthrow TypeError "object of type 'int' has no len()"
  end.

Definition example_grid_indices : list value :=
  [mkValue (ArgName "i0") i32; mkValue (ArgName "i1") i32;
   mkValue (ArgName "i2") i32].


(** ** Elementwise rules ([_bcast], lines 1666-1692; the binary rules,
    lines 1695-1800; [_cmp_lowering_rule], lines 1979-2004) *)

(** [jnp.issubdtype(dtype, kind)] for the abstract kinds of NumPy. *)
Definition issubdtype_signedinteger (d : dtype) : bool :=
  match d with Int8 | Int16 | Int32 | Int64 => true | _ => false end.

Definition issubdtype_unsignedinteger (d : dtype) : bool :=
  match d with UInt8 | UInt16 | UInt32 | UInt64 => true | _ => false end.

Definition issubdtype_integer (d : dtype) : bool :=
  issubdtype_signedinteger d || issubdtype_unsignedinteger d.

Definition issubdtype_floating (d : dtype) : bool :=
  match d with BFloat16 | Float16 | Float32 | Float64 => true | _ => false end.

Definition issubdtype_bool (d : dtype) : bool := dtype_eqb d Bool_.

(** The aval of an input: shape, dtype and weak type. *)
Record in_aval := mkInAval {
  in_shape : list Z;
  in_dtype : dtype;
  in_weak_type : bool
}.

(** [isinstance(x, (np.ndarray, np.number, int, float))]; a NumPy
    boolean scalar is no [np.number]. *)
Definition is_numeric_host (h : host_value) : bool :=
  match h with
  | Py _ => true
  | PyObject => false
  | NpArrayOf _ _ => true
  | NpValue NpNdarray _ _ => true
  | NpValue NpGeneric dt _ => issubdtype_integer dt || issubdtype_floating dt
  end.

(** [getattr(x, "type", None) == ir.IndexType.get()]. *)
Definition has_index_type (x : operand) : bool :=
  match x with
  | IR v => ir_type_eqb (v_ty v) IndexType
  | Host _ => false
  end.

(** The operands of an operation are [ir.Value]s; the Python bindings
    of MLIR, outside this file, reject anything else. *)
Definition as_value (x : operand) : X value :=
  match x with
  | IR v => xret v
  | Host _ => xthrow TypeError "operand is not an ir.Value"
  end.

(** [if isinstance(x, ...): x = ir_constant(x, mlir_type)], with the
    other operand [y] deciding between the index type and the type of
    [x_dtype]. *)
Definition bcast_constant (x y : operand) (x_dtype : dtype) : X operand :=
  match x with
  | Host h =>
      if is_numeric_host h then
        let mlir_type :=
          if has_index_type y then IndexType
          else _dtype_to_ir_type x_dtype false in
        (v <- embed (ir_constant h (Some mlir_type)) ;; xret (IR v))%X
      else xret x
  | IR _ => xret x
  end.

(** [if x_aval.shape != out_aval.shape: x = vector.BroadcastOp(x_ty, x)]. *)
Definition bcast_shape (x : operand) (x_shape out_shape : list Z)
    (x_dtype : dtype) : X operand :=
  if negb (list_Z_eqb x_shape out_shape) then
    let x_ty := VectorType out_shape (_dtype_to_ir_type x_dtype false) in
    (x <- as_value x ;;
     r <- xfresh x_ty ;;
     xemit (VectorBroadcastOp r x) ;;;
     xret (IR r))%X
  else xret x.

Definition _bcast (x y : operand) (x_aval y_aval : in_aval)
    (out_aval : array_aval) : X (operand * operand) :=
  let x_dtype := in_dtype x_aval in
  let y_dtype := in_dtype y_aval in
  let '(x_dtype, y_dtype) :=
    if in_weak_type y_aval then (x_dtype, in_dtype x_aval)
    else if in_weak_type x_aval then (in_dtype y_aval, y_dtype)
    else (x_dtype, y_dtype) in
  (x <- bcast_constant x y x_dtype ;;
   y <- bcast_constant y x y_dtype ;;
   let out_shape := aval_shape out_aval in
   x <- bcast_shape x (in_shape x_aval) out_shape x_dtype ;;
   y <- bcast_shape y (in_shape y_aval) out_shape y_dtype ;;
   xret (x, y))%X.

(** [arith.<Kind>Op(x, y).result]: the result has the type of [x]. *)
Definition arith_binary (kind : arith_kind) (x y : operand) : X value :=
  (x <- as_value x ;;
   y <- as_value y ;;
   r <- xfresh (v_ty x) ;;
   xemit (ArithBinaryOp kind r x y) ;;;
   xret r)%X.

Definition _add_lowering_rule (x y : operand) (x_aval y_aval : in_aval)
    (aval_out : array_aval) : X value :=
  (' (x, y) <- _bcast x y x_aval y_aval aval_out ;;
   if issubdtype_integer (aval_dtype aval_out) then arith_binary AddI x y
   else if issubdtype_floating (aval_dtype aval_out)
   then arith_binary AddF x y
   else xthrow NotImplementedError "")%X.

Definition _max_lowering_rule (x y : operand) (x_aval y_aval : in_aval)
    (aval_out : array_aval) : X value :=
  (' (x, y) <- _bcast x y x_aval y_aval aval_out ;;
   if issubdtype_signedinteger (aval_dtype aval_out)
   then arith_binary MaxSI x y
   else if issubdtype_unsignedinteger (aval_dtype aval_out)
   then arith_binary MaxUI x y
   else if issubdtype_floating (aval_dtype aval_out)
   then arith_binary MaximumF x y
   else xthrow NotImplementedError "")%X.

Definition _min_lowering_rule (x y : operand) (x_aval y_aval : in_aval)
    (aval_out : array_aval) : X value :=
  (' (x, y) <- _bcast x y x_aval y_aval aval_out ;;
   if issubdtype_signedinteger (aval_dtype aval_out)
   then arith_binary MinSI x y
   else if issubdtype_unsignedinteger (aval_dtype aval_out)
   then arith_binary MinUI x y
   else if issubdtype_floating (aval_dtype aval_out)
   then arith_binary MinimumF x y
   else xthrow NotImplementedError "")%X.

Definition _sub_lowering_rule (x y : operand) (x_aval y_aval : in_aval)
    (aval_out : array_aval) : X value :=
  (' (x, y) <- _bcast x y x_aval y_aval aval_out ;;
   if issubdtype_integer (aval_dtype aval_out) then arith_binary SubI x y
   else if issubdtype_floating (aval_dtype aval_out)
   then arith_binary SubF x y
   else xthrow NotImplementedError "")%X.

Definition _mul_lowering_rule (x y : operand) (x_aval y_aval : in_aval)
    (aval_out : array_aval) : X value :=
  (' (x, y) <- _bcast x y x_aval y_aval aval_out ;;
   if issubdtype_integer (aval_dtype aval_out) then arith_binary MulI x y
   else if issubdtype_floating (aval_dtype aval_out)
   then arith_binary MulF x y
   else xthrow NotImplementedError "")%X.

Definition _div_lowering_rule (x y : operand) (x_aval y_aval : in_aval)
    (aval_out : array_aval) : X value :=
  (' (x, y) <- _bcast x y x_aval y_aval aval_out ;;
   if issubdtype_integer (aval_dtype aval_out) then arith_binary DivSI x y
   else if issubdtype_unsignedinteger (aval_dtype aval_out)
   then arith_binary DivUI x y
   else if issubdtype_floating (aval_dtype aval_out)
   then arith_binary DivF x y
   else xthrow NotImplementedError "")%X.

Definition _rem_lowering_rule (x y : operand) (x_aval y_aval : in_aval)
    (aval_out : array_aval) : X value :=
  (' (x, y) <- _bcast x y x_aval y_aval aval_out ;;
   if issubdtype_integer (aval_dtype aval_out) then arith_binary RemSI x y
   else if issubdtype_unsignedinteger (aval_dtype aval_out)
   then arith_binary RemUI x y
   else if issubdtype_floating (aval_dtype aval_out)
   then arith_binary RemF x y
   else xthrow NotImplementedError "")%X.

(** The comparison primitives and the tables [_cmpi_lowering_types]
    and [_cmpf_lowering_types]. *)
Inductive cmp_prim := eq_p | ne_p | lt_p | le_p | gt_p | ge_p.

Definition _cmpi_lowering_types (prim : cmp_prim) : Z :=
  match prim with
  | eq_p => 0 | ne_p => 1 | lt_p => 2 | le_p => 3 | gt_p => 4 | ge_p => 5
  end.

Definition _cmpf_lowering_types (prim : cmp_prim) : Z :=
  match prim with
  | eq_p => 1 | ne_p => 6 | lt_p => 4 | le_p => 5 | gt_p => 2 | ge_p => 3
  end.

(** [x = arith.SelectOp(x, true_, false_)]. *)
Definition select_int (x : operand) (true_ false_ : value) : X operand :=
  (x <- as_value x ;;
   r <- xfresh (v_ty true_) ;;
   xemit (ArithSelectOp r x true_ false_) ;;;
   xret (IR r))%X.

Definition _cmp_lowering_rule (prim : cmp_prim) (x y : operand)
    (x_aval y_aval : in_aval) (aval_out : array_aval) : X value :=
  (' (x, y) <- _bcast x y x_aval y_aval aval_out ;;
   let dtypes := (in_dtype x_aval, in_dtype y_aval) in
   if forallb (fun dtype => issubdtype_integer dtype || issubdtype_bool dtype)
        [fst dtypes; snd dtypes] then
     (* Handle bool comparisons by casting to int32. *)
     let bool_cast_to := _dtype_to_ir_type Int32 false in
     true_ <- embed (ir_constant (Py (PyInt 1)) (Some bool_cast_to)) ;;
     false_ <- embed (ir_constant (Py (PyInt 0)) (Some bool_cast_to)) ;;
     x <- (if issubdtype_bool (fst dtypes) then select_int x true_ false_
           else xret x) ;;
     y <- (if issubdtype_bool (snd dtypes) then select_int y true_ false_
           else xret y) ;;
     let pred := _cmpi_lowering_types prim in
     x <- as_value x ;;
     y <- as_value y ;;
     r <- xfresh (cmpi_result_type (v_ty x)) ;;
     xemit (BaseOp (ArithCmpIOp r pred x y)) ;;;
     xret r
   else if forallb issubdtype_floating [fst dtypes; snd dtypes] then
     let pred := _cmpf_lowering_types prim in
     x <- as_value x ;;
     y <- as_value y ;;
     r <- xfresh (cmpi_result_type (v_ty x)) ;;
     xemit (ArithCmpFOp r pred x y) ;;;
     xret r
   else xthrow NotImplementedError "Mixed dtype operands in cmp")%X.

(** ** Evaluation of the operations of these rules *)

(** The integer operations of [arith] on bit patterns of width [w]:
    signed ones read their operands in two's complement and round the
    quotient toward zero; a zero divisor has no defined result. *)
Definition arith_eval (kind : arith_kind) (w a b : Z) : option Z :=
  let sa := to_signed w a in
  let sb := to_signed w b in
  match kind with
  | AddI => Some ((a + b) mod 2 ^ w)
  | SubI => Some ((a - b) mod 2 ^ w)
  | MulI => Some ((a * b) mod 2 ^ w)
  | DivSI => if sb =? 0 then None else Some (Z.quot sa sb mod 2 ^ w)
  | DivUI => if b =? 0 then None else Some (a / b)
  | RemSI => if sb =? 0 then None else Some (Z.rem sa sb mod 2 ^ w)
  | RemUI => if b =? 0 then None else Some (a mod b)
  | MaxSI => Some (if sa <? sb then b else a)
  | MaxUI => Some (Z.max a b)
  | MinSI => Some (if sa <? sb then a else b)
  | MinUI => Some (Z.min a b)
  | AddF | SubF | MulF | DivF | RemF | MaximumF | MinimumF => None
  end.

(** One operation, on a device whose logical id is [device_id];
    floating-point operations, broadcasts and grid bounds are not
    given a meaning. *)
Definition xexec_op (device_id : Z) (o : xop) (m : machine) : option machine :=
  match o with
  | BaseOp o => option_map fst (exec_op o m)
  | ArithBinaryOp kind res x y =>
      match type_width (element_type (v_ty res)) with
      | Some w =>
          Some (set_value m res
                  (binary_rt (arith_eval kind w) (get_value m x)
                     (get_value m y)))
      | None => None
      end
  | ArithSelectOp res cond x y =>
      match get_value m cond with
      | Some (RInt c) =>
          Some (set_value m res
                  (if c =? 0 then get_value m y else get_value m x))
      | _ => None
      end
  | TpuDeviceIdOp res =>
      Some (set_value m res (option_map RInt (wrap_to (v_ty res) device_id)))
  | ArithXOrIOp res x y =>
      Some (set_value m res
              (binary_rt (fun a b => Some (Z.lxor a b)) (get_value m x)
                 (get_value m y)))
  | ArithCmpFOp _ _ _ _ | VectorBroadcastOp _ _ | TpuIterationBoundOp _ _ =>
      None
  end.

Fixpoint xexec_block (device_id : Z) (ops : list xop) (m : machine)
  : option machine :=
  match ops with
  | [] => Some m
  | o :: rest =>
      match xexec_op device_id o m with
      | Some m' => xexec_block device_id rest m'
      | None => None
      end
  end.

(** Constants and broadcasts: what [_bcast] creates. *)
Definition is_bcast_op (o : xop) : bool :=
  match o with
  | BaseOp (ArithConstantOp _ _) | VectorBroadcastOp _ _ => true
  | _ => false
  end.

Definition example_u32 (name : string) : value :=
  mkValue (ArgName name) (IntegerType None 32).

Definition example_u32_aval : in_aval := mkInAval [] UInt32 false.


(** [lowered_as kind b r b']: from [b] to [b'] a rule appended constants
    and broadcasts and then, last, the binary operation [kind], whose
    result is [r]. *)
Definition lowered_as (kind : arith_kind) (b : xbuilder) (r : value)
    (b' : xbuilder) : Prop :=
  exists pre x y,
    x_emitted b' = (x_emitted b ++ pre ++ [ArithBinaryOp kind r x y])%list
    /\ forallb is_bcast_op pre = true
    /\ v_ty r = v_ty x.


(** The comparison [a prim b] on integers. *)
Definition cmp_holds (prim : cmp_prim) (a b : Z) : bool :=
  match prim with
  | eq_p => a =? b
  | ne_p => negb (a =? b)
  | lt_p => a <? b
  | le_p => a <=? b
  | gt_p => a >? b
  | ge_p => a >=? b
  end.


(** ** Mesh queries ([_axis_index_rule], lines 2697-2714, and
    [_linearize_mesh_indices] of [_device_id_to_logical], lines
    2587-2588) *)

Record MeshContext := mkMeshContext {
  mesh_shape : list Z;
  axis_names : list string;
  mesh_strides : list Z
}.

(** [names.index(name)]. *)
Fixpoint list_index (names : list string) (name : string) : option nat :=
  match names with
  | [] => None
  | n :: rest =>
      if String.eqb n name then Some 0%nat
      else option_map S (list_index rest name)
  end.

(** [np.prod(shape, dtype=np.int32)]: the product, wrapped to 32 bits
    in two's complement.  The result is a NumPy scalar of dtype int32,
    which [ir_constant] treats as it does [np.array] of that value. *)
Definition np_prod_int32 (shape : list Z) : Z :=
  to_signed 32 (fold_right Z.mul 1 shape mod 2 ^ 32).

(** [grid_names], [user_grid_indices] and [mesh_context] are those of
    the lowering context.  The result of [tpu.device_id] is a 32-bit
    integer. *)
Definition _axis_index_rule (grid_names : option (list string))
    (user_grid_indices : option (list value))
    (mesh_context : option MeshContext) (axis_name : string) : X value :=
  match match grid_names with
        | Some grid_names => list_index grid_names axis_name
        | None => None
        end with
  | Some axis =>
      (* We are querying a named axis corresponding to a grid dimension. *)
      xlift (_program_id_lowering_rule user_grid_indices (Z.of_nat axis))
  | None =>
      (* We are querying a named axis corresponding to a mesh dimension. *)
      (device_id <- xfresh i32 ;;
       xemit (TpuDeviceIdOp device_id) ;;;
       match mesh_context with
       | None => xthrow ValueError "Mesh context is not set."
       | Some mesh_context =>
           match list_index (axis_names mesh_context) axis_name with
           | None => xthrow ValueError "tuple.index(x): x not in tuple"
           | Some axis_index =>
               match nth_error (mesh_shape mesh_context) axis_index with
               | None => xthrow IndexError "tuple index out of range"
               | Some size =>
                   axis_size <- embed (ir_constant (Py (PyInt size)) None) ;;
                   minor_divisor <-
                     embed (ir_constant
                              (NpArrayOf
                                 (PyInt (np_prod_int32
                                           (skipn (S axis_index)
                                              (mesh_shape mesh_context))))
                                 Int32)
                              None) ;;
                   q <- xfresh (v_ty device_id) ;;
                   xemit (ArithBinaryOp DivSI q device_id minor_divisor) ;;;
                   r <- xfresh (v_ty q) ;;
                   xemit (ArithBinaryOp RemSI r q axis_size) ;;;
                   xret r
               end
           end
       end)%X
  end.

(** [_linearize_mesh_indices], on integers:
    [sum(a * b for a, b in zip(indices, mesh_strides))].  [zip] is
    [safe_zip], which raises unless the two have one length; the
    definition takes the pairs. *)
Definition _linearize_mesh_indices (indices_and_strides : list (Z * Z)) : Z :=
  fold_left (fun acc ab => acc + fst ab * snd ab) indices_and_strides 0.

(** The strides of the row-major linearization of a mesh: for every
    axis the product of the sizes of the axes after it. *)
Fixpoint row_major_strides (shape : list Z) : list Z :=
  match shape with
  | [] => []
  | _ :: rest => fold_right Z.mul 1 rest :: row_major_strides rest
  end.

Definition example_mesh : MeshContext :=
  mkMeshContext [2; 4; 8] ["data"; "model"; "core"] [32; 8; 1].


(** ** Negation and complement ([_neg_lowering_rule], lines 1815-1821;
    [_not_lowering_rule], lines 2033-2051) *)

(** The rule calls [_sub_lowering_rule] on [np.array(0, dtype)], whose
    aval is a scalar [ShapedArray] of the dtype of [x], not weakly
    typed, and on [x]. *)
Definition _neg_lowering_rule (x : operand) (x_aval : in_aval)
    (aval_out : array_aval) : X value :=
  _sub_lowering_rule (Host (NpArrayOf (PyInt 0) (in_dtype x_aval))) x
    (mkInAval [] (in_dtype x_aval) false) x_aval aval_out.

Definition _not_lowering_rule (x : operand) (out_aval : array_aval)
  : X value :=
  let out_scalar_type := _dtype_to_ir_type (aval_dtype out_aval) false in
  (minus_one <-
     match aval_shape out_aval with
     | [] =>
         (* Create a scalar constant. *)
         embed (ir_constant (Py (PyInt (-1))) (Some out_scalar_type))
     | _ =>
         (* Create a vector constant. *)
         out_type <-
           xlift (aval_to_ir_type
                    (ShapedArray (aval_shape out_aval) (aval_dtype out_aval))
                    None None false) ;;
         let scalar_minus_one :=
           IntegerAttr out_scalar_type (Py (PyInt (-1))) in
         embed (arith_constant out_type
                  (DenseSplatAttr out_type scalar_minus_one))
     end ;;
   x <- as_value x ;;
   r <- xfresh (v_ty x) ;;
   xemit (ArithXOrIOp r x minus_one) ;;;
   xret r)%X.

Definition example_i1 (name : string) : value :=
  mkValue (ArgName name) (IntegerType None 1).

(* ===================================================================== *)
(** * Part II: properties *)
(* ===================================================================== *)

Local Open Scope list_scope.

(** ** Block-spec validation *)

Lemma py_index_from_end_1_app {A} (xs : list A) (x : A) :
  py_index_from_end (xs ++ [x]) 1 = Ok x.
Proof.
  unfold py_index_from_end. rewrite rev_app_distr. reflexivity.
Qed.

Lemma mod_zero_divide (a b : Z) : b <> 0 -> a mod b = 0 -> (b | a).
Proof. intros Hb H. apply Z.mod_divide; assumption. Qed.

(** C3. A block mapping that is not exempt passes the validation only
    if its last block dimension equals the array's last dimension or is
    a multiple of 128 (for rank 1: of 128 * (32 // bit width)), and, for
    rank >= 2, its second-to-last block dimension equals the array's or
    is a multiple of 8.  Array (256, 256) with block (128, 128) passes;
    array (256, 100) with block (128, 50) raises [ValueError]. *)
Theorem block_tiling_divisibility :
  (forall forward_compat old_jaxlib bm,
      bm_exempt bm = false ->
      check_block_mapping forward_compat old_jaxlib bm = Ok tt ->
      let rank := List.length (bm_block_shape bm) in
      let unmapped_bs := map unmap_dim (bm_block_shape bm) in
      exists bs0 as0,
        py_index_from_end unmapped_bs 1 = Ok bs0 /\
        py_index_from_end (bm_array_shape bm) 1 = Ok as0 /\
        (bs0 = as0 \/
         if (rank =? 1)%nat then (128 * (32 / bm_bit_width bm) | bs0)
         else (128 | bs0)) /\
        ((2 <= rank)%nat ->
         exists bs1 as1,
           py_index_from_end unmapped_bs 2 = Ok bs1 /\
           py_index_from_end (bm_array_shape bm) 2 = Ok as1 /\
           (bs1 = as1 \/ (8 | bs1)))) /\
  (forall forward_compat old_jaxlib bit_width space trivial,
      opt_space_is space ANY && negb trivial = false ->
      check_block_mapping forward_compat old_jaxlib
        (mkBlockMapping [Blocked 128; Blocked 128] [256; 256]
           bit_width space trivial) = Ok tt) /\
  (forall forward_compat old_jaxlib bit_width space trivial,
      let bm := mkBlockMapping [Blocked 128; Blocked 50] [256; 100]
                  bit_width space trivial in
      bm_exempt bm = false ->
      exists msg,
        check_block_mapping forward_compat old_jaxlib bm
        = Raise (Exn ValueError msg)).
Proof.
  split; [| split].
  - intros fc old bm Hex Hok rank unmapped_bs.
    unfold check_block_mapping in Hok. rewrite Hex in Hok.
    fold unmapped_bs in Hok.
    assert (Hrank : Z.of_nat (List.length (bm_block_shape bm)) = Z.of_nat rank)
      by reflexivity.
    rewrite Hrank in Hok.
    destruct (fc || old) eqn:Hfo.
    + (* old rank condition: rank >= 2 *)
      destruct (Z.of_nat rank <? 2) eqn:Hr2; [discriminate |].
      cbn [rbind] in Hok.
      destruct (opt_space_is (bm_memory_space bm) ANY
                && negb (bm_has_trivial_window bm)); [discriminate |].
      cbn [rbind] in Hok.
      destruct (py_index_from_end unmapped_bs 1) as [bs0 |] eqn:Hbs0;
        [| discriminate].
      cbn [rbind] in Hok.
      destruct (py_index_from_end (bm_array_shape bm) 1) as [as0 |] eqn:Has0;
        [| discriminate].
      cbn [rbind] in Hok.
      assert (Hge : (Z.of_nat rank >=? 2) = true) by lia.
      rewrite Hge in Hok.
      destruct (py_index_from_end unmapped_bs 2) as [bs1 |] eqn:Hbs1;
        [| discriminate].
      cbn [rbind] in Hok.
      destruct (py_index_from_end (bm_array_shape bm) 2) as [as1 |] eqn:Has1;
        [| discriminate].
      cbn [rbind] in Hok.
      assert (Hr1 : (rank =? 1)%nat = false) by (apply Nat.eqb_neq; lia).
      exists bs0, as0. rewrite Hr1.
      destruct fc.
      * destruct (((bs0 mod 128 =? 0) || ((bs0 =? as0) && (as0 <? 128)))
                  && ((bs1 mod 8 =? 0) || ((bs1 =? as1) && (as1 <? 8))))
          eqn:Hev; cbn in Hok; [| discriminate].
        apply andb_prop in Hev. destruct Hev as [H0 H1].
        apply orb_prop in H0. apply orb_prop in H1.
        repeat split; auto.
        -- destruct H0 as [H0 | H0].
           ++ right. apply mod_zero_divide; lia.
           ++ left. apply andb_prop in H0. lia.
        -- intros _. exists bs1, as1. repeat split; auto.
           destruct H1 as [H1 | H1].
           ++ right. apply mod_zero_divide; lia.
           ++ left. apply andb_prop in H1. lia.
      * cbn [rbind] in Hok.
        destruct (((bs0 =? as0) || (bs0 mod 128 =? 0))
                  && ((bs1 =? as1) || (bs1 mod 8 =? 0))) eqn:Hev;
          cbn in Hok; [| discriminate].
        apply andb_prop in Hev. destruct Hev as [H0 H1].
        apply orb_prop in H0. apply orb_prop in H1.
        repeat split; auto.
        -- destruct H0 as [H0 | H0]; [left; lia |].
           right. apply mod_zero_divide; lia.
        -- intros _. exists bs1, as1. repeat split; auto.
           destruct H1 as [H1 | H1]; [left; lia |].
           right. apply mod_zero_divide; lia.
    + (* new rank condition: rank >= 1 *)
      apply orb_false_elim in Hfo. destruct Hfo as [-> ->].
      destruct (Z.of_nat rank <? 1) eqn:Hr1; [discriminate |].
      cbn [rbind] in Hok.
      destruct (opt_space_is (bm_memory_space bm) ANY
                && negb (bm_has_trivial_window bm)); [discriminate |].
      cbn [rbind] in Hok.
      destruct (py_index_from_end unmapped_bs 1) as [bs0 |] eqn:Hbs0;
        [| discriminate].
      cbn [rbind] in Hok.
      destruct (py_index_from_end (bm_array_shape bm) 1) as [as0 |] eqn:Has0;
        [| discriminate].
      cbn [rbind] in Hok.
      exists bs0, as0.
      destruct (Z.of_nat rank >=? 2) eqn:Hge.
      * destruct (py_index_from_end unmapped_bs 2) as [bs1 |] eqn:Hbs1;
          [| discriminate].
        cbn [rbind] in Hok.
        destruct (py_index_from_end (bm_array_shape bm) 2) as [as1 |] eqn:Has1;
          [| discriminate].
        cbn [rbind] in Hok.
        assert (Hr : (rank =? 1)%nat = false) by (apply Nat.eqb_neq; lia).
        rewrite Hr.
        destruct (((bs0 =? as0) || (bs0 mod 128 =? 0))
                  && ((bs1 =? as1) || (bs1 mod 8 =? 0))) eqn:Hev;
          cbn in Hok; [| discriminate].
        apply andb_prop in Hev. destruct Hev as [H0 H1].
        apply orb_prop in H0. apply orb_prop in H1.
        repeat split; auto.
        -- destruct H0 as [H0 | H0]; [left; lia |].
           right. apply mod_zero_divide; lia.
        -- intros _. exists bs1, as1. repeat split; auto.
           destruct H1 as [H1 | H1]; [left; lia |].
           right. apply mod_zero_divide; lia.
      * cbn [rbind] in Hok.
        assert (Hr : (rank =? 1)%nat = true) by (apply Nat.eqb_eq; lia).
        rewrite Hr.
        assert (Hz : (Z.of_nat rank =? 1) = true) by lia.
        rewrite Hz in Hok. cbn [rbind] in Hok.
        repeat split; auto; [| intros; apply Nat.eqb_eq in Hr; lia].
        unfold py_floordiv in Hok.
        destruct (bm_bit_width bm =? 0) eqn:Hbw; [discriminate |].
        cbn [rbind] in Hok.
        destruct (bs0 =? as0) eqn:Heq; [left; lia |].
        right. unfold py_mod in Hok.
        destruct (128 * (32 / bm_bit_width bm) =? 0) eqn:Ht; [discriminate |].
        cbn [rbind] in Hok.
        destruct (bs0 mod (128 * (32 / bm_bit_width bm)) =? 0) eqn:Hm;
          cbn in Hok; [| discriminate].
        apply mod_zero_divide; lia.
  - intros fc old bw space trivial Hany.
    unfold check_block_mapping, bm_exempt. cbn -[Z.modulo Z.div].
    rewrite Hany.
    destruct (opt_space_is space SMEM && trivial); [reflexivity |].
    destruct fc, old; reflexivity.
  - intros fc old bw space trivial bm Hex.
    unfold check_block_mapping. rewrite Hex. subst bm. cbn.
    destruct (opt_space_is space ANY && negb trivial).
    + destruct (fc || old); cbn; eexists; reflexivity.
    + destruct fc, old; cbn; eexists; reflexivity.
Qed.

Lemma block_tiling_divisibility_witness :
  exists bs0 as0,
    py_index_from_end [8; 384] 1 = Ok bs0 /\
    py_index_from_end [16; 1024] 1 = Ok as0 /\
    (bs0 = as0 \/ (128 | bs0)) /\
    ((2 <= 2)%nat ->
     exists bs1 as1,
       py_index_from_end [8; 384] 2 = Ok bs1 /\
       py_index_from_end [16; 1024] 2 = Ok as1 /\
       (bs1 = as1 \/ (8 | bs1))).
Proof.
  exact (proj1 block_tiling_divisibility false false
           (mkBlockMapping [Blocked 8; Blocked 384] [16; 1024] 32
              (Some VMEM) false)
           eq_refl eq_refl).
Defined.

(** ** Constant materializer *)

(** C9, as the claim states it, fails: an unsigned 32-bit array is
    outside the claimed set of element types and is materialized as an
    integer constant. *)
Lemma ir_constant_accepts_uint32 :
  dtype_in UInt32 [Int8; Int32; Float32; BFloat16; Bool_] = false /\
  ir_constant (NpValue NpNdarray UInt32 [7]) None (mkBuilder 0 [])
  = Ok (mkValue (ResId 0) (IntegerType None 32),
        mkBuilder 1
          [ArithConstantOp (mkValue (ResId 0) (IntegerType None 32))
             (IntegerAttr (IntegerType None 32)
                (NpValue NpNdarray UInt32 [7]))]).
Proof. split; reflexivity. Qed.

Lemma fits_int32_spec n :
  fits_int32 n = true <-> - 2 ^ 31 <= n < 2 ^ 31.
Proof.
  unfold fits_int32. change (2 ^ 31) with 2147483648.
  rewrite andb_true_iff, !Z.leb_le. lia.
Qed.

Lemma ir_constant_int n ty b :
  fits_int32 n = true ->
  ir_constant (Py (PyInt n)) (Some ty) b
  = Ok (mkValue (ResId (next_id b)) ty,
        mkBuilder (S (next_id b))
          (emitted b
           ++ [ArithConstantOp (mkValue (ResId (next_id b)) ty)
                 (IntegerAttr ty (NpArrayOf (PyInt n) Int32))])).
Proof.
  intros H. unfold ir_constant. cbn [has_dtype negb]. rewrite H. reflexivity.
Qed.

Lemma ir_constant_int_ok n ty b v b' :
  ir_constant (Py (PyInt n)) (Some ty) b = Ok (v, b') ->
  fits_int32 n = true
  /\ v = mkValue (ResId (next_id b)) ty
  /\ b' = mkBuilder (S (next_id b))
            (emitted b
             ++ [ArithConstantOp (mkValue (ResId (next_id b)) ty)
                   (IntegerAttr ty (NpArrayOf (PyInt n) Int32))]).
Proof.
  intros H. destruct (fits_int32 n) eqn:E.
  - rewrite (ir_constant_int n ty b E) in H. injection H as <- <-. auto.
  - unfold ir_constant in H. cbn [has_dtype negb] in H. rewrite E in H.
    discriminate H.
Qed.

Lemma ir_constant_int_default n b :
  fits_int32 n = true ->
  ir_constant (Py (PyInt n)) None b
  = Ok (mkValue (ResId (next_id b)) i32,
        mkBuilder (S (next_id b))
          (emitted b
           ++ [ArithConstantOp (mkValue (ResId (next_id b)) i32)
                 (IntegerAttr i32 (NpArrayOf (PyInt n) Int32))])).
Proof.
  intros H. unfold ir_constant. cbn [has_dtype negb]. rewrite H. reflexivity.
Qed.

Lemma py_range2_fits start stop :
  - 2 ^ 31 <= start -> stop <= 2 ^ 31 ->
  Forall (fun i => fits_int32 i = true) (py_range2 start stop).
Proof.
  intros Hlo Hhi. unfold py_range2. apply Forall_forall. intros i Hi.
  apply in_map_iff in Hi. destruct Hi as (k & <- & Hk).
  apply in_seq in Hk. apply fits_int32_spec. lia.
Qed.

(** C9 (amended). A Python integer that fits in 32 bits, with no
    requested type, becomes a constant of the 32-bit integer type; one
    that does not fit raises [OverflowError], whatever type is
    requested.  A Python float with no requested type becomes a
    constant of the 32-bit float type.  An input carrying a dtype, not
    itself a Python float, whose element type is outside int8, int32,
    uint32, float32, bfloat16 and bool raises [NotImplementedError],
    with or without a requested type. *)
Theorem ir_constant_types :
  (forall n b,
      - 2 ^ 31 <= n < 2 ^ 31 ->
      let r := mkValue (ResId (next_id b)) (IntegerType None 32) in
      ir_constant (Py (PyInt n)) None b
      = Ok (r, mkBuilder (S (next_id b))
                 (emitted b ++
                  [ArithConstantOp r
                     (IntegerAttr (IntegerType None 32)
                        (NpArrayOf (PyInt n) Int32))]))) /\
  (forall n mlir_type b,
      ~ (- 2 ^ 31 <= n < 2 ^ 31) ->
      ir_constant (Py (PyInt n)) mlir_type b
      = Raise (Exn OverflowError "Python integer out of bounds for int32")) /\
  (forall f b,
      let r := mkValue (ResId (next_id b)) F32Type in
      ir_constant (Py (PyFloat f)) None b
      = Ok (r, mkBuilder (S (next_id b))
                 (emitted b ++
                  [ArithConstantOp r
                     (FloatAttr F32Type (NpArrayOf (PyFloat f) Float32))]))) /\
  (forall x d mlir_type b,
      get_dtype x = Ok d ->
      isinstance_float x = false ->
      dtype_in d [Int8; Int32; UInt32; Float32; BFloat16; Bool_] = false ->
      ir_constant x mlir_type b = Raise (Exn NotImplementedError "")).
Proof.
  split; [| split; [| split]].
  - intros n b Hn r. apply fits_int32_spec in Hn.
    unfold ir_constant. cbn [has_dtype negb]. rewrite Hn. reflexivity.
  - intros n ty b Hn.
    assert (E : fits_int32 n = false).
    { destruct (fits_int32 n) eqn:E; [| reflexivity].
      apply fits_int32_spec in E. contradiction. }
    unfold ir_constant. cbn [has_dtype negb]. rewrite E. reflexivity.
  - intros f b. reflexivity.
  - intros x d ty b Hd Hf Hout.
    destruct x as [s | | s dt | k dt data]; try discriminate;
      cbn in Hd; injection Hd as ->;
      destruct d; try discriminate Hout;
      destruct ty; try reflexivity;
      try (destruct k; try reflexivity; discriminate Hf).
Qed.

Lemma ir_constant_types_witness :
  ir_constant (Py (PyInt 7)) None (mkBuilder 0 [])
  = Ok (mkValue (ResId 0) (IntegerType None 32),
        mkBuilder 1
          [ArithConstantOp (mkValue (ResId 0) (IntegerType None 32))
             (IntegerAttr (IntegerType None 32) (NpArrayOf (PyInt 7) Int32))])
  /\ ir_constant (Py (PyInt 2147483648)) None (mkBuilder 0 [])
     = Raise (Exn OverflowError "Python integer out of bounds for int32")
  /\ ir_constant (NpValue NpNdarray Int64 [1]) None (mkBuilder 0 [])
     = Raise (Exn NotImplementedError "").
Proof.
  split; [| split].
  - apply (proj1 ir_constant_types 7 (mkBuilder 0 [])). cbn. lia.
  - apply (proj1 (proj2 ir_constant_types) 2147483648 None (mkBuilder 0 [])).
    cbn. lia.
  - exact (proj2 (proj2 (proj2 ir_constant_types))
             (NpValue NpNdarray Int64 [1]) Int64 None (mkBuilder 0 [])
             eq_refl eq_refl eq_refl).
Defined.

(** ** Grid mapping: dimension semantics *)

Lemma interleave_semantics_spec (mapped_dims : list Z) :
  forall indices semantics_iter r,
    interleave_semantics indices mapped_dims semantics_iter = Ok r ->
    List.length r = List.length indices /\
    forall k i,
      nth_error indices k = Some i ->
      (in_dims i mapped_dims = true ->
       nth_error r k = Some (Some "parallel")) /\
      (in_dims i mapped_dims = false ->
       exists s, nth_error r k = Some s /\ In s semantics_iter).
Proof.
  intros idxs.
  induction idxs as [| i rest IH]; intros it r H; cbn in H.
  - injection H as <-. split; [reflexivity |].
    intros [| k] j Hk; discriminate.
  - destruct (in_dims i mapped_dims) eqn:Hi; cbn in H.
    + destruct (interleave_semantics rest mapped_dims it) as [r' |] eqn:Hr;
        [| discriminate].
      cbn in H. injection H as <-.
      destruct (IH _ _ Hr) as [Hlen Hnth].
      split; [cbn; congruence |].
      intros [| k] j Hk; cbn in Hk.
      * injection Hk as <-. split; [reflexivity | congruence].
      * cbn. exact (Hnth k j Hk).
    + destruct it as [| s it']; [discriminate |].
      destruct (interleave_semantics rest mapped_dims it') as [r' |] eqn:Hr;
        [| discriminate].
      cbn in H. injection H as <-.
      destruct (IH _ _ Hr) as [Hlen Hnth].
      split; [cbn; congruence |].
      intros [| k] j Hk; cbn in Hk.
      * injection Hk as <-. split; [congruence |].
        intros _. exists s. split; [reflexivity | left; reflexivity].
      * cbn. destruct (Hnth k j Hk) as [Hp Hu]. split; [exact Hp |].
        intros Hj. destruct (Hu Hj) as [s' [Hs' Hin]].
        exists s'. split; [exact Hs' | right; exact Hin].
Qed.

Lemma nth_error_py_range (n k : nat) :
  (k < n)%nat -> nth_error (py_range n) k = Some (Z.of_nat k).
Proof.
  intros H. unfold py_range. rewrite nth_error_map.
  rewrite nth_error_seq.
  apply Nat.ltb_lt in H. rewrite H. reflexivity.
Qed.

(** C10. In every grid mapping that is constructed, each vmapped grid
    dimension gets the attribute "parallel" whatever the user supplied;
    with no user semantics every other dimension gets "arbitrary"; and
    a user tuple whose length differs from the number of non-vmapped
    grid dimensions makes the constructor raise [ValueError]. *)
Theorem dimension_semantics_assignment :
  (forall grid mapped_dims dimension_semantics sem,
      MosaicGridMapping_init grid mapped_dims dimension_semantics = Ok sem ->
      List.length (get_dimension_semantics sem) = List.length grid /\
      forall i,
        (i < List.length grid)%nat ->
        (in_dims (Z.of_nat i) mapped_dims = true ->
         nth_error (get_dimension_semantics sem) i
         = Some "#tpu.dimension_semantics<parallel>") /\
        (dimension_semantics = None ->
         in_dims (Z.of_nat i) mapped_dims = false ->
         nth_error (get_dimension_semantics sem) i
         = Some "#tpu.dimension_semantics<arbitrary>")) /\
  (forall grid mapped_dims user_semantics,
      List.length user_semantics
      <> List.length (user_grid grid mapped_dims) ->
      MosaicGridMapping_init grid mapped_dims (Some user_semantics)
      = Raise (Exn ValueError
                 "Must have dimension semantics for each dimension of the grid.")).
Proof.
  split.
  - intros grid mapped ds sem H. unfold MosaicGridMapping_init in H.
    set (ds' := match ds with
                | None => repeat (Some "arbitrary")
                            (List.length (user_grid grid mapped))
                | Some l => l
                end) in *.
    destruct (negb (List.length (user_grid grid mapped)
                    =? List.length ds')%nat); [discriminate |].
    destruct (negb (List.length mapped + List.length ds'
                    =? List.length grid)%nat); [discriminate |].
    destruct (interleave_semantics_spec _ _ _ _ H) as [Hlen Hnth].
    unfold get_dimension_semantics. rewrite length_map.
    split.
    + rewrite Hlen. unfold py_range. rewrite length_map, length_seq.
      reflexivity.
    + intros i Hi.
      destruct (Hnth i (Z.of_nat i) (nth_error_py_range _ _ Hi)) as [Hp Hu].
      split.
      * intros Hm. rewrite nth_error_map, (Hp Hm). reflexivity.
      * intros -> Hm. destruct (Hu Hm) as [s [Hs Hin]].
        subst ds'. apply repeat_spec in Hin. subst s.
        rewrite nth_error_map, Hs. reflexivity.
  - intros grid mapped l Hlen. unfold MosaicGridMapping_init.
    destruct (List.length (user_grid grid mapped) =? List.length l)%nat
      eqn:He.
    + apply Nat.eqb_eq in He. congruence.
    + reflexivity.
Qed.

Lemma dimension_semantics_assignment_witness :
  nth_error
    (get_dimension_semantics
       [Some "arbitrary"; Some "parallel"; Some "arbitrary"]) 1
  = Some "#tpu.dimension_semantics<parallel>".
Proof.
  exact (proj1
           (proj2
              (proj1 dimension_semantics_assignment
                 [GridSize 4; GridSize 8; GridSize 2] [1] None
                 [Some "arbitrary"; Some "parallel"; Some "arbitrary"]
                 eq_refl)
              1%nat (le_S 2 2 (le_n 2)))
           eq_refl).
Defined.

(** ** The builder monad *)

Lemma bind_ok {A B} (m : M A) (k : A -> M B) b r :
  bind m k b = Ok r -> exists a b1, m b = Ok (a, b1) /\ k a b1 = Ok r.
Proof.
  unfold bind. destruct (m b) as [[a b1] | e]; [| discriminate].
  intros H. exists a, b1. split; [reflexivity | exact H].
Qed.

Lemma bind_raise {A B} (m : M A) (k : A -> M B) b e :
  bind m k b = Raise e ->
  m b = Raise e \/ exists a b1, m b = Ok (a, b1) /\ k a b1 = Raise e.
Proof.
  unfold bind. destruct (m b) as [[a b1] | e']; intros H.
  - right. exists a, b1. split; [reflexivity | exact H].
  - left. injection H as ->. reflexivity.
Qed.

Lemma bind_eq_ok {A B} (m : M A) (k : A -> M B) b a b1 :
  m b = Ok (a, b1) -> bind m k b = k a b1.
Proof. intros H. unfold bind. rewrite H. reflexivity. Qed.

Lemma bind_eq_raise {A B} (m : M A) (k : A -> M B) b e :
  m b = Raise e -> bind m k b = Raise e.
Proof. intros H. unfold bind. rewrite H. reflexivity. Qed.

Lemma appends_ret {A} (a : A) : appends (ret a) (fun a' ops => a' = a /\ ops = []).
Proof.
  intros b a' b' H. injection H as <- <-. exists [].
  rewrite app_nil_r. auto.
Qed.

Lemma appends_emit (o : op) : appends (emit o) (fun _ ops => ops = [o]).
Proof.
  intros b a b' H. injection H as <- <-. exists [o]. auto.
Qed.

Lemma appends_bind {A B} (m : M A) (k : A -> M B) P Q :
  appends m P ->
  (forall a, appends (k a) (Q a)) ->
  appends (bind m k)
    (fun c ops => exists a o1 o2, ops = o1 ++ o2 /\ P a o1 /\ Q a c o2).
Proof.
  intros Hm Hk b c b' H.
  apply bind_ok in H. destruct H as (a & b1 & H1 & H2).
  destruct (Hm _ _ _ H1) as (o1 & E1 & HP).
  destruct (Hk a _ _ _ H2) as (o2 & E2 & HQ).
  exists (o1 ++ o2). split.
  - rewrite E2, E1, app_assoc. reflexivity.
  - exists a, o1, o2. auto.
Qed.

Lemma appends_weaken {A} (m : M A) (P Q : A -> list op -> Prop) :
  appends m P -> (forall a ops, P a ops -> Q a ops) -> appends m Q.
Proof.
  intros Hm HPQ b a b' H. destruct (Hm _ _ _ H) as (ops & E & HP).
  exists ops. auto.
Qed.

Lemma arith_constant_run ty a b :
  arith_constant ty a b
  = Ok (mkValue (ResId (next_id b)) ty,
        mkBuilder (S (next_id b))
          (emitted b ++ [ArithConstantOp (mkValue (ResId (next_id b)) ty) a])).
Proof. reflexivity. Qed.

Lemma ir_constant_appends x ty :
  appends (ir_constant x ty) (fun v ops => exists a, ops = [ArithConstantOp v a]).
Proof.
  intros b v b' H. unfold ir_constant in H.
  destruct x as [[n | bb | f] | | s dt | k dt data]; destruct ty as [t |];
    cbn in H; try (destruct (fits_int32 n); cbn in H); try discriminate;
    try (destruct dt; cbn in H; try discriminate);
    try (destruct k; cbn in H; try discriminate);
    injection H as <- <-; eexists; split; cbn; try reflexivity;
    eexists; reflexivity.
Qed.

(** ** Scope markers *)

Lemma scope_depth_app ops1 ops2 d :
  scope_depth (ops1 ++ ops2) d
  = match scope_depth ops1 d with
    | Some d' => scope_depth ops2 d'
    | None => None
    end.
Proof.
  revert d. induction ops1 as [| o r IH]; intros d; cbn; [reflexivity |].
  destruct o; try apply IH. destruct d; [reflexivity | apply IH].
Qed.

Lemma scope_depth_shift ops :
  forall d d', scope_depth ops d = Some d' ->
               forall k, scope_depth ops (d + k) = Some (d' + k)%nat.
Proof.
  induction ops as [| o r IH]; intros d d' H k; cbn in *.
  - injection H as <-. reflexivity.
  - destruct o; try (apply IH; exact H).
    + apply (IH (S d)). exact H.
    + destruct d; [discriminate |]. cbn. apply IH. exact H.
Qed.

Lemma scope_depth_counts ops :
  forall d d', scope_depth ops d = Some d' ->
               (d + count_trace_starts ops = d' + count_trace_stops ops)%nat.
Proof.
  unfold count_trace_starts, count_trace_stops.
  induction ops as [| o r IH]; intros d d' H; cbn in *.
  - injection H as <-. reflexivity.
  - destruct o; cbn; try (apply IH; exact H).
    + specialize (IH _ _ H). lia.
    + destruct d; [discriminate |]. specialize (IH _ _ H). lia.
Qed.

Lemma scope_depth_stops n d :
  scope_depth (repeat TpuTraceStopOp n) (n + d) = Some d.
Proof. induction n as [| n IH]; cbn; [reflexivity | exact IH]. Qed.

Lemma scope_depth_starts names d :
  scope_depth (map (fun name => TpuTraceStartOp name 10) names) d
  = Some (List.length names + d)%nat.
Proof.
  revert d. induction names as [| x r IH]; intros d; cbn; [reflexivity |].
  rewrite IH. f_equal. lia.
Qed.

Lemma scope_neutral_nil : scope_neutral [].
Proof. intros d. reflexivity. Qed.

Lemma scope_neutral_app a b :
  scope_neutral a -> scope_neutral b -> scope_neutral (a ++ b).
Proof. intros Ha Hb d. rewrite scope_depth_app, Ha. apply Hb. Qed.

Lemma scope_neutral_constant v a : scope_neutral [ArithConstantOp v a].
Proof. intros d. reflexivity. Qed.

Lemma scope_neutral_generic name : scope_neutral [GenericOp name].
Proof. intros d. reflexivity. Qed.

Lemma emit_trace_stops_run popped b :
  emit_trace_stops popped b
  = Ok (tt, mkBuilder (next_id b)
              (emitted b ++ repeat TpuTraceStopOp (List.length popped))).
Proof.
  revert b. induction popped as [| x r IH]; intros [n ops]; cbn.
  - rewrite app_nil_r. reflexivity.
  - unfold bind, emit. cbn. rewrite IH. cbn.
    rewrite <- app_assoc. reflexivity.
Qed.

Lemma emit_trace_starts_run pushed b :
  emit_trace_starts pushed b
  = Ok (tt, mkBuilder (next_id b)
              (emitted b ++ map (fun name => TpuTraceStartOp name 10) pushed)).
Proof.
  revert b. induction pushed as [| x r IH]; intros [n ops]; cbn.
  - rewrite app_nil_r. reflexivity.
  - unfold bind, emit. cbn. rewrite IH. cbn.
    rewrite <- app_assoc. reflexivity.
Qed.

(** ** Name-stack updates *)

Lemma common_prefix_loop_shift old :
  forall new i,
    common_prefix_loop i i old new = (i + common_prefix_loop 0 0 old new)%nat.
Proof.
  induction old as [| o os IH]; intros new i; cbn.
  - lia.
  - destruct new as [| n ns]; [lia |].
    destruct (String.eqb o n).
    + rewrite (IH ns (S i)), (IH ns 1%nat). lia.
    + lia.
Qed.

Lemma name_stack_updates_common old :
  forall new popped pushed,
    _compute_name_stack_updates old new = (popped, pushed) ->
    exists common, old = common ++ popped /\ new = common ++ pushed.
Proof.
  unfold _compute_name_stack_updates.
  induction old as [| o os IH]; intros new popped pushed H.
  - cbn in H. injection H as <- <-. exists []. auto.
  - destruct new as [| n ns].
    + cbn in H. injection H as <- <-. exists []. auto.
    + cbn in H. destruct (String.eqb_spec o n) as [-> | Hne].
      * rewrite (common_prefix_loop_shift os ns 1) in H. cbn in H.
        destruct (IH ns popped pushed H) as (c & E1 & E2).
        exists (n :: c). cbn. rewrite <- E1, <- E2. auto.
      * cbn in H. injection H as <- <-. exists []. auto.
Qed.

Lemma name_stack_updates_prefix p :
  forall old new,
    _compute_name_stack_updates (p ++ old) (p ++ new)
    = _compute_name_stack_updates old new.
Proof.
  unfold _compute_name_stack_updates.
  induction p as [| x r IH]; intros old new; cbn; [reflexivity |].
  rewrite String.eqb_refl.
  rewrite (common_prefix_loop_shift (r ++ old) (r ++ new) 1). cbn.
  apply IH.
Qed.

Lemma name_stack_updates_drain ctx ns :
  _compute_name_stack_updates (name_stack_add ctx ns) ctx = (ns, []).
Proof.
  unfold name_stack_add.
  rewrite <- (app_nil_r ctx) at 2.
  rewrite name_stack_updates_prefix.
  unfold _compute_name_stack_updates. destruct ns; reflexivity.
Qed.

(** ** The dispatcher: structural induction on nested jaxprs *)

Section JaxprInduction.
Variable P : jaxpr -> Prop.
Variable Q : eqn -> Prop.
Hypothesis P_Jaxpr : forall eqns, Forall Q eqns -> P (Jaxpr eqns).
Hypothesis Q_Eqn :
  forall primitive invals name_stack params subjaxprs,
    Forall P subjaxprs ->
    Q (Eqn primitive invals name_stack params subjaxprs).

Fixpoint jaxpr_nested_ind (j : jaxpr) : P j :=
  match j with
  | Jaxpr eqns =>
      P_Jaxpr eqns
        ((fix all (l : list eqn) : Forall Q l :=
            match l with
            | [] => Forall_nil Q
            | e :: r => Forall_cons e (eqn_nested_ind e) (all r)
            end) eqns)
  end
with eqn_nested_ind (e : eqn) : Q e :=
  match e with
  | Eqn primitive invals name_stack params subjaxprs =>
      Q_Eqn primitive invals name_stack params subjaxprs
        ((fix all (l : list jaxpr) : Forall P l :=
            match l with
            | [] => Forall_nil P
            | j :: r => Forall_cons j (jaxpr_nested_ind j) (all r)
            end) subjaxprs)
  end.
End JaxprInduction.

Lemma jaxpr_subcomp_unfold t ctx eqns :
  jaxpr_subcomp t ctx (Jaxpr eqns)
  = bind (lower_eqns t ctx ctx eqns)
      (fun current_name_stack => drain_name_stack current_name_stack ctx).
Proof. reflexivity. Qed.

Lemma lower_eqns_cons t ctx cur e rest :
  lower_eqns t ctx cur (e :: rest)
  = bind (lower_eqn t ctx cur e) (fun cur' => lower_eqns t ctx cur' rest).
Proof. reflexivity. Qed.

Lemma materialize_invals_appends t primitive invals :
  appends (materialize_invals t primitive invals) (fun _ => scope_neutral).
Proof.
  unfold materialize_invals.
  destruct (skip_mlir_conversions t primitive).
  - eapply appends_weaken; [apply appends_ret |].
    intros a ops [_ ->]. apply scope_neutral_nil.
  - assert (Hmap : appends
                     (mapM (fun xv => _ensure_mlir_value (fst xv) (snd xv)) invals)
                     (fun _ => scope_neutral)).
    { induction invals as [| [x d] r IH]; cbn [mapM].
      - eapply appends_weaken; [apply appends_ret |].
        intros a ops [_ ->]. apply scope_neutral_nil.
      - eapply appends_weaken.
        + apply appends_bind with (P := fun _ => scope_neutral).
          * cbn [fst snd]. destruct x as [h | v]; cbn [_ensure_mlir_value].
            -- destruct h;
                 try (eapply appends_weaken; [apply ir_constant_appends |];
                      intros a ops [at_ ->]; apply scope_neutral_constant).
               intros b a b' H. discriminate.
            -- eapply appends_weaken; [apply appends_ret |].
               intros a ops [_ ->]. apply scope_neutral_nil.
          * intros y. apply appends_bind with (P := fun _ => scope_neutral).
            -- exact IH.
            -- intros ys. apply appends_ret.
        + cbn. intros a ops (y & o1 & o2 & -> & H1 & ys & o3 & o4 & -> & H3 & _ & ->).
          rewrite app_nil_r. apply scope_neutral_app; assumption. }
    eapply appends_weaken.
    + apply appends_bind; [exact Hmap |]. intros a. apply appends_ret.
    + cbn. intros a ops (y & o1 & o2 & -> & H1 & _ & ->).
      rewrite app_nil_r. exact H1.
Qed.

Lemma run_rule_appends steps :
  forall sub,
    Forall (fun call => appends call (fun _ => scope_neutral)) sub ->
    appends (run_rule steps sub) (fun _ => scope_neutral).
Proof.
  induction steps as [| s rest IH]; intros sub Hsub; cbn [run_rule].
  - eapply appends_weaken; [apply appends_ret |].
    intros a ops [_ ->]. apply scope_neutral_nil.
  - destruct s as [name | k | cls msg].
    + eapply appends_weaken.
      * apply appends_bind; [apply appends_emit |].
        intros a. apply (IH sub Hsub).
      * cbn. intros a ops (y & o1 & o2 & -> & -> & H2).
        apply scope_neutral_app; [apply scope_neutral_generic | exact H2].
    + destruct (nth_error sub k) as [call |] eqn:Hk.
      * eapply appends_weaken.
        -- apply appends_bind with (P := fun _ => scope_neutral).
           ++ rewrite Forall_forall in Hsub. apply Hsub.
              eapply nth_error_In. exact Hk.
           ++ intros a. apply (IH sub Hsub).
        -- cbn. intros a ops (y & o1 & o2 & -> & H1 & H2).
           apply scope_neutral_app; assumption.
      * intros b a b' H. discriminate.
    + intros b a b' H. discriminate.
Qed.

Lemma try_rule_appends {A} eqn_text (body : M A) P :
  appends body P -> appends (try_rule eqn_text body) P.
Proof.
  intros Hb b a b' H. unfold try_rule in H.
  destruct (body b) as [[a0 b0] | e] eqn:E; [| discriminate].
  injection H as <- <-. exact (Hb _ _ _ E).
Qed.

Lemma lower_eqns_scopes eqns :
  Forall eqn_scopes eqns ->
  forall t ctx X b cur' b',
    lower_eqns t ctx (ctx ++ X) eqns b = Ok (cur', b') ->
    exists Y ops,
      cur' = ctx ++ Y /\ emitted b' = emitted b ++ ops /\
      forall d, scope_depth ops (List.length X + d)
                = Some (List.length Y + d)%nat.
Proof.
  induction 1 as [| e rest He _ IH]; intros t ctx X b cur' b' H.
  - injection H as <- <-. exists X, []. rewrite app_nil_r. auto.
  - rewrite lower_eqns_cons in H. apply bind_ok in H.
    destruct H as (cur1 & b1 & H1 & H2).
    destruct (He _ _ _ _ _ _ H1) as (Y1 & ops1 & -> & E1 & D1).
    destruct (IH _ _ _ _ _ _ H2) as (Y2 & ops2 & -> & E2 & D2).
    exists Y2, (ops1 ++ ops2). split; [reflexivity |]. split.
    + rewrite E2, E1, app_assoc. reflexivity.
    + intros d. rewrite scope_depth_app, D1. apply D2.
Qed.

Lemma dispatcher_scopes : forall j, jaxpr_scopes j.
Proof.
  apply (jaxpr_nested_ind jaxpr_scopes eqn_scopes).
  - (* a jaxpr: its equations, then the drain *)
    intros eqns Heqns t ctx b a b' H.
    rewrite jaxpr_subcomp_unfold in H. apply bind_ok in H.
    destruct H as (cur & b1 & H1 & H2).
    rewrite <- (app_nil_r ctx) in H1 at 2.
    destruct (lower_eqns_scopes eqns Heqns _ _ _ _ _ _ H1)
      as (Y & ops & -> & E1 & D1).
    unfold drain_name_stack in H2.
    change (ctx ++ Y) with (name_stack_add ctx Y) in H2.
    rewrite name_stack_updates_drain in H2.
    apply bind_ok in H2. destruct H2 as ([] & b2 & H2 & H3).
    rewrite emit_trace_stops_run in H2. injection H2 as <-.
    cbn in H3. injection H3 as <- <-. cbn [emitted].
    exists (ops ++ repeat TpuTraceStopOp (List.length Y)). split.
    + rewrite E1, app_assoc. reflexivity.
    + intros d. rewrite scope_depth_app.
      specialize (D1 d). cbn [List.length] in D1. cbn in D1. rewrite D1.
      apply scope_depth_stops.
  - (* an equation *)
    intros primitive invals ns params sub Hsub t ctx X b cur' b' H.
    cbn [lower_eqn] in H.
    destruct (lowering_rules t primitive) as [rule |]; [| discriminate].
    apply bind_ok in H. destruct H as ([] & b1 & H1 & H).
    rewrite name_stack_updates_prefix in H.
    destruct (_compute_name_stack_updates X ns) as [popped pushed] eqn:Hupd.
    apply name_stack_updates_common in Hupd.
    destruct Hupd as (common & -> & ->).
    apply bind_ok in H. destruct H as ([] & b2 & H2 & H).
    apply bind_ok in H. destruct H as ([] & b3 & H3 & H).
    apply bind_ok in H. destruct H as ([] & b4 & H4 & H).
    injection H as <- <-.
    destruct (materialize_invals_appends _ _ _ _ _ _ H1) as (o1 & E1 & N1).
    rewrite emit_trace_stops_run in H2. injection H2 as <-.
    rewrite emit_trace_starts_run in H3. injection H3 as <-.
    assert (Hrule : appends
                      (try_rule primitive
                         (run_rule (rule params)
                            (map (jaxpr_subcomp t ctx) sub)))
                      (fun _ => scope_neutral)).
    { apply try_rule_appends, run_rule_appends.
      rewrite Forall_map. eapply Forall_impl; [| exact Hsub].
      intros j Hj. apply Hj. }
    destruct (Hrule _ _ _ H4) as (o4 & E4 & N4). cbn [emitted] in E4.
    exists (common ++ pushed),
      (o1 ++ repeat TpuTraceStopOp (List.length popped)
          ++ map (fun name => TpuTraceStartOp name 10) pushed ++ o4).
    split; [reflexivity |]. split.
    + rewrite E4, E1. rewrite <- !app_assoc. reflexivity.
    + intros d. rewrite scope_depth_app, N1.
      rewrite scope_depth_app.
      rewrite !length_app.
      replace (List.length common + List.length popped + d)%nat
        with (List.length popped + (List.length common + d))%nat by lia.
      rewrite scope_depth_stops.
      rewrite scope_depth_app, scope_depth_starts, N4.
      f_equal. lia.
Qed.

(** C2. For every jaxpr that [jaxpr_subcomp] lowers, the operations it
    appends hold as many trace-stop as trace-start markers, and the
    scope stack is back at the depth it had on entry, whatever that
    depth was; the drain at the end pops exactly the scopes still open
    above the entry stack and pushes none. *)
Theorem scope_markers_balanced :
  forall t ctx_name_stack j b b',
    jaxpr_subcomp t ctx_name_stack j b = Ok (tt, b') ->
    exists ops,
      emitted b' = emitted b ++ ops /\
      count_trace_stops ops = count_trace_starts ops /\
      (forall depth, scope_depth ops depth = Some depth) /\
      (forall open_scopes,
          _compute_name_stack_updates
            (name_stack_add ctx_name_stack open_scopes) ctx_name_stack
          = (open_scopes, [])).
Proof.
  intros t ctx j b b' H.
  destruct (dispatcher_scopes j t ctx _ _ _ H) as (ops & E & N).
  exists ops. split; [exact E |]. split; [| split].
  - pose proof (scope_depth_counts ops 0 0 (N 0%nat)). lia.
  - exact N.
  - intros open_scopes. apply name_stack_updates_drain.
Qed.


Lemma scope_markers_balanced_witness :
  exists ops,
    emitted example_lowered = [] ++ ops /\
    count_trace_stops ops = count_trace_starts ops /\
    (forall depth, scope_depth ops depth = Some depth) /\
    (forall open_scopes,
        _compute_name_stack_updates (name_stack_add [] open_scopes) []
        = (open_scopes, [])).
Proof.
  exact (scope_markers_balanced example_tables [] example_jaxpr
           (mkBuilder 0 []) example_lowered eq_refl).
Defined.

(** ** The dispatcher: exceptions *)

Lemma wrapped_at_most_once_layers e :
  wrapped_at_most_once e = true -> (lowering_layers e <= 1)%nat.
Proof.
  destruct e as [c m | c m [c' m' | c' m' e']]; cbn; intros H.
  - unfold is_lowering_exception. cbn. destruct (exn_class_eqb c _); lia.
  - apply andb_prop in H. destruct H as [H1 H2].
    unfold is_lowering_exception. cbn.
    apply negb_true_iff in H2. rewrite H1, H2. lia.
  - discriminate.
Qed.

Lemma on_rule_exception_wrapped eqn_text e :
  wrapped_at_most_once e = true ->
  wrapped_at_most_once (on_rule_exception eqn_text e) = true.
Proof.
  unfold on_rule_exception, is_lowering_exception.
  destruct e as [c m | c m [c' m' | c' m' e']]; cbn; intros H.
  - destruct (exn_class_eqb c LoweringException) eqn:E; cbn.
    + reflexivity.
    + rewrite E. reflexivity.
  - apply andb_prop in H. destruct H as [H1 H2]. rewrite H1. cbn.
    rewrite H1, H2. reflexivity.
  - discriminate.
Qed.

Lemma raises_only_bind {A B} (m : M A) (k : A -> M B) P :
  raises_only m P -> (forall a, raises_only (k a) P) ->
  raises_only (bind m k) P.
Proof.
  intros Hm Hk b e H. apply bind_raise in H.
  destruct H as [H | (a & b1 & _ & H)]; [exact (Hm _ _ H) | exact (Hk _ _ _ H)].
Qed.

Lemma raises_only_ret {A} (a : A) P : raises_only (ret a) P.
Proof. intros b e H. discriminate. Qed.

Lemma raises_only_emit o P : raises_only (emit o) P.
Proof. intros b e H. discriminate. Qed.

Lemma raises_only_throw {A} cls msg (P : exn -> Prop) :
  P (Exn cls msg) -> raises_only (@throw A cls msg) P.
Proof. intros HP b e H. injection H as <-. exact HP. Qed.

Lemma raises_only_arith_constant ty a P : raises_only (arith_constant ty a) P.
Proof. intros b e H. discriminate. Qed.

Lemma ir_constant_raises x ty :
  raises_only (ir_constant x ty) (fun e => wrapped_at_most_once e = true).
Proof.
  intros b e H. unfold ir_constant in H.
  destruct x as [[n | bb | f] | | s dt | k dt data]; destruct ty as [t |];
    cbn in H; try (destruct (fits_int32 n); cbn in H); try discriminate;
    try (injection H as <-; reflexivity);
    try (destruct dt; cbn in H; try discriminate;
         try (injection H as <-; reflexivity));
    try (destruct k; cbn in H; try discriminate;
         try (injection H as <-; reflexivity)).
Qed.

Lemma materialize_invals_raises t primitive invals :
  raises_only (materialize_invals t primitive invals)
    (fun e => wrapped_at_most_once e = true).
Proof.
  unfold materialize_invals.
  destruct (skip_mlir_conversions t primitive); [apply raises_only_ret |].
  apply raises_only_bind; [| intros; apply raises_only_ret].
  induction invals as [| [x d] r IH]; cbn [mapM]; [apply raises_only_ret |].
  apply raises_only_bind.
  - cbn [fst snd]. destruct x as [h | v]; cbn [_ensure_mlir_value].
    + destruct h; try apply ir_constant_raises.
      apply raises_only_throw. reflexivity.
    + apply raises_only_ret.
  - intros y. apply raises_only_bind; [exact IH |].
    intros; apply raises_only_ret.
Qed.

Lemma emit_trace_stops_raises popped P : raises_only (emit_trace_stops popped) P.
Proof. intros b e H. rewrite emit_trace_stops_run in H. discriminate. Qed.

Lemma emit_trace_starts_raises pushed P : raises_only (emit_trace_starts pushed) P.
Proof. intros b e H. rewrite emit_trace_starts_run in H. discriminate. Qed.

Lemma run_rule_raises steps :
  forall sub,
    Forall (fun call => raises_only call
                          (fun e => wrapped_at_most_once e = true)) sub ->
    raises_only (run_rule steps sub) (fun e => wrapped_at_most_once e = true).
Proof.
  induction steps as [| s rest IH]; intros sub Hsub; cbn [run_rule].
  - apply raises_only_ret.
  - destruct s as [name | k | cls msg].
    + apply raises_only_bind; [apply raises_only_emit |].
      intros _. apply (IH sub Hsub).
    + destruct (nth_error sub k) as [call |] eqn:Hk.
      * apply raises_only_bind.
        -- rewrite Forall_forall in Hsub. apply Hsub.
           eapply nth_error_In. exact Hk.
        -- intros _. apply (IH sub Hsub).
      * apply raises_only_throw. reflexivity.
    + apply raises_only_throw. reflexivity.
Qed.

Lemma try_rule_raises {A} eqn_text (body : M A) :
  raises_only body (fun e => wrapped_at_most_once e = true) ->
  raises_only (try_rule eqn_text body)
    (fun e => wrapped_at_most_once e = true).
Proof.
  intros Hb b e H. unfold try_rule in H.
  destruct (body b) as [[a0 b0] | e0] eqn:E; [discriminate |].
  injection H as <-. apply on_rule_exception_wrapped. exact (Hb _ _ E).
Qed.

Lemma drain_name_stack_raises cur initial :
  raises_only (drain_name_stack cur initial)
    (fun e => wrapped_at_most_once e = true).
Proof.
  unfold drain_name_stack.
  destruct (_compute_name_stack_updates cur initial) as [popped pushed].
  apply raises_only_bind; [apply emit_trace_stops_raises |].
  intros _. destruct (negb _).
  - apply raises_only_throw. reflexivity.
  - apply raises_only_ret.
Qed.

Lemma lower_eqns_raises t ctx eqns :
  Forall (fun e => forall cur,
              raises_only (lower_eqn t ctx cur e)
                (fun e => wrapped_at_most_once e = true)) eqns ->
  forall cur,
    raises_only (lower_eqns t ctx cur eqns)
      (fun e => wrapped_at_most_once e = true).
Proof.
  induction 1 as [| e rest He _ IH]; intros cur.
  - apply raises_only_ret.
  - rewrite lower_eqns_cons. apply raises_only_bind; [apply He |].
    intros cur'. apply IH.
Qed.

Lemma dispatcher_raises :
  forall j t ctx,
    raises_only (jaxpr_subcomp t ctx j)
      (fun e => wrapped_at_most_once e = true).
Proof.
  apply (jaxpr_nested_ind
           (fun j => forall t ctx,
                raises_only (jaxpr_subcomp t ctx j)
                  (fun e => wrapped_at_most_once e = true))
           (fun e => forall t ctx cur,
                raises_only (lower_eqn t ctx cur e)
                  (fun e => wrapped_at_most_once e = true))).
  - intros eqns Heqns t ctx. rewrite jaxpr_subcomp_unfold.
    apply raises_only_bind.
    + apply lower_eqns_raises. eapply Forall_impl; [| exact Heqns].
      intros e He cur. apply He.
    + intros cur. apply drain_name_stack_raises.
  - intros primitive invals ns params sub Hsub t ctx cur.
    cbn [lower_eqn].
    destruct (lowering_rules t primitive) as [rule |].
    + apply raises_only_bind; [apply materialize_invals_raises |].
      intros _.
      destruct (_compute_name_stack_updates cur (name_stack_add ctx ns))
        as [popped pushed].
      apply raises_only_bind; [apply emit_trace_stops_raises |]. intros _.
      apply raises_only_bind; [apply emit_trace_starts_raises |]. intros _.
      apply raises_only_bind; [| intros; apply raises_only_ret].
      apply try_rule_raises, run_rule_raises.
      rewrite Forall_map. eapply Forall_impl; [| exact Hsub].
      intros j Hj. apply Hj.
    + apply raises_only_throw. reflexivity.
Qed.

Lemma lower_eqns_app t ctx pre :
  forall cur rest b,
    lower_eqns t ctx cur (pre ++ rest) b
    = match lower_eqns t ctx cur pre b with
      | Ok (cur', b1) => lower_eqns t ctx cur' rest b1
      | Raise e => Raise e
      end.
Proof.
  induction pre as [| e pre IH]; intros cur rest b; [reflexivity |].
  cbn [app]. rewrite !lower_eqns_cons. unfold bind.
  destruct (lower_eqn t ctx cur e b) as [[cur1 b1] | x]; [| reflexivity].
  apply IH.
Qed.

(** The equation after a prefix that lowers decides what the jaxpr
    raises. *)
Lemma jaxpr_subcomp_raise_at t ctx pre e post b cur b1 x :
  lower_eqns t ctx ctx pre b = Ok (cur, b1) ->
  lower_eqn t ctx cur e b1 = Raise x ->
  jaxpr_subcomp t ctx (Jaxpr (pre ++ e :: post)) b = Raise x.
Proof.
  intros Hpre He. rewrite jaxpr_subcomp_unfold.
  apply bind_eq_raise. rewrite lower_eqns_app, Hpre, lower_eqns_cons.
  apply bind_eq_raise. exact He.
Qed.

Lemma run_rule_emits_then_call names :
  forall k steps (sub : list (M unit)) (call : M unit) err,
    nth_error sub k = Some call ->
    (forall b, call b = Raise err) ->
    forall b,
      run_rule (map EmitOp names ++ CallSubcomp k :: steps) sub b = Raise err.
Proof.
  induction names as [| n names IH]; intros k steps sub call err Hk Hcall b.
  - cbn [map app run_rule]. rewrite Hk. apply bind_eq_raise. apply Hcall.
  - cbn [map app run_rule]. unfold bind at 1, emit. cbv beta iota.
    eapply IH; eassumption.
Qed.

(** C1, as the claim states it, fails: a jaxpr whose only equation has
    no registered rule raises the bare [NotImplementedError]; no
    [LoweringException] is raised. *)
Lemma unregistered_primitive_not_wrapped :
  jaxpr_subcomp example_tables [] unregistered_jaxpr (mkBuilder 0 [])
  = Raise (Exn NotImplementedError (unimplemented_primitive_msg "mystery"))
  /\ is_lowering_exception
       (Exn NotImplementedError (unimplemented_primitive_msg "mystery"))
     = false
  /\ lowering_rules example_tables "mystery" = None.
Proof. repeat split. Qed.

(** C1 (amended). An equation whose primitive has no registered rule,
    reached after equations that lower, makes [jaxpr_subcomp] raise the
    bare [NotImplementedError] naming the primitive.  When a registered
    rule of an outer equation calls [jaxpr_subcomp] on a jaxpr whose
    lowering raises, the outer call raises what the handler makes of
    that exception: a [LoweringException] raised from it if it is not one
    (so exactly one layer around the [NotImplementedError]), and the
    exception itself, unchanged, if it is one.  No exception escaping
    [jaxpr_subcomp] carries more than one [LoweringException]. *)
Theorem unregistered_primitive_wrapping :
  (forall t ctx pre e post b cur b1,
      lower_eqns t ctx ctx pre b = Ok (cur, b1) ->
      lowering_rules t (eqn_primitive e) = None ->
      jaxpr_subcomp t ctx (Jaxpr (pre ++ e :: post)) b
      = Raise (Exn NotImplementedError
                 (unimplemented_primitive_msg (eqn_primitive e)))) /\
  (forall t ctx inner err pre primitive invals ns params sub post
          rule names k steps b cur b1,
      (forall b0, jaxpr_subcomp t ctx inner b0 = Raise err) ->
      lower_eqns t ctx ctx pre b = Ok (cur, b1) ->
      lowering_rules t primitive = Some rule ->
      (forall b0, exists b2,
            materialize_invals t primitive invals b0 = Ok (tt, b2)) ->
      rule params = map EmitOp names ++ CallSubcomp k :: steps ->
      nth_error sub k = Some inner ->
      jaxpr_subcomp t ctx
        (Jaxpr (pre ++ Eqn primitive invals ns params sub :: post)) b
      = Raise (on_rule_exception primitive err)) /\
  (forall eqn_text name,
      let cause := Exn NotImplementedError (unimplemented_primitive_msg name) in
      on_rule_exception eqn_text cause
      = ExnFrom LoweringException (lowering_exception_msg eqn_text cause) cause
      /\ lowering_layers (on_rule_exception eqn_text cause) = 1%nat) /\
  (forall eqn_text e,
      is_lowering_exception e = true -> on_rule_exception eqn_text e = e) /\
  (forall t ctx j b e,
      jaxpr_subcomp t ctx j b = Raise e -> (lowering_layers e <= 1)%nat).
Proof.
  split; [| split; [| split; [| split]]].
  - intros t ctx pre e post b cur b1 Hpre Hnone.
    eapply jaxpr_subcomp_raise_at; [exact Hpre |].
    destruct e as [primitive invals ns params sub]. cbn in *.
    rewrite Hnone. reflexivity.
  - intros t ctx inner err pre primitive invals ns params sub post
      rule names k steps b cur b1 Hinner Hpre Hrule Hmat Hscript Hk.
    eapply jaxpr_subcomp_raise_at; [exact Hpre |].
    cbn [lower_eqn]. rewrite Hrule.
    destruct (Hmat b1) as (b2 & Hm).
    rewrite (bind_eq_ok _ _ _ _ _ Hm).
    destruct (_compute_name_stack_updates cur (name_stack_add ctx ns))
      as [popped pushed].
    rewrite (bind_eq_ok _ _ _ _ _ (emit_trace_stops_run popped b2)).
    rewrite (bind_eq_ok _ _ _ _ _ (emit_trace_starts_run pushed _)).
    apply bind_eq_raise. unfold try_rule.
    rewrite Hscript.
    rewrite (run_rule_emits_then_call names k steps
               (map (jaxpr_subcomp t ctx) sub)
               (jaxpr_subcomp t ctx inner) err).
    + reflexivity.
    + rewrite nth_error_map, Hk. reflexivity.
    + exact Hinner.
  - intros eqn_text name cause. split; reflexivity.
  - intros eqn_text e He. unfold on_rule_exception. rewrite He. reflexivity.
  - intros t ctx j b e H.
    apply wrapped_at_most_once_layers.
    exact (dispatcher_raises j t ctx b e H).
Qed.

Lemma unregistered_primitive_wrapping_witness :
  jaxpr_subcomp example_tables [] nesting_jaxpr (mkBuilder 0 [])
  = Raise (on_rule_exception "cond"
             (Exn NotImplementedError (unimplemented_primitive_msg "mystery"))).
Proof.
  exact (proj1 (proj2 unregistered_primitive_wrapping)
           example_tables [] unregistered_jaxpr
           (Exn NotImplementedError (unimplemented_primitive_msg "mystery"))
           [Eqn "add" [] ["a"] [] []] "cond" [] [] []
           [Jaxpr []; unregistered_jaxpr] []
           (fun _ => [EmitOp "scf.if"; CallSubcomp 1; CallSubcomp 0])
           ["scf.if"] 1%nat [CallSubcomp 0]
           (mkBuilder 0 []) ["a"]
           (mkBuilder 0 [TpuTraceStartOp "a" 10; GenericOp "arith.addf"])
           (fun _ => eq_refl) eq_refl eq_refl
           (fun b0 => ex_intro _ b0 eq_refl) eq_refl eq_refl).
Defined.

(** ** Control flow: counted loops *)

Lemma fresh_list_run tys :
  forall b,
    exists vs,
      fresh_list tys b
      = Ok (vs, mkBuilder (next_id b + List.length tys) (emitted b))
      /\ map v_ty vs = tys
      /\ Forall (fun v => exists k, v_name v = ResId k
                                    /\ (next_id b <= k < next_id b + List.length tys)%nat) vs.
Proof.
  induction tys as [| t ts IH]; intros [n ops]; cbn.
  - exists []. rewrite Nat.add_0_r. auto.
  - destruct (IH (mkBuilder (S n) ops)) as (vs & E & Hty & Hn).
    exists (mkValue (ResId n) t :: vs).
    cbn in E, Hn. rewrite (bind_eq_ok _ _ _ _ _ E). cbn.
    split; [| split].
    + rewrite Nat.add_succ_r. reflexivity.
    + cbn. rewrite Hty. reflexivity.
    + constructor.
      * exists n. cbn. split; [reflexivity | lia].
      * eapply Forall_impl; [| exact Hn]. cbn.
        intros v (k & Hk & Hr). exists k. split; [exact Hk | lia].
Qed.

Lemma jaxpr_subcomp_call_run bs jaxpr args b :
  exists results,
    jaxpr_subcomp_call bs jaxpr args b
    = Ok (results,
          mkBuilder (next_id b + List.length (sj_out_types jaxpr))
            (emitted b ++ [SubcompOp results bs jaxpr (map IR args)]))
    /\ map v_ty results = sj_out_types jaxpr.
Proof.
  destruct (fresh_list_run (sj_out_types jaxpr) b) as (vs & E & Hty & _).
  exists vs. split; [| exact Hty].
  unfold jaxpr_subcomp_call. rewrite (bind_eq_ok _ _ _ _ _ E). reflexivity.
Qed.

Lemma _run_body_run bs jaxpr consts has_loop_index i args b :
  exists results,
    _run_body bs jaxpr consts has_loop_index i args b
    = Ok (results,
          mkBuilder (next_id b + List.length (sj_out_types jaxpr))
            (emitted b
             ++ [SubcompOp results (body_block_shapes bs consts has_loop_index)
                   jaxpr (map IR (body_args consts has_loop_index i args))]))
    /\ map v_ty results = sj_out_types jaxpr.
Proof.
  unfold _run_body, body_block_shapes, body_args.
  destruct has_loop_index; apply jaxpr_subcomp_call_run.
Qed.

Lemma unroll_body_run bs jaxpr consts has_loop_index indices :
  Forall (fun i => fits_int32 i = true) indices ->
  forall args b,
    exists out b' ops,
      unroll_body (_run_body bs jaxpr consts has_loop_index) indices args b
      = Ok (out, b')
      /\ emitted b' = emitted b ++ ops
      /\ unrolled_copies bs jaxpr consts has_loop_index indices args ops out.
Proof.
  induction 1 as [| i rest Hi _ IH]; intros args b.
  - exists args, b, []. cbn. rewrite app_nil_r.
    repeat split. constructor.
  - cbn [unroll_body].
    set (iv := mkValue (ResId (next_id b)) i32).
    set (b1 := mkBuilder (S (next_id b))
                 (emitted b
                  ++ [ArithConstantOp iv
                        (IntegerAttr i32 (NpArrayOf (PyInt i) Int32))])).
    assert (Hc : ir_constant (Py (PyInt i)) (Some i32) b = Ok (iv, b1))
      by exact (ir_constant_int i i32 b Hi).
    rewrite (bind_eq_ok _ _ _ _ _ Hc).
    destruct (_run_body_run bs jaxpr consts has_loop_index iv args b1)
      as (results & Hr & Hty).
    rewrite (bind_eq_ok _ _ _ _ _ Hr).
    match type of Hr with _ = Ok (_, ?b2') => set (b2 := b2') in * end.
    destruct (IH results b2) as (out & b' & ops & Hrest & E & Hcopies).
    exists out, b'. eexists. split; [exact Hrest |]. split.
    + rewrite E. subst b2 b1. cbn [emitted].
      rewrite <- !app_assoc. cbn [app]. reflexivity.
    + constructor; [reflexivity | exact Hty | exact Hcopies].
Qed.

Lemma unrolled_copies_counts bs jaxpr consts has_loop_index indices args ops out :
  unrolled_copies bs jaxpr consts has_loop_index indices args ops out ->
  count_ops is_subcomp ops = List.length indices
  /\ count_ops is_structured_loop ops = 0%nat.
Proof.
  unfold count_ops.
  induction 1 as [| i rest args iv results ops out _ _ _ [IH1 IH2]]; cbn.
  - auto.
  - rewrite IH1, IH2. auto.
Qed.

Lemma length_py_range2 start stop :
  List.length (py_range2 start stop) = Z.to_nat (stop - start).
Proof. unfold py_range2. rewrite length_map, length_seq. reflexivity. Qed.

(** C4. A counted loop with constant start and trip count, both
    within the 32-bit integers the loop indices are constants of: when
    the trip count equals the unroll factor the rule emits, for each
    index from the start on, in order, one inlined copy of the body (as
    many copies as the trip count) and no [scf.for]; otherwise, with
    unroll factor 1, it emits exactly one [scf.for], with its induction
    variable and loop-carried values, around one copy of the body; any
    other unroll factor raises [NotImplementedError]. *)
Theorem counted_loop_unrolling :
  forall bs jaxpr start num_steps consts args has_loop_index unroll b,
    let lowered :=
      _lower_jaxpr_to_for_loop bs jaxpr (StaticInt start) (StaticInt num_steps)
        consts args has_loop_index unroll b in
    (num_steps = unroll ->
     - 2 ^ 31 <= start -> start + num_steps <= 2 ^ 31 ->
     exists out b' ops,
       lowered = Ok (out, b')
       /\ emitted b' = emitted b ++ ops
       /\ unrolled_copies bs jaxpr consts has_loop_index
            (py_range2 start (start + num_steps)) args ops out
       /\ count_ops is_subcomp ops = Z.to_nat num_steps
       /\ count_ops is_structured_loop ops = 0%nat) /\
    (num_steps <> unroll -> unroll = 1 ->
     - 2 ^ 31 <= start < 2 ^ 31 -> - 2 ^ 31 <= num_steps < 2 ^ 31 ->
     exists lbd n ubd step results iv inner_args inner_out b',
       lowered = Ok (results, b')
       /\ emitted b'
          = emitted b
            ++ [ArithConstantOp lbd
                  (IntegerAttr i32 (NpArrayOf (PyInt start) Int32));
                ArithConstantOp n
                  (IntegerAttr i32 (NpArrayOf (PyInt num_steps) Int32));
                ArithAddIOp ubd lbd n;
                ArithConstantOp step
                  (IntegerAttr i32 (NpArrayOf (PyInt 1) Int32));
                ScfForOp results lbd ubd step args iv inner_args
                  [SubcompOp inner_out
                     (body_block_shapes bs consts has_loop_index) jaxpr
                     (map IR (body_args consts has_loop_index iv inner_args));
                   ScfYieldOp inner_out]]
       /\ map v_ty results = map v_ty args
       /\ map v_ty inner_args = map v_ty args
       /\ v_ty iv = i32) /\
    (num_steps <> unroll -> unroll <> 1 ->
     lowered
     = Raise (Exn NotImplementedError
                "Only unroll=num_steps and unroll=1 supported.")).
Proof.
  intros bs jaxpr start num_steps consts args has_loop_index unroll b lowered.
  subst lowered. unfold _lower_jaxpr_to_for_loop.
  split; [| split].
  - intros -> Hlo Hhi. rewrite Z.eqb_refl.
    destruct (unroll_body_run bs jaxpr consts has_loop_index
                (py_range2 start (start + unroll))
                (py_range2_fits _ _ Hlo Hhi) args b)
      as (out & b' & ops & E & Hops & Hcopies).
    exists out, b', ops.
    destruct (unrolled_copies_counts _ _ _ _ _ _ _ _ Hcopies) as [C1 C2].
    repeat split; try assumption.
    rewrite C1, length_py_range2. f_equal. lia.
  - intros Hne -> Hstart Hsteps.
    apply fits_int32_spec in Hstart. apply fits_int32_spec in Hsteps.
    destruct (num_steps =? 1) eqn:E1; [lia |].
    change (negb (1 =? 1)) with false. cbv iota.
    set (lbd := mkValue (ResId (next_id b)) i32).
    set (n := mkValue (ResId (S (next_id b))) i32).
    set (ubd := mkValue (ResId (S (S (next_id b)))) i32).
    set (step := mkValue (ResId (S (S (S (next_id b))))) i32).
    set (c_start := ArithConstantOp lbd
                      (IntegerAttr i32 (NpArrayOf (PyInt start) Int32))).
    set (c_steps := ArithConstantOp n
                      (IntegerAttr i32 (NpArrayOf (PyInt num_steps) Int32))).
    set (c_one := ArithConstantOp step
                    (IntegerAttr i32 (NpArrayOf (PyInt 1) Int32))).
    set (b1 := mkBuilder (S (next_id b)) (emitted b ++ [c_start])).
    set (b2 := mkBuilder (S (S (next_id b)))
                 ((emitted b ++ [c_start]) ++ [c_steps])).
    set (b3 := mkBuilder (S (S (S (next_id b))))
                 (((emitted b ++ [c_start]) ++ [c_steps])
                  ++ [ArithAddIOp ubd lbd n])).
    set (b4 := mkBuilder (S (S (S (S (next_id b)))))
                 ((((emitted b ++ [c_start]) ++ [c_steps])
                   ++ [ArithAddIOp ubd lbd n]) ++ [c_one])).
    assert (H1 : ensure_index (StaticInt start) b = Ok (lbd, b1))
      by exact (ir_constant_int start i32 b Hstart).
    assert (H2 : ensure_index (StaticInt num_steps) b1 = Ok (n, b2))
      by exact (ir_constant_int num_steps i32 b1 Hsteps).
    assert (H3 : fresh (v_ty lbd) b2
                 = Ok (ubd, mkBuilder (S (S (S (next_id b)))) (emitted b2)))
      by reflexivity.
    assert (H4 : emit (ArithAddIOp ubd lbd n)
                   (mkBuilder (S (S (S (next_id b)))) (emitted b2))
                 = Ok (tt, b3)) by reflexivity.
    assert (H5 : ir_constant (Py (PyInt 1)) (Some i32) b3 = Ok (step, b4))
      by reflexivity.
    destruct (fresh_list_run (map v_ty args) b4) as (results & Hres & Hrty & _).
    match type of Hres with _ = Ok (_, ?x) => set (b5 := x) in * end.
    set (iv := mkValue (ResId (next_id b5)) i32).
    set (b6 := mkBuilder (S (next_id b5)) (emitted b5)).
    assert (H6 : fresh (v_ty lbd) b5 = Ok (iv, b6)) by reflexivity.
    destruct (fresh_list_run (map v_ty args) b6) as (inner & Hinn & Hity & _).
    match type of Hinn with _ = Ok (_, ?x) => set (b7 := x) in * end.
    destruct (_run_body_run bs jaxpr consts has_loop_index iv inner
                (mkBuilder (next_id b7) []))
      as (inner_out & Hbody & _).
    match type of Hbody with _ = Ok (_, ?x) => set (b8 := x) in * end.
    exists lbd, n, ubd, step, results, iv, inner, inner_out.
    exists (mkBuilder (next_id b8)
              (emitted b7
               ++ [ScfForOp results lbd ubd step args iv inner
                     (emitted b8 ++ [ScfYieldOp inner_out])])).
    split.
    + rewrite (bind_eq_ok _ _ _ _ _ H1), (bind_eq_ok _ _ _ _ _ H2),
        (bind_eq_ok _ _ _ _ _ H3), (bind_eq_ok _ _ _ _ _ H4),
        (bind_eq_ok _ _ _ _ _ H5), (bind_eq_ok _ _ _ _ _ Hres),
        (bind_eq_ok _ _ _ _ _ H6), (bind_eq_ok _ _ _ _ _ Hinn).
      unfold bind at 1, in_region. rewrite (bind_eq_ok _ _ _ _ _ Hbody).
      reflexivity.
    + subst b8 b7 b6 b5 b4. cbn [emitted next_id].
      rewrite <- !app_assoc. cbn [app].
      repeat split; try assumption; reflexivity.
  - intros Hne H1.
    destruct (num_steps =? unroll) eqn:E; [lia |].
    destruct (unroll =? 1) eqn:E1; [lia |]. reflexivity.
Qed.


Lemma counted_loop_unrolling_witness :
  (exists out b' ops,
      _lower_jaxpr_to_for_loop [None; None] example_body
        (StaticInt 0) (StaticInt 4) [] [example_carry] true 4 (mkBuilder 0 [])
      = Ok (out, b')
      /\ emitted b' = [] ++ ops
      /\ unrolled_copies [None; None] example_body [] true
           (py_range2 0 (0 + 4)) [example_carry] ops out
      /\ count_ops is_subcomp ops = Z.to_nat 4
      /\ count_ops is_structured_loop ops = 0%nat) /\
  _lower_jaxpr_to_for_loop [None; None] example_body
    (StaticInt 0) (StaticInt 4) [] [example_carry] true 2 (mkBuilder 0 [])
  = Raise (Exn NotImplementedError
             "Only unroll=num_steps and unroll=1 supported.").
Proof.
  split.
  - apply (proj1 (counted_loop_unrolling [None; None] example_body 0 4 []
                    [example_carry] true 4 (mkBuilder 0 [])) eq_refl);
      cbn; lia.
  - apply (proj2 (proj2 (counted_loop_unrolling [None; None] example_body 0 4
                           [] [example_carry] true 2 (mkBuilder 0 []))));
      discriminate.
Defined.

(** ** Evaluation *)

Lemma vname_eqb_refl n : vname_eqb n n = true.
Proof. destruct n; cbn; [apply String.eqb_refl | apply Nat.eqb_refl]. Qed.

Lemma get_set_same m v x : get_value (set_value m v x) v = x.
Proof. unfold get_value, set_value. cbn. rewrite vname_eqb_refl. reflexivity. Qed.

Lemma get_set_older m k ty x v :
  older v k -> get_value (set_value m (mkValue (ResId k) ty) x) v = get_value m v.
Proof.
  unfold older, get_value, set_value. cbn.
  destruct (v_name v) as [s | j]; cbn; [reflexivity |].
  intros H. destruct (Nat.eqb_spec j k); [lia | reflexivity].
Qed.

Lemma exec_block_cons o rest m :
  is_yield o = false ->
  exec_block (o :: rest) m
  = match exec_op o m with
    | Some (m1, t1) =>
        match exec_block rest m1 with
        | Some (m2, t2, y) => Some (m2, t1 ++ t2, y)
        | None => None
        end
    | None => None
    end.
Proof. destruct o; try reflexivity. discriminate. Qed.

Lemma exec_block_app ops1 :
  forall ops2 m m1 t1 y1,
    forallb (fun o => negb (is_yield o)) ops1 = true ->
    exec_block ops1 m = Some (m1, t1, y1) ->
    exec_block (ops1 ++ ops2) m
    = match exec_block ops2 m1 with
      | Some (m2, t2, y) => Some (m2, t1 ++ t2, y)
      | None => None
      end.
Proof.
  induction ops1 as [| o r IH]; intros ops2 m m1 t1 y1 Hny H.
  - injection H as <- <- <-. cbn [app].
    destruct (exec_block ops2 m) as [[[m2 t2] y] |]; reflexivity.
  - cbn [forallb] in Hny. apply andb_prop in Hny. destruct Hny as [Ho Hr].
    apply negb_true_iff in Ho.
    cbn [app]. rewrite exec_block_cons in * by exact Ho.
    destruct (exec_op o m) as [[ma ta] |]; [| discriminate].
    destruct (exec_block r ma) as [[[mb tb] yb] |] eqn:Er; [| discriminate].
    injection H as <- <- <-.
    rewrite (IH ops2 ma mb tb yb Hr Er).
    destruct (exec_block ops2 mb) as [[[m2 t2] y] |]; [| reflexivity].
    rewrite app_assoc. reflexivity.
Qed.

Lemma in_region_run {A} (body : M A) b a n ops :
  body (mkBuilder (next_id b) []) = Ok (a, mkBuilder n ops) ->
  in_region body b = Ok ((a, ops), mkBuilder n (emitted b)).
Proof. intros H. unfold in_region. rewrite H. reflexivity. Qed.


(** ** Control flow: the multiway branch *)

Lemma exec_op_if results pred then_block else_block m p :
  get_value m pred = Some (RInt p) ->
  exec_op (ScfIfOp results pred then_block else_block) m
  = match (if p =? 0 then exec_block else_block m
           else exec_block then_block m) with
    | Some (m', t, yielded) => Some (set_values m' results yielded, t)
    | None => None
    end.
Proof. intros H. cbn [exec_op]. rewrite H. reflexivity. Qed.

Lemma exec_branch_body results bs jaxpr args m :
  exec_block [SubcompOp results bs jaxpr args; ScfYieldOp results] m
  = Some (set_values m results [], [jaxpr],
          map (get_value (set_values m results [])) results).
Proof. reflexivity. Qed.

Lemma older_le v n n' : older v n -> (n <= n')%nat -> older v n'.
Proof. unfold older. destruct (v_name v); [auto | lia]. Qed.

Lemma cond_lowering_cascade branches :
  forall bs avals_out out_types index args s w b,
    (2 <= List.length branches)%nat ->
    map_result (fun a => aval_to_ir_type a None None false) avals_out
    = Ok out_types ->
    v_ty index = IntegerType s w ->
    older index (next_id b) ->
    exists results b' ops,
      _cond_lowering_rule bs avals_out (index :: args) branches b
      = Ok (results, b')
      /\ emitted b' = emitted b ++ ops
      /\ cond_cascade (tl bs) args index branches ops results
      /\ forallb (fun o => negb (is_yield o)) ops = true
      /\ forall m i branch,
           get_value m index = Some (RInt i) ->
           0 <= i -> i < 2 ^ w ->
           nth_error branches (Z.to_nat i) = Some branch ->
           exists m', exec_block ops m = Some (m', [branch], []).
Proof.
  induction branches as [| b0 rest IH];
    intros bs avals_out out_types index args s w b Hlen Hty Hidx Hold.
  - cbn in Hlen. lia.
  - cbn [_cond_lowering_rule].
    (* the operations before the regions *)
    set (ty := v_ty index) in *.
    set (zero := mkValue (ResId (next_id b)) ty).
    set (c0 := ArithConstantOp zero (IntegerAttr ty (NpArrayOf (PyInt 0) Int32))).
    set (pred := mkValue (ResId (S (next_id b))) (IntegerType None 1)).
    set (cmp := ArithCmpIOp pred 1 index zero).
    set (b3 := mkBuilder (S (S (next_id b))) ((emitted b ++ [c0]) ++ [cmp])).
    assert (S0 : lift (map_result (fun a => aval_to_ir_type a None None false)
                         avals_out) b = Ok (out_types, b))
      by (rewrite Hty; reflexivity).
    assert (S1 : ir_constant (Py (PyInt 0)) (Some ty) b
                 = Ok (zero, mkBuilder (S (next_id b)) (emitted b ++ [c0])))
      by reflexivity.
    assert (S2 : fresh (IntegerType None 1)
                   (mkBuilder (S (next_id b)) (emitted b ++ [c0]))
                 = Ok (pred, mkBuilder (S (S (next_id b))) (emitted b ++ [c0])))
      by reflexivity.
    assert (S3 : emit cmp (mkBuilder (S (S (next_id b))) (emitted b ++ [c0]))
                 = Ok (tt, b3)) by reflexivity.
    destruct (fresh_list_run out_types b3) as (results & S4 & _ & _).
    match type of S4 with _ = Ok (_, ?x) => set (b4 := x) in * end.
    assert (Hn4 : (next_id b <= next_id b4)%nat) by (cbn; lia).
    (* the else region: branch 0 *)
    assert (Selse : forall n5,
               exists r0 n6,
                 in_region
                   (out <-
                      match nth_error (b0 :: rest) 0 with
                      | Some branch => jaxpr_subcomp_call (tl bs) branch args
                      | None => throw IndexError "tuple index out of range"
                      end ;;
                    emit (ScfYieldOp out))%M
                   (mkBuilder n5 (emitted b4))
                 = Ok ((tt, [SubcompOp r0 (tl bs) b0 (map IR args);
                             ScfYieldOp r0]),
                       mkBuilder n6 (emitted b4))).
    { intros n5. cbn [nth_error].
      destruct (jaxpr_subcomp_call_run (tl bs) b0 args (mkBuilder n5 []))
        as (r0 & E0 & _).
      exists r0. eexists.
      apply (in_region_run _ (mkBuilder n5 (emitted b4))). cbn [next_id].
      rewrite (bind_eq_ok _ _ _ _ _ E0). reflexivity. }
    (* the then region *)
    assert (Sthen :
              exists then_block n5,
                in_region
                  (out <-
                     (if (2 <? List.length (b0 :: rest))%nat
                      then
                        one <- ir_constant (Py (PyInt 1)) (Some ty) ;;
                        index' <- fresh ty ;;
                        emit (ArithSubIOp index' index one) ;;;
                        _cond_lowering_rule bs avals_out (index' :: args) rest
                      else
                        match nth_error (b0 :: rest) 1 with
                        | Some branch =>
                            jaxpr_subcomp_call (tl bs) branch args
                        | None => throw IndexError "tuple index out of range"
                        end) ;;
                   emit (ScfYieldOp out))%M b4
                = Ok ((tt, then_block), mkBuilder n5 (emitted b4))
                /\ (forall zero pred results r0,
                       cond_cascade (tl bs) args index (b0 :: rest)
                         [ArithConstantOp zero
                            (IntegerAttr ty (NpArrayOf (PyInt 0) Int32));
                          ArithCmpIOp pred 1 index zero;
                          ScfIfOp results pred then_block
                            [SubcompOp r0 (tl bs) b0 (map IR args);
                             ScfYieldOp r0]]
                         results)
                /\ forall m i branch,
                     get_value m index = Some (RInt i) ->
                     1 <= i -> i < 2 ^ w ->
                     nth_error rest (Z.to_nat (i - 1)) = Some branch ->
                     exists m' y,
                       exec_block then_block m = Some (m', [branch], y)).
    { destruct (2 <? List.length (b0 :: rest))%nat eqn:Hmore.
      - (* more than two branches: peel one and recurse *)
        apply Nat.ltb_lt in Hmore. cbn [List.length] in Hmore.
        set (one := mkValue (ResId (next_id b4)) ty).
        set (c1 := ArithConstantOp one
                     (IntegerAttr ty (NpArrayOf (PyInt 1) Int32))).
        set (index' := mkValue (ResId (S (next_id b4))) ty).
        set (sub := ArithSubIOp index' index one).
        set (br3 := mkBuilder (S (S (next_id b4))) [c1; sub]).
        assert (Hold' : older index' (next_id br3)) by (cbn; lia).
        destruct (IH bs avals_out out_types index' args s w br3
                    ltac:(lia) Hty Hidx Hold')
          as (results' & br' & ops_r & Er & Eops & Hcasc & Hny & Hsem).
        exists ((([c1; sub] ++ ops_r) ++ [ScfYieldOp results'])), (next_id br').
        split; [| split].
        + apply in_region_run.
          assert (R1 : ir_constant (Py (PyInt 1)) (Some ty)
                         (mkBuilder (next_id b4) [])
                       = Ok (one, mkBuilder (S (next_id b4)) [c1]))
            by reflexivity.
          assert (R2 : fresh ty (mkBuilder (S (next_id b4)) [c1])
                       = Ok (index', mkBuilder (S (S (next_id b4))) [c1]))
            by reflexivity.
          assert (R3 : emit sub (mkBuilder (S (S (next_id b4))) [c1])
                       = Ok (tt, br3)) by reflexivity.
          unfold bind at 1.
          rewrite (bind_eq_ok _ _ _ _ _ R1), (bind_eq_ok _ _ _ _ _ R2),
            (bind_eq_ok _ _ _ _ _ R3), Er.
          unfold emit. cbn [next_id emitted]. rewrite Eops. reflexivity.
        + intros zero' pred' results0 r0. rewrite <- app_assoc.
          apply cascade_peel; [lia | exact Hcasc].
        + intros m i branch Hi H1 Hw Hbranch.
          assert (H2w : 1 < 2 ^ w) by lia.
          assert (Hw0 : 0 <= w).
          { destruct (Z.leb_spec 0 w); [assumption |].
            rewrite Z.pow_neg_r in H2w by lia. lia. }
          set (m1 := set_value m one (Some (RInt 1))).
          set (m2 := set_value m1 index' (Some (RInt (i - 1)))).
          assert (E1 : exec_op c1 m = Some (m1, [])).
          { cbn [exec_op c1 attr_value host_int]. unfold wrap_to.
            fold ty in Hidx. rewrite Hidx. cbn [element_type type_width option_map].
            rewrite Z.mod_small by lia. reflexivity. }
          assert (E2 : exec_op sub m1 = Some (m2, [])).
          { cbn [exec_op sub]. unfold m1 at 2 3.
            unfold one at 2. rewrite get_set_same.
            unfold one. rewrite get_set_older by (eapply older_le; eassumption).
            rewrite Hi. cbn [binary_rt option_map]. unfold wrap_to.
            cbn [index' v_ty]. rewrite Hidx.
            cbn [element_type type_width option_map].
            rewrite Z.mod_small by lia. reflexivity. }
          assert (Hi' : get_value m2 index' = Some (RInt (i - 1)))
            by apply get_set_same.
          destruct (Hsem m2 (i - 1) branch Hi' ltac:(lia) ltac:(lia) Hbranch)
            as (m' & Em').
          rewrite <- app_assoc.
          cbn [app]. rewrite exec_block_cons by reflexivity. rewrite E1.
          rewrite exec_block_cons by reflexivity. rewrite E2.
          rewrite (exec_block_app ops_r [ScfYieldOp results'] m2 m' [branch] []
                     Hny Em').
          cbn [exec_block exec_ops app]. eexists. eexists. reflexivity.
      - (* exactly two branches *)
        apply Nat.ltb_ge in Hmore. cbn [List.length] in Hmore, Hlen.
        destruct rest as [| b1 [| b2 rest']]; cbn [List.length] in *; try lia.
        cbn [nth_error].
        destruct (jaxpr_subcomp_call_run (tl bs) b1 args
                    (mkBuilder (next_id b4) []))
          as (r1 & E1 & _).
        exists [SubcompOp r1 (tl bs) b1 (map IR args); ScfYieldOp r1].
        eexists. split; [| split].
        + apply in_region_run.
          rewrite (bind_eq_ok _ _ _ _ _ E1). reflexivity.
        + intros zero' pred' results0 r0. apply cascade_last.
        + intros m i branch Hi H1 Hw Hbranch.
          destruct (Z.to_nat (i - 1)) as [| k] eqn:Ek; cbn in Hbranch.
          * injection Hbranch as <-. rewrite exec_branch_body.
            eexists. eexists. reflexivity.
          * destruct k; discriminate. }
    destruct Sthen as (then_block & n5 & Ethen & Hshape & Hthen).
    destruct (Selse n5) as (r0 & n6 & Eelse).
    set (else_block := [SubcompOp r0 (tl bs) b0 (map IR args); ScfYieldOp r0])
      in *.
    set (ifop := ScfIfOp results pred then_block else_block).
    exists results, (mkBuilder n6 (emitted b4 ++ [ifop])), [c0; cmp; ifop].
    split; [| split; [| split; [| split]]].
    + rewrite (bind_eq_ok _ _ _ _ _ S0), (bind_eq_ok _ _ _ _ _ S1),
        (bind_eq_ok _ _ _ _ _ S2), (bind_eq_ok _ _ _ _ _ S3),
        (bind_eq_ok _ _ _ _ _ S4).
      rewrite (bind_eq_ok _ _ _ _ _ Ethen). cbv beta iota.
      rewrite (bind_eq_ok _ _ _ _ _ Eelse). cbv beta iota.
      reflexivity.
    + cbn [emitted]. subst b4 b3. cbn [emitted].
      rewrite <- !app_assoc. reflexivity.
    + apply Hshape.
    + reflexivity.
    + intros m i branch Hi H0 Hw Hbranch.
      assert (Hw0 : 0 <= w).
      { destruct (Z.leb_spec 0 w); [assumption |].
        rewrite Z.pow_neg_r in Hw by lia. lia. }
      set (m1 := set_value m zero (Some (RInt 0))).
      set (p := if negb (i =? 0) then 1 else 0).
      set (m2 := set_value m1 pred (Some (RInt p))).
      assert (E1 : exec_op c0 m = Some (m1, [])).
      { cbn [exec_op c0 attr_value host_int]. unfold wrap_to.
        fold ty in Hidx. rewrite Hidx. cbn [element_type type_width option_map].
        rewrite Zmod_0_l. reflexivity. }
      assert (E2 : exec_op cmp m1 = Some (m2, [])).
      { cbn [exec_op cmp]. fold ty. rewrite Hidx.
        cbn [element_type type_width].
        unfold m1 at 2 3. unfold zero at 2. rewrite get_set_same.
        unfold zero. rewrite get_set_older by exact Hold.
        rewrite Hi. reflexivity. }
      assert (Hp : get_value m2 pred = Some (RInt p)) by apply get_set_same.
      assert (Hi2 : get_value m2 index = Some (RInt i)).
      { unfold m2, m1, pred, zero.
        rewrite !get_set_older; [exact Hi | exact Hold |].
        eapply older_le; [exact Hold | lia]. }
      rewrite exec_block_cons by reflexivity. rewrite E1.
      rewrite exec_block_cons by reflexivity. rewrite E2.
      rewrite exec_block_cons by reflexivity.
      unfold ifop. rewrite (exec_op_if _ _ _ _ _ _ Hp).
      destruct (Z.eqb_spec i 0) as [-> | Hne].
      * (* index 0: the else region, branch 0 *)
        cbn in Hbranch. injection Hbranch as <-.
        subst p. cbn [negb Z.eqb]. unfold else_block.
        rewrite exec_branch_body. cbn. eexists. reflexivity.
      * subst p. cbn [negb]. change (1 =? 0) with false. cbv iota.
        assert (Hb' : nth_error rest (Z.to_nat (i - 1)) = Some branch).
        { replace (Z.to_nat i) with (S (Z.to_nat (i - 1))) in Hbranch by lia.
          exact Hbranch. }
        destruct (Hthen m2 i branch Hi2 ltac:(lia) Hw Hb')
          as (m' & y & Em').
        rewrite Em'. cbn. eexists. reflexivity.
Qed.


(** C5. With at least two branches the rule lowers the branches as a
    cascade of two-way [scf.if]: each level tests the index against
    zero, runs the first remaining branch in its else region and, in its
    then region, either the last branch or the cascade for the remaining
    branches on the index minus one.  For every index value [i] with
    [0 <= i < N] that the index type can hold, running the cascade runs
    the lowered body of branch [i] and of no other branch. *)
Theorem cond_selects_branch :
  forall bs avals_out out_types index args s w branches b,
    (2 <= List.length branches)%nat ->
    map_result (fun a => aval_to_ir_type a None None false) avals_out
    = Ok out_types ->
    v_ty index = IntegerType s w ->
    older index (next_id b) ->
    exists results b' ops,
      _cond_lowering_rule bs avals_out (index :: args) branches b
      = Ok (results, b')
      /\ emitted b' = emitted b ++ ops
      /\ cond_cascade (tl bs) args index branches ops results
      /\ forall m i,
           get_value m index = Some (RInt i) ->
           0 <= i < Z.of_nat (List.length branches) ->
           i < 2 ^ w ->
           exists branch m',
             nth_error branches (Z.to_nat i) = Some branch
             /\ exec_block ops m = Some (m', [branch], []).
Proof.
  intros bs avals_out out_types index args s w branches b Hlen Hty Hidx Hold.
  destruct (cond_lowering_cascade branches bs avals_out out_types index args
              s w b Hlen Hty Hidx Hold)
    as (results & b' & ops & E & Hops & Hshape & _ & Hsem).
  exists results, b', ops. repeat split; try assumption.
  intros m i Hi Hrange Hw.
  destruct (nth_error branches (Z.to_nat i)) as [branch |] eqn:Hb.
  - destruct (Hsem m i branch Hi ltac:(lia) Hw Hb) as (m' & Em').
    exists branch, m'. auto.
  - apply nth_error_None in Hb. lia.
Qed.

Lemma cond_selects_branch_witness :
  exists results b' ops,
    _cond_lowering_rule [None; None] [ShapedArray [] Float32]
      [example_index; example_carry] example_branches (mkBuilder 0 [])
    = Ok (results, b')
    /\ emitted b' = [] ++ ops
    /\ cond_cascade (tl [None; None]) [example_carry] example_index
         example_branches ops results
    /\ forall m i,
         get_value m example_index = Some (RInt i) ->
         0 <= i < Z.of_nat (List.length example_branches) ->
         i < 2 ^ 32 ->
         exists branch m',
           nth_error example_branches (Z.to_nat i) = Some branch
           /\ exec_block ops m = Some (m', [branch], []).
Proof.
  exact (cond_selects_branch [None; None] [ShapedArray [] Float32] [F32Type]
           example_index [example_carry] None 32 example_branches
           (mkBuilder 0 []) (le_S 2 2 (le_n 2)) eq_refl eq_refl I).
Defined.


(** ** Memory reference indexer *)

Lemma indexer_loop_full_slices shape :
  forall rest b,
    exists entries b',
      indexer_loop false (static_block_shape shape)
        (map (fun d => ISlice (Host (Py (PyInt 0))) (SInt d) 1) shape ++ rest) b
      = Ok ((entries, rest), b')
      /\ map (fun e => snd (fst (fst e))) entries = map SInt shape
      /\ forallb (fun s => s =? 1) (map (fun e => snd (fst e)) entries) = true
      /\ existsb (fun sq => sq) (map (fun e => snd e) entries) = false
      /\ filter (fun e => negb (snd e)) entries = entries.
Proof.
  induction shape as [| d shape IH]; intros rest b.
  - exists [], b. repeat split.
  - cbn [static_block_shape map app indexer_loop].
    set (start := mkValue (ResId (next_id b)) (_dtype_to_ir_type Int32 false)).
    set (b1 := mkBuilder (S (next_id b))
                 (emitted b
                  ++ [ArithConstantOp start
                        (IntegerAttr (_dtype_to_ir_type Int32 false)
                           (NpArrayOf (PyInt 0) Int32))])).
    destruct (IH rest b1) as (entries & b' & E & Hsz & Hst & Hsq & Hf).
    exists ((start, SInt d, 1, false) :: entries), b'.
    split; [| repeat split].
    + assert (E0 : _index_to_start_size_stride
                     (ISlice (Host (Py (PyInt 0))) (SInt d) 1) false b
                   = Ok ((start, SInt d, 1, false), b1)) by reflexivity.
      unfold bind at 1. unfold bind at 1. rewrite E0. cbv beta iota.
      unfold ret at 1. cbv beta iota.
      fold (static_block_shape shape).
      rewrite (bind_eq_ok _ _ _ _ _ E). reflexivity.
    + cbn [map fst snd]. rewrite Hsz. reflexivity.
    + cbn [map fst snd forallb]. rewrite Hst. reflexivity.
    + cbn [map snd existsb]. exact Hsq.
    + cbn [filter snd negb]. rewrite Hf. reflexivity.
Qed.

Lemma indexer_full_slices shape b :
  exists starts b',
    _indexer_to_start_size_stride (full_slice_indexer shape)
      (Some (static_block_shape shape)) false b
    = Ok (mkSSS starts (map SInt shape) (map (fun _ => 1) shape)
            (map (fun _ => false) shape) (static_block_shape shape), b').
Proof.
  destruct (indexer_loop_full_slices shape [] b)
    as (entries & b1 & E & Hsz & Hst & Hsq & Hf).
  rewrite app_nil_r in E.
  exists (map (fun e => fst (fst (fst e))) entries), b1.
  unfold _indexer_to_start_size_stride.
  cbn [full_slice_indexer indices].
  rewrite (bind_eq_ok _ _ _ _ _ E). cbv beta iota. unfold ret.
  rewrite Hf, Hsz. do 2 f_equal.
  assert (Hshape : forall (l : list (value * size * Z * bool)) sh,
             map (fun e => snd (fst (fst e))) l = map SInt sh ->
             forallb (fun s => s =? 1) (map (fun e => snd (fst e)) l) = true ->
             existsb (fun sq => sq) (map (fun e => snd e) l) = false ->
             map (fun e => snd (fst e)) l = map (fun _ => 1) sh
             /\ map (fun e => snd e) l = map (fun _ => false) sh
             /\ map (fun e => RDim (snd (fst (fst e)))) l
                = static_block_shape sh).
  { induction l as [| [[[st sz] sd] sq] l IHl]; intros [| d sh] H1 H2 H3;
      try discriminate; [repeat split |].
    cbn in H1, H2, H3. injection H1 as -> H1.
    apply andb_prop in H2. destruct H2 as [H2 H2'].
    apply orb_false_elim in H3. destruct H3 as [-> H3].
    destruct (IHl sh H1 H2' H3) as (I1 & I2 & I3).
    cbn. rewrite I1, I2, I3.
    replace sd with 1 by lia. repeat split. }
  destruct (Hshape entries shape Hsz Hst Hsq) as (-> & -> & ->).
  reflexivity.
Qed.

Lemma forallb_map_const {A} (l : list A) :
  forallb (fun s => s =? 1) (map (fun _ => 1) l) = true.
Proof. induction l; cbn; auto. Qed.

Lemma existsb_map_false {A} (l : list A) :
  existsb (fun sq : bool => sq) (map (fun _ => false) l) = false.
Proof. induction l; cbn; auto. Qed.

Lemma slice_memref_full ref ref_dtype shape elt space b :
  v_ty ref = MemRefType shape elt space ->
  exists out b',
    _slice_memref ref ref_dtype (full_slice_indexer shape)
      (Some (static_block_shape shape)) b
    = Ok ((out, static_block_shape shape), b')
    /\ v_ty out = MemRefType shape (_dtype_to_ir_type ref_dtype false) space.
Proof.
  intros Hty. unfold _slice_memref.
  destruct (indexer_full_slices shape b) as (starts & b1 & E).
  set (out := mkValue (ResId (next_id b1))
                (MemRefType (map static_size (map SInt shape))
                   (_dtype_to_ir_type ref_dtype false) space)).
  exists out. eexists. split.
  - rewrite (bind_eq_ok _ _ _ _ _ E).
    cbn [sss_strides sss_sizes sss_starts sss_squeeze_dims
           sss_new_ref_block_shape].
    rewrite forallb_map_const, existsb_map_false. cbn [negb].
    assert (E1 : lift (type_memory_space (v_ty ref)) b1 = Ok (space, b1))
      by (rewrite Hty; reflexivity).
    rewrite (bind_eq_ok _ _ _ _ _ E1).
    reflexivity.
  - cbn [v_ty out]. rewrite map_map. cbn [static_size]. rewrite map_id.
    reflexivity.
Qed.

(** Slicing a reference in full keeps its block shape; the type of the
    result is rebuilt from the dtype of the aval without the
    kernel-boundary flag. *)
Lemma index_ref_full_slice ref ref_dtype shape elt space b :
  v_ty ref = MemRefType shape elt space ->
  exists out b',
    _index_ref ref ref_dtype (Some (static_block_shape shape))
      [full_slice_indexer shape] b
    = Ok ((out, Some (static_block_shape shape)), b')
    /\ v_ty out = MemRefType shape (_dtype_to_ir_type ref_dtype false) space.
Proof.
  intros Hty.
  destruct (slice_memref_full ref ref_dtype shape elt space b Hty)
    as (out & b' & E & Hout).
  exists out, b'. split; [| exact Hout].
  cbn [_index_ref]. rewrite (bind_eq_ok _ _ _ _ _ E). reflexivity.
Qed.

(** For every dtype but [bool] the rebuilt type is the type the
    reference had. *)
Lemma index_ref_full_slice_same_type ref ref_dtype shape space t b :
  aval_to_ir_type (AbstractRef shape ref_dtype) None space false = Ok t ->
  v_ty ref = t ->
  ref_dtype <> Bool_ ->
  exists out b',
    _index_ref ref ref_dtype (Some (static_block_shape shape))
      [full_slice_indexer shape] b
    = Ok ((out, Some (static_block_shape shape)), b')
    /\ v_ty out = v_ty ref.
Proof.
  intros Ht Hty Hnb. cbn in Ht. injection Ht as <-.
  destruct (index_ref_full_slice ref ref_dtype shape _ _ b Hty)
    as (out & b' & E & Hout).
  exists out, b'. split; [exact E |].
  rewrite Hout, Hty.
  destruct ref_dtype; try congruence; reflexivity.
Qed.

(** C6 at a boolean reference: the reference of type
    memref<8x128xi32> in VMEM, sliced in full, comes back with its block
    shape (8, 128) but with the type memref<8x128xi1>. *)
Theorem index_ref_full_slice_bool :
  v_ty bool_ref = MemRefType [8; 128] (IntegerType None 32) VMEM /\
  exists out b',
    _index_ref bool_ref Bool_ (Some (static_block_shape [8; 128]))
      [full_slice_indexer [8; 128]] (mkBuilder 0 [])
    = Ok ((out, Some (static_block_shape [8; 128])), b')
    /\ v_ty out = MemRefType [8; 128] (IntegerType None 1) VMEM
    /\ ir_type_eqb (v_ty out) (v_ty bool_ref) = false.
Proof.
  split; [reflexivity |].
  eexists. eexists. split; [reflexivity |]. split; reflexivity.
Qed.


(** ** Boolean values in memory *)



Lemma older_S v n : older v n -> older v (S n).
Proof. intros H. eapply older_le; [exact H | lia]. Qed.

(** ** The swap rule *)

Lemma lift_ok {A} (r : result A) b a b' :
  lift r b = Ok (a, b') -> r = Ok a /\ b' = b.
Proof.
  unfold lift. destruct r as [x | e]; [| discriminate].
  intros H. injection H as <- <-. auto.
Qed.

Lemma frame_refl n m : frame n m m.
Proof. split; auto. Qed.

Lemma frame_trans n n' m1 m2 m3 :
  (n <= n')%nat -> frame n m1 m2 -> frame n' m2 m3 -> frame n m1 m3.
Proof.
  intros Hle [M1 V1] [M2 V2]. split; [congruence |].
  intros v Hv. rewrite V2 by (eapply older_le; eassumption). apply V1, Hv.
Qed.

Lemma frame_set_value n k ty x m :
  (n <= k)%nat -> frame n m (set_value m (mkValue (ResId k) ty) x).
Proof.
  intros Hle. split; [reflexivity |].
  intros v Hv. apply get_set_older. eapply older_le; eassumption.
Qed.

Lemma setup_ops_no_yield ops :
  forallb is_setup_op ops = true ->
  forallb (fun o => negb (is_yield o)) ops = true.
Proof.
  induction ops as [| o r IH]; cbn; [reflexivity |].
  intros H. apply andb_prop in H. destruct H as [Ho Hr].
  rewrite (IH Hr). destruct o; try discriminate; reflexivity.
Qed.

Lemma exec_block_setup ops1 ops2 m m1 :
  forallb is_setup_op ops1 = true ->
  exec_block ops1 m = Some (m1, [], []) ->
  exec_block (ops1 ++ ops2) m = exec_block ops2 m1.
Proof.
  intros Hc H.
  rewrite (exec_block_app ops1 ops2 m m1 [] [] (setup_ops_no_yield _ Hc) H).
  destruct (exec_block ops2 m1) as [[[m2 t2] y] |]; reflexivity.
Qed.

Lemma steps_refl b : steps b b.
Proof.
  split; [lia |]. exists []. rewrite app_nil_r.
  split; [reflexivity |]. split; [reflexivity |].
  intros m. exists m. split; [reflexivity | apply frame_refl].
Qed.

Lemma steps_trans b1 b2 b3 : steps b1 b2 -> steps b2 b3 -> steps b1 b3.
Proof.
  intros [L1 (o1 & E1 & S1 & X1)] [L2 (o2 & E2 & S2 & X2)]. split; [lia |].
  exists (o1 ++ o2). split; [| split].
  - rewrite E2, E1, app_assoc. reflexivity.
  - rewrite forallb_app, S1, S2. reflexivity.
  - intros m. destruct (X1 m) as (m1 & Y1 & F1).
    destruct (X2 m1) as (m2 & Y2 & F2).
    exists m2. split.
    + rewrite (exec_block_setup _ _ _ _ S1 Y1). exact Y2.
    + exact (frame_trans _ _ _ _ _ L1 F1 F2).
Qed.

Lemma steps_fresh b : steps b (mkBuilder (S (next_id b)) (emitted b)).
Proof.
  split; [cbn; lia |]. exists []. cbn. rewrite app_nil_r.
  split; [reflexivity |]. split; [reflexivity |].
  intros m. exists m. split; [reflexivity | apply frame_refl].
Qed.

Lemma ir_constant_run x ty b v b' :
  ir_constant x ty b = Ok (v, b') ->
  v_name v = ResId (next_id b)
  /\ next_id b' = S (next_id b)
  /\ exists a, emitted b' = emitted b ++ [ArithConstantOp v a].
Proof.
  intros H. unfold ir_constant in H.
  destruct x as [[n | bb | f] | | s dt | k dt data]; destruct ty as [t |];
    cbn in H; try (destruct (fits_int32 n); cbn in H); try discriminate;
    try (destruct dt; cbn in H; try discriminate);
    try (destruct k; cbn in H; try discriminate);
    injection H as <- <-; cbn; repeat split; eexists; reflexivity.
Qed.

Lemma ir_constant_steps x ty b v b' :
  ir_constant x ty b = Ok (v, b') -> steps b b' /\ older v (next_id b').
Proof.
  intros H. destruct (ir_constant_run _ _ _ _ _ H) as (Hn & Hb & a & E).
  split.
  - split; [lia |]. exists [ArithConstantOp v a].
    split; [exact E |]. split; [reflexivity |].
    intros m. eexists. split; [reflexivity |].
    destruct v as [name ty0]. cbn in Hn. subst name.
    apply frame_set_value. lia.
  - unfold older. rewrite Hn, Hb. lia.
Qed.


Lemma compare_rt_element_type p ty ty' x y :
  element_type ty = element_type ty' -> compare_rt p ty x y = compare_rt p ty' x y.
Proof. intros H. unfold compare_rt. rewrite H. reflexivity. Qed.

Lemma swap_result_element_type aval ty ty' cell :
  element_type ty = element_type ty' ->
  swap_result aval ty cell = swap_result aval ty' cell.
Proof.
  intros H. unfold swap_result.
  destruct (negb _); [reflexivity |]. apply compare_rt_element_type, H.
Qed.

(** [_maybe_cast_load_to_bool]: what it appends and what that computes. *)
Lemma cast_load_exec aval v b r b' :
  _maybe_cast_load_to_bool aval v b = Ok (r, b') ->
  older v (next_id b) ->
  (next_id b <= next_id b')%nat
  /\ older r (next_id b')
  /\ exists ops,
       emitted b' = emitted b ++ ops
       /\ forallb is_cast_op ops = true
       /\ forall m,
            exists m',
              exec_block ops m = Some (m', [], [])
              /\ frame (next_id b) m m'
              /\ get_value m' r = swap_result aval (v_ty v) (get_value m v).
Proof.
  intros H Hold. unfold _maybe_cast_load_to_bool in H.
  unfold swap_result.
  destruct (negb (dtype_eqb (aval_dtype aval) Bool_)) eqn:Hb.
  - injection H as <- <-. split; [lia |]. split; [exact Hold |].
    exists []. rewrite app_nil_r.
    split; [reflexivity |]. split; [reflexivity |].
    intros m. exists m.
    split; [reflexivity |]. split; [apply frame_refl | reflexivity].
  - apply negb_false_iff in Hb.
    assert (Hdt : aval_dtype aval = Bool_) by (destruct (aval_dtype aval); try discriminate; reflexivity).
    set (n := next_id b) in *.
    set (i32t := IntegerType None 32).
    destruct (aval_shape aval) as [| d shape'] eqn:Hshape.
    + (* scalar *)
      set (zero := mkValue (ResId n) i32t).
      set (res := mkValue (ResId (S n)) (cmpi_result_type (v_ty v))).
      set (attr0 := IntegerAttr i32t (Py (PyInt 0))).
      cbn in H. injection H as <- <-. fold n zero res i32t attr0.
      cbn [next_id]. split; [lia |]. split; [cbn; lia |].
      exists [ArithConstantOp zero attr0; ArithCmpIOp res 1 v zero].
      split; [cbn [emitted]; rewrite <- app_assoc; reflexivity |].
      split; [reflexivity |].
      intros m.
      set (m1 := set_value m zero (Some (RInt 0))).
      exists (set_value m1 res
                (compare_rt 1 (v_ty v) (get_value m v) (Some (RInt 0)))).
      split; [| split].
      * rewrite exec_block_cons by reflexivity.
        assert (E1 : exec_op (ArithConstantOp zero attr0) m = Some (m1, []))
          by reflexivity.
        rewrite E1. rewrite exec_block_cons by reflexivity.
        cbn [exec_op]. unfold m1 at 2 3. rewrite get_set_same.
        unfold zero. rewrite get_set_older by exact Hold. reflexivity.
      * apply (frame_trans n n m m1); [apply Nat.le_refl | |];
          apply frame_set_value; lia.
      * rewrite get_set_same. reflexivity.
    + (* vector *)
      set (shape := d :: shape') in *.
      set (vt := VectorType shape i32t).
      set (zero := mkValue (ResId n) vt).
      set (res := mkValue (ResId (S n)) (cmpi_result_type (v_ty v))).
      set (attr0 := DenseSplatAttr vt (IntegerAttr i32t (Py (PyInt 0)))).
      rewrite Hdt in H. cbn in H. injection H as <- <-.
      fold n shape i32t vt zero res attr0.
      cbn [next_id]. split; [lia |]. split; [cbn; lia |].
      exists [ArithConstantOp zero attr0; ArithCmpIOp res 1 v zero].
      split; [cbn [emitted]; rewrite <- app_assoc; reflexivity |].
      split; [reflexivity |].
      intros m.
      set (m1 := set_value m zero (Some (bool_zero shape))).
      exists (set_value m1 res
                (compare_rt 1 (v_ty v) (get_value m v) (Some (bool_zero shape)))).
      split; [| split].
      * rewrite exec_block_cons by reflexivity.
        assert (E1 : exec_op (ArithConstantOp zero attr0) m = Some (m1, []))
          by reflexivity.
        rewrite E1. rewrite exec_block_cons by reflexivity.
        cbn [exec_op]. unfold m1 at 2 3. rewrite get_set_same.
        unfold zero. rewrite get_set_older by exact Hold. reflexivity.
      * apply (frame_trans n n m m1); [apply Nat.le_refl | |];
          apply frame_set_value; lia.
      * rewrite get_set_same. reflexivity.
Qed.



Lemma cast_ops_no_yield ops :
  forallb is_cast_op ops = true ->
  forallb (fun o => negb (is_yield o)) ops = true.
Proof.
  induction ops as [| o r IH]; cbn; [reflexivity |].
  intros H. apply andb_prop in H. destruct H as [Ho Hr].
  rewrite (IH Hr). destruct o; try discriminate; reflexivity.
Qed.

Lemma exec_block_app_nil ops1 ops2 m m1 :
  forallb is_cast_op ops1 = true ->
  exec_block ops1 m = Some (m1, [], []) ->
  exec_block (ops1 ++ ops2) m = exec_block ops2 m1.
Proof.
  intros Hc H.
  rewrite (exec_block_app ops1 ops2 m m1 [] [] (cast_ops_no_yield _ Hc) H).
  destruct (exec_block ops2 m1) as [[[m2 t2] y] |]; reflexivity.
Qed.

Lemma exec_block_casts ops1 ops2 m m1 m2 :
  forallb is_cast_op ops1 = true ->
  exec_block ops1 m = Some (m1, [], []) ->
  exec_block ops2 m1 = Some (m2, [], []) ->
  exec_block (ops1 ++ ops2) m = Some (m2, [], []).
Proof.
  intros Hc H1 H2. rewrite (exec_block_app_nil _ _ _ _ Hc H1). exact H2.
Qed.



Lemma Forall_older_le starts n n' :
  Forall (fun s => older s n) starts -> (n <= n')%nat ->
  Forall (fun s => older s n') starts.
Proof.
  intros H Hle. eapply Forall_impl; [| exact H].
  intros s Hs. exact (older_le s n n' Hs Hle).
Qed.






(** *** The index computations only set up *)

Lemma operand_older_le x n n' :
  operand_older x n -> (n <= n')%nat -> operand_older x n'.
Proof.
  destruct x as [h | v]; cbn; [auto |]. apply older_le.
Qed.

Lemma index_older_le n n' idx :
  (n <= n')%nat -> index_older n idx -> index_older n' idx.
Proof.
  intros Hle. destruct idx as [start sz st | k | v | h sh]; cbn; auto.
  - intros H. eapply operand_older_le; eassumption.
  - intros H. eapply older_le; eassumption.
Qed.

Lemma steps_le b b' : steps b b' -> (next_id b <= next_id b')%nat.
Proof. intros [H _]. exact H. Qed.

Lemma make_index_steps s b v b' :
  _make_index s b = Ok (v, b') ->
  steps b b' /\ (operand_older s (next_id b) -> older v (next_id b')).
Proof.
  unfold _make_index. destruct s as [h | x].
  - destruct (isinstance_int h || is_ndarray h); [| discriminate].
    intros H. destruct (ir_constant_steps _ _ _ _ _ H). auto.
  - destruct (ir_type_eqb (v_ty x) IndexType).
    + intros H. injection H as <- <-. split; [apply steps_refl | auto].
    + intros H. cbn in H. injection H as <- <-. split.
      * split; [cbn; lia |]. eexists. split; [reflexivity |].
        split; [reflexivity |].
        intros m. eexists. split; [reflexivity |].
        apply frame_set_value. lia.
      * intros _. cbn. lia.
Qed.

Lemma ensure_mlir_value_steps x dt b v b' :
  _ensure_mlir_value x dt b = Ok (v, b') ->
  steps b b' /\ (operand_older x (next_id b) -> older v (next_id b')).
Proof.
  unfold _ensure_mlir_value. destruct x as [h | x].
  - destruct h; try discriminate;
      intros H; destruct (ir_constant_steps _ _ _ _ _ H); auto.
  - intros H. injection H as <- <-. split; [apply steps_refl | auto].
Qed.

Lemma maybe_cast_to_index_steps c x b v b' :
  _maybe_cast_to_index c x b = Ok (v, b') ->
  steps b b' /\ (operand_older x (next_id b) -> older v (next_id b')).
Proof.
  unfold _maybe_cast_to_index. destruct c.
  - apply make_index_steps.
  - apply ensure_mlir_value_steps.
Qed.

Lemma index_to_start_size_stride_steps idx c b e b' :
  _index_to_start_size_stride idx c b = Ok (e, b') ->
  steps b b'
  /\ (index_older (next_id b) idx -> older (fst (fst (fst e))) (next_id b')).
Proof.
  unfold _index_to_start_size_stride.
  destruct idx as [start sz st | k | x | h sh].
  - intros H. apply bind_ok in H. destruct H as (s & b1 & H1 & H).
    injection H as <- <-. exact (maybe_cast_to_index_steps _ _ _ _ _ H1).
  - intros H. apply bind_ok in H. destruct H as (s & b1 & H1 & H).
    injection H as <- <-.
    destruct (maybe_cast_to_index_steps _ _ _ _ _ H1) as [S1 O1].
    split; [exact S1 |]. intros _. apply O1. exact I.
  - intros H. apply bind_ok in H. destruct H as (s & b1 & H1 & H).
    injection H as <- <-. exact (maybe_cast_to_index_steps _ _ _ _ _ H1).
  - destruct sh; [| discriminate].
    intros H. apply bind_ok in H. destruct H as (s & b1 & H1 & H).
    injection H as <- <-.
    destruct (maybe_cast_to_index_steps _ _ _ _ _ H1) as [S1 O1].
    split; [exact S1 |]. intros _. apply O1. exact I.
Qed.

Lemma indexer_loop_steps c rbs :
  forall iter b entries rest b',
    indexer_loop c rbs iter b = Ok ((entries, rest), b') ->
    steps b b'
    /\ (Forall (index_older (next_id b)) iter ->
        Forall (fun s => older s (next_id b'))
          (map (fun e => fst (fst (fst e))) entries)).
Proof.
  induction rbs as [| s rbs IH]; intros iter b entries rest b' H.
  - injection H as <- <- <-. split; [apply steps_refl | constructor].
  - cbn [indexer_loop] in H.
    apply bind_ok in H. destruct H as ([entry iter1] & b1 & H1 & H).
    apply bind_ok in H. destruct H as ([entries1 iter2] & b2 & H2 & H).
    injection H as <- <- <-.
    destruct (IH _ _ _ _ _ H2) as [S2 O2].
    assert (A : steps b b1
                /\ (Forall (index_older (next_id b)) iter ->
                    older (fst (fst (fst entry))) (next_id b1)
                    /\ Forall (index_older (next_id b)) iter1)).
    { destruct s as [| d].
      - apply bind_ok in H1. destruct H1 as (st & b0 & H0 & H1).
        injection H1 as <- <- <-.
        destruct (maybe_cast_to_index_steps _ _ _ _ _ H0) as [S0 O0].
        split; [exact S0 |]. intros F. split; [apply O0; exact I | exact F].
      - destruct iter as [| idx iter']; [discriminate |].
        apply bind_ok in H1. destruct H1 as (e0 & b0 & H0 & H1).
        injection H1 as <- <- <-.
        destruct (index_to_start_size_stride_steps _ _ _ _ _ H0) as [S0 O0].
        split; [exact S0 |]. intros F. inversion F; subst. auto. }
    destruct A as [S1 O1].
    split; [eapply steps_trans; eassumption |].
    intros F. destruct (O1 F) as [Oe F1].
    cbn [map]. constructor.
    + eapply older_le; [exact Oe | apply steps_le; exact S2].
    + apply O2. eapply Forall_impl; [| exact F1].
      intros a. apply index_older_le. apply steps_le. exact S1.
Qed.

Lemma indexer_to_start_size_stride_steps indexer rbs c b r b' :
  _indexer_to_start_size_stride indexer rbs c b = Ok (r, b') ->
  steps b b'
  /\ (Forall (index_older (next_id b)) (indices indexer) ->
      Forall (fun s => older s (next_id b')) (sss_starts r)).
Proof.
  unfold _indexer_to_start_size_stride. destruct rbs as [rbs |];
    [| discriminate].
  intros H. apply bind_ok in H. destruct H as ([entries rest] & b1 & H1 & H).
  destruct rest; [| discriminate].
  injection H as <- <-. cbn [sss_starts].
  exact (indexer_loop_steps _ _ _ _ _ _ _ H1).
Qed.

Lemma slice_memref_steps ref dt indexer rbs b out b' :
  _slice_memref ref dt indexer rbs b = Ok (out, b') -> steps b b'.
Proof.
  unfold _slice_memref. destruct rbs as [rbs |]; [| discriminate].
  intros H. apply bind_ok in H. destruct H as (r & b1 & H1 & H).
  destruct (indexer_to_start_size_stride_steps _ _ _ _ _ _ H1) as [S1 _].
  destruct (negb (forallb (fun s => s =? 1) (sss_strides r)));
    [discriminate |].
  apply bind_ok in H. destruct H as (space & b2 & H2 & H).
  apply lift_ok in H2. destruct H2 as [_ ->].
  eapply steps_trans; [exact S1 |].
  destruct (existsb (fun sq => sq) (sss_squeeze_dims r));
    cbn in H; injection H as <- <-.
  - split; [cbn; lia |]. eexists. cbn [emitted].
    rewrite <- app_assoc. split; [reflexivity |]. split; [reflexivity |].
    intros m. exists m. split; [reflexivity | apply frame_refl].
  - split; [cbn; lia |]. eexists. split; [reflexivity |].
    split; [reflexivity |].
    intros m. exists m. split; [reflexivity | apply frame_refl].
Qed.

Lemma index_ref_steps dt indexers :
  forall ref rbs b out b',
    _index_ref ref dt rbs indexers b = Ok (out, b') -> steps b b'.
Proof.
  induction indexers as [| ix rest IH]; intros ref rbs b out b' H.
  - injection H as <- <-. apply steps_refl.
  - cbn [_index_ref] in H.
    apply bind_ok in H. destruct H as ([ref1 rbs1] & b1 & H1 & H).
    eapply steps_trans;
      [exact (slice_memref_steps _ _ _ _ _ _ _ H1) | exact (IH _ _ _ _ _ H)].
Qed.




Lemma unpack_last_ok {A} (xs : list A) :
  xs <> [] -> exists init x, unpack_last xs = Ok (init, x).
Proof.
  intros H. unfold unpack_last.
  destruct (rev xs) as [| y r] eqn:E.
  - exfalso. apply H. rewrite <- (rev_involutive xs), E. reflexivity.
  - eauto.
Qed.

(** *** The start indices are those of the indexer *)












(** *** The swap rule, set-up included *)





(* ===================================================================== *)
(** * Part III: further properties of the lowering *)
(* ===================================================================== *)

(** ** Name-stack updates ([_compute_name_stack_updates]) *)

(** The update between two name stacks is their difference past the
    longest common prefix: both stacks share a prefix, [popped] is what
    is left of the old stack and [pushed] what is left of the new one,
    and the prefix cannot be extended, since [popped] and [pushed] do
    not start with the same name.  So dropping [popped] from the end of
    the old stack and appending [pushed] gives the new stack. *)
Theorem name_stack_updates_longest_prefix old :
  forall new,
    exists common,
      old = common ++ fst (_compute_name_stack_updates old new)
      /\ new = common ++ snd (_compute_name_stack_updates old new)
      /\ match _compute_name_stack_updates old new with
         | (p :: _, q :: _) => p <> q
         | _ => True
         end
      /\ firstn (List.length old
                 - List.length (fst (_compute_name_stack_updates old new)))
           old
         ++ snd (_compute_name_stack_updates old new) = new.
Proof.
  assert (A : forall new,
             exists common,
               old = common ++ fst (_compute_name_stack_updates old new)
               /\ new = common ++ snd (_compute_name_stack_updates old new)
               /\ match _compute_name_stack_updates old new with
                  | (p :: _, q :: _) => p <> q
                  | _ => True
                  end).
  { unfold _compute_name_stack_updates.
    induction old as [| o os IH]; intros new.
    - exists []. cbn. auto.
    - destruct new as [| n ns].
      + exists []. cbn. auto.
      + cbn [common_prefix_loop]. destruct (String.eqb_spec o n) as [-> | Hne].
        * rewrite (common_prefix_loop_shift os ns 1). cbn [Nat.add skipn fst snd].
          destruct (IH ns) as (c & E1 & E2 & E3).
          exists (n :: c). cbn [app fst snd] in *.
          rewrite <- E1, <- E2. auto.
        * exists []. cbn. auto. }
  intros new. destruct (A new) as (c & E1 & E2 & E3).
  exists c. split; [exact E1 |]. split; [exact E2 |]. split; [exact E3 |].
  destruct (_compute_name_stack_updates old new) as [popped pushed].
  cbn [fst snd] in *. subst old new.
  rewrite length_app, Nat.add_sub.
  rewrite firstn_app, firstn_all, Nat.sub_diag. cbn [firstn].
  rewrite app_nil_r. reflexivity.
Qed.

(** ** Block-spec validation: modes and edge cases *)

Lemma map_unmap_blocked (shape : list Z) :
  map unmap_dim (map Blocked shape) = shape.
Proof.
  induction shape as [| d r IH]; cbn; [reflexivity | rewrite IH; reflexivity].
Qed.

Lemma py_index_from_end_ok {A} (xs : list A) (k : nat) :
  (1 <= k <= List.length xs)%nat -> exists x, py_index_from_end xs k = Ok x.
Proof.
  intros H. unfold py_index_from_end.
  destruct (nth_error (rev xs) (k - 1)) as [x |] eqn:E; [eauto |].
  apply nth_error_None in E. rewrite length_rev in E. lia.
Qed.

(** Every block mapping that the forward-compatible validation accepts
    is accepted by the current validation too. *)
Theorem forward_compat_check_is_stricter old_jaxlib bm :
  check_block_mapping true old_jaxlib bm = Ok tt ->
  check_block_mapping false false bm = Ok tt.
Proof.
  unfold check_block_mapping.
  destruct (bm_exempt bm); [reflexivity |].
  cbn [orb].
  set (rank := Z.of_nat (List.length (bm_block_shape bm))).
  destruct (rank <? 2) eqn:Hr2; [discriminate |].
  assert (Hr1 : (rank <? 1) = false) by lia.
  assert (Hge : (rank >=? 2) = true) by lia.
  rewrite Hr1, Hge. cbn [rbind].
  destruct (opt_space_is (bm_memory_space bm) ANY
            && negb (bm_has_trivial_window bm)); [discriminate |].
  cbn [rbind].
  destruct (py_index_from_end (map unmap_dim (bm_block_shape bm)) 1)
    as [bs0 |]; [| discriminate].
  cbn [rbind].
  destruct (py_index_from_end (bm_array_shape bm) 1) as [as0 |];
    [| discriminate].
  cbn [rbind].
  destruct (py_index_from_end (map unmap_dim (bm_block_shape bm)) 2)
    as [bs1 |]; [| discriminate].
  cbn [rbind].
  destruct (py_index_from_end (bm_array_shape bm) 2) as [as1 |];
    [| discriminate].
  cbn [rbind].
  destruct (((bs0 mod 128 =? 0) || ((bs0 =? as0) && (as0 <? 128)))
            && ((bs1 mod 8 =? 0) || ((bs1 =? as1) && (as1 <? 8)))) eqn:Hev;
    cbn [negb rbind]; [| discriminate].
  intros _.
  assert (Hnew : ((bs0 =? as0) || (bs0 mod 128 =? 0))
                 && ((bs1 =? as1) || (bs1 mod 8 =? 0)) = true).
  { apply andb_prop in Hev. destruct Hev as [H0 H1].
    apply orb_prop in H0. apply orb_prop in H1.
    apply andb_true_intro. split; apply orb_true_intro.
    - destruct H0 as [H0 | H0]; [right; exact H0 |].
      left. apply andb_prop in H0. tauto.
    - destruct H1 as [H1 | H1]; [right; exact H1 |].
      left. apply andb_prop in H1. tauto. }
  rewrite Hnew. reflexivity.
Qed.

Lemma forward_compat_check_is_stricter_witness :
  check_block_mapping false false
    (mkBlockMapping [Blocked 8; Blocked 128] [64; 512] 32 (Some VMEM) false)
  = Ok tt.
Proof.
  exact (forward_compat_check_is_stricter false
           (mkBlockMapping [Blocked 8; Blocked 128] [64; 512] 32 (Some VMEM)
              false)
           eq_refl).
Defined.

(** In the current validation a block that spans its whole array, of
    rank at least one, is accepted whatever its sizes are, as long as
    the element width is not zero and the operand is not in memory space
    ANY with a non-trivial window. *)
Theorem full_array_block_accepted bm :
  bm_block_shape bm = map Blocked (bm_array_shape bm) ->
  bm_array_shape bm <> [] ->
  bm_bit_width bm <> 0 ->
  opt_space_is (bm_memory_space bm) ANY && negb (bm_has_trivial_window bm)
  = false ->
  check_block_mapping false false bm = Ok tt.
Proof.
  intros Hshape Hne Hbw Hany. unfold check_block_mapping.
  destruct (bm_exempt bm); [reflexivity |].
  rewrite Hany, Hshape, map_unmap_blocked, length_map. cbn [orb].
  set (shape := bm_array_shape bm) in *.
  assert (Hlen : (1 <= List.length shape)%nat)
    by (destruct shape; [contradiction | cbn; lia]).
  assert (Hr1 : (Z.of_nat (List.length shape) <? 1) = false) by lia.
  rewrite Hr1. cbn [rbind].
  destruct (py_index_from_end_ok shape 1) as (as0 & E0); [lia |].
  rewrite E0. cbn [rbind].
  destruct (Z.of_nat (List.length shape) >=? 2) eqn:Hge.
  - destruct (py_index_from_end_ok shape 2) as (as1 & E1); [lia |].
    rewrite E1. cbn [rbind]. rewrite !Z.eqb_refl. reflexivity.
  - cbn [rbind].
    assert (Hz : (Z.of_nat (List.length shape) =? 1) = true) by lia.
    rewrite Hz. cbn [rbind]. unfold py_floordiv.
    destruct (bm_bit_width bm =? 0) eqn:Hb; [lia |].
    cbn [rbind]. rewrite Z.eqb_refl. reflexivity.
Qed.

Lemma full_array_block_accepted_witness :
  check_block_mapping false false
    (mkBlockMapping [Blocked 3; Blocked 200] [3; 200] 16 (Some VMEM) false)
  = Ok tt.
Proof.
  apply full_array_block_accepted;
    [reflexivity | discriminate | discriminate | reflexivity].
Defined.

(** The current validation divides by zero on a block of rank one of an
    array whose elements are wider than 32 bits: unless the block spans
    the whole array, the tiling size [128 * (32 // bit_width)] is zero
    and the check [bs0 % tiling_size] raises [ZeroDivisionError]. *)
Theorem rank_one_wide_elements_divide_by_zero bm d as0 :
  bm_exempt bm = false ->
  bm_block_shape bm = [d] ->
  py_index_from_end (bm_array_shape bm) 1 = Ok as0 ->
  unmap_dim d <> as0 ->
  32 < bm_bit_width bm ->
  opt_space_is (bm_memory_space bm) ANY && negb (bm_has_trivial_window bm)
  = false ->
  exists msg,
    check_block_mapping false false bm = Raise (Exn ZeroDivisionError msg).
Proof.
  intros Hex Hshape Has0 Hne Hbw Hany. unfold check_block_mapping.
  rewrite Hex, Hany, Hshape, Has0. cbn [orb map List.length].
  cbn -[Z.div Z.modulo Z.mul].
  unfold py_floordiv.
  destruct (bm_bit_width bm =? 0) eqn:Hb; [lia |].
  cbn [rbind].
  destruct (unmap_dim d =? as0) eqn:He; [lia |].
  assert (Hq : 32 / bm_bit_width bm = 0) by (apply Z.div_small; lia).
  rewrite Hq. cbn. eexists. reflexivity.
Qed.

Lemma rank_one_wide_elements_divide_by_zero_witness :
  exists msg,
    check_block_mapping false false
      (mkBlockMapping [Blocked 128] [1024] 64 (Some VMEM) false)
    = Raise (Exn ZeroDivisionError msg).
Proof.
  apply (rank_one_wide_elements_divide_by_zero _ (Blocked 128) 1024);
    [reflexivity | reflexivity | reflexivity | discriminate | reflexivity
    | reflexivity].
Defined.

(** The validation loop accepts a list of block mappings exactly when
    it accepts each of them, and otherwise raises what the first
    rejected mapping raises. *)
Theorem block_mappings_first_failure forward_compat old_jaxlib bms :
  (check_block_mappings forward_compat old_jaxlib bms = Ok tt
   <-> Forall (fun bm => check_block_mapping forward_compat old_jaxlib bm
                         = Ok tt) bms)
  /\ forall accepted bm rest e,
       bms = accepted ++ bm :: rest ->
       Forall (fun bm => check_block_mapping forward_compat old_jaxlib bm
                         = Ok tt) accepted ->
       check_block_mapping forward_compat old_jaxlib bm = Raise e ->
       check_block_mappings forward_compat old_jaxlib bms = Raise e.
Proof.
  split.
  - induction bms as [| bm rest IH]; cbn [check_block_mappings].
    + split; [constructor | reflexivity].
    + destruct (check_block_mapping forward_compat old_jaxlib bm)
        as [[] | e] eqn:E; cbn [rbind].
      * rewrite IH. split; intros H.
        -- constructor; assumption.
        -- inversion H; assumption.
      * split; [discriminate |]. intros H. inversion H; subst. congruence.
  - intros accepted bm rest e -> Hacc Hbm.
    induction Hacc as [| a acc Ha _ IH]; cbn [app check_block_mappings].
    + rewrite Hbm. reflexivity.
    + rewrite Ha. cbn [rbind]. exact IH.
Qed.

Lemma block_mappings_first_failure_witness :
  exists msg,
    check_block_mappings false false
      [mkBlockMapping [Blocked 128; Blocked 128] [256; 256] 32 (Some VMEM) false;
       mkBlockMapping [Blocked 128; Blocked 50] [256; 100] 32 (Some VMEM) false;
       mkBlockMapping [] [] 32 (Some VMEM) false]
    = Raise (Exn ValueError msg).
Proof.
  eexists.
  apply (proj2 (block_mappings_first_failure false false _)
           [mkBlockMapping [Blocked 128; Blocked 128] [256; 256] 32 (Some VMEM)
              false]
           (mkBlockMapping [Blocked 128; Blocked 50] [256; 100] 32 (Some VMEM)
              false)
           [mkBlockMapping [] [] 32 (Some VMEM) false]);
    [reflexivity | repeat constructor | reflexivity].
Defined.


(** ** Element types *)

(** [_dtype_to_ir_type] returns no signed and no unsigned integer type:
    every integer type it returns is signless.  Passing
    [is_kernel_boundary] changes the result for booleans only, which
    then get the type of [BOOL_MEMREF_TYPE]. *)
Theorem dtype_to_ir_type_signless d is_kernel_boundary :
  match _dtype_to_ir_type d is_kernel_boundary with
  | IntegerType s _ => s = None
  | _ => True
  end
  /\ _dtype_to_ir_type d true
     = (if dtype_eqb d Bool_ then _dtype_to_ir_type BOOL_MEMREF_TYPE false
        else _dtype_to_ir_type d false).
Proof.
  split.
  - unfold _dtype_to_ir_type.
    destruct (is_semaphore_dtype d).
    + destruct d; exact I.
    + destruct (mlir_dtype_to_ir_type
                  (if is_kernel_boundary && dtype_eqb d Bool_
                   then BOOL_MEMREF_TYPE else d)); auto.
  - destruct d; reflexivity.
Qed.

(** ** Indexers *)

Lemma indexer_loop_arity c rbs :
  forall iter b entries rest b',
    indexer_loop c rbs iter b = Ok ((entries, rest), b') ->
    exists consumed,
      iter = consumed ++ rest
      /\ List.length consumed = unmapped_rank rbs
      /\ List.length entries = List.length rbs
      /\ List.length (filter (fun e => negb (snd e)) entries)
         = List.length (filter is_slice_index consumed).
Proof.
  induction rbs as [| s rbs IH]; intros iter b entries rest b' H.
  - injection H as <- <- <-. exists []. auto.
  - cbn [indexer_loop] in H.
    apply bind_ok in H. destruct H as ([entry iter1] & b1 & H1 & H).
    apply bind_ok in H. destruct H as ([entries1 iter2] & b2 & H2 & H).
    injection H as <- <- <-.
    destruct (IH _ _ _ _ _ H2) as (consumed & E & L1 & L2 & L3).
    destruct s as [| d].
    + apply bind_ok in H1. destruct H1 as (st & b0 & H0 & H1).
      injection H1 as <- <- <-.
      exists consumed. unfold unmapped_rank in *. cbn.
      repeat split; auto.
    + destruct iter as [| idx iter']; [discriminate |].
      apply bind_ok in H1. destruct H1 as (e0 & b0 & H0 & H1).
      injection H1 as <- <- <-.
      exists (idx :: consumed). subst iter'. unfold unmapped_rank in *.
      cbn [filter is_mapped_dim negb List.length app].
      split; [reflexivity |]. split; [congruence |]. split; [congruence |].
      assert (Hsq : negb (snd e0) = is_slice_index idx).
      { unfold _index_to_start_size_stride in H0.
        destruct idx as [start sz st | k | x | h sh].
        - apply bind_ok in H0. destruct H0 as (v & bb & _ & H0).
          injection H0 as <- <-. reflexivity.
        - apply bind_ok in H0. destruct H0 as (v & bb & _ & H0).
          injection H0 as <- <-. reflexivity.
        - apply bind_ok in H0. destruct H0 as (v & bb & _ & H0).
          injection H0 as <- <-. reflexivity.
        - destruct sh; [| discriminate].
          apply bind_ok in H0. destruct H0 as (v & bb & _ & H0).
          injection H0 as <- <-. reflexivity. }
      rewrite Hsq. destruct (is_slice_index idx); cbn [List.length];
        congruence.
Qed.

(** [_indexer_to_start_size_stride] succeeds only on an indexer that
    has exactly one index per block dimension that is not mapped; it
    then returns one start, size, stride and squeeze flag per block
    dimension, mapped ones included, and a new block shape with one
    entry per slice of the indexer. *)
Theorem indexer_arity indexer rbs cast_to_index b r b' :
  _indexer_to_start_size_stride indexer (Some rbs) cast_to_index b
  = Ok (r, b') ->
  List.length (indices indexer) = unmapped_rank rbs
  /\ List.length (sss_starts r) = List.length rbs
  /\ List.length (sss_sizes r) = List.length rbs
  /\ List.length (sss_strides r) = List.length rbs
  /\ List.length (sss_squeeze_dims r) = List.length rbs
  /\ List.length (sss_new_ref_block_shape r)
     = List.length (filter is_slice_index (indices indexer)).
Proof.
  unfold _indexer_to_start_size_stride. intros H.
  apply bind_ok in H. destruct H as ([entries rest] & b1 & H1 & H).
  destruct rest; [| discriminate].
  injection H as <- <-.
  destruct (indexer_loop_arity _ _ _ _ _ _ _ H1) as (consumed & E & L1 & L2 & L3).
  rewrite app_nil_r in E. subst consumed.
  cbn [sss_starts sss_sizes sss_strides sss_squeeze_dims
       sss_new_ref_block_shape].
  rewrite !length_map.
  split; [exact L1 |]. split; [exact L2 |]. split; [exact L2 |].
  split; [exact L2 |]. split; [exact L2 | exact L3].
Qed.

Lemma indexer_arity_witness :
  exists r b',
    _indexer_to_start_size_stride
      (mkNDIndexer [IInt 3; ISlice (Host (Py (PyInt 0))) (SInt 128) 1] [SInt 128])
      (Some [RMapped; RDim (SInt 8); RDim (SInt 128)]) true (mkBuilder 0 [])
    = Ok (r, b')
    /\ List.length (sss_starts r) = 3%nat
    /\ List.length (sss_new_ref_block_shape r) = 1%nat.
Proof.
  do 2 eexists. split; [reflexivity |].
  destruct (indexer_arity
              (mkNDIndexer [IInt 3; ISlice (Host (Py (PyInt 0))) (SInt 128) 1]
                 [SInt 128])
              [RMapped; RDim (SInt 8); RDim (SInt 128)] true (mkBuilder 0 [])
              _ _ eq_refl) as (_ & H1 & _ & _ & _ & H5).
  split; [exact H1 | exact H5].
Defined.

Lemma ir_type_eqb_index t : ir_type_eqb t IndexType = true -> t = IndexType.
Proof. destruct t; cbn; congruence. Qed.

Lemma ir_constant_type x ty b v b' :
  ir_constant x (Some ty) b = Ok (v, b') -> v_ty v = ty.
Proof.
  intros H. unfold ir_constant in H.
  destruct x as [[n | bb | f] | | s dt | k dt data];
    cbn in H; try (destruct (fits_int32 n); cbn in H); try discriminate;
    try (destruct dt; cbn in H; try discriminate);
    try (destruct k; cbn in H; try discriminate);
    injection H as <- <-; reflexivity.
Qed.

Lemma make_index_type s b v b' :
  _make_index s b = Ok (v, b') -> v_ty v = IndexType.
Proof.
  unfold _make_index. destruct s as [h | x].
  - destruct (isinstance_int h || is_ndarray h); [| discriminate].
    apply ir_constant_type.
  - destruct (ir_type_eqb (v_ty x) IndexType) eqn:E.
    + intros H. injection H as <- <-. apply ir_type_eqb_index. exact E.
    + intros H. cbn in H. injection H as <- <-. reflexivity.
Qed.

Lemma index_to_start_size_stride_type idx b e b' :
  _index_to_start_size_stride idx true b = Ok (e, b') ->
  v_ty (fst (fst (fst e))) = IndexType.
Proof.
  unfold _index_to_start_size_stride, _maybe_cast_to_index.
  destruct idx as [start sz st | k | x | h sh]; intros H.
  - apply bind_ok in H. destruct H as (v & bb & H0 & H).
    injection H as <- <-. exact (make_index_type _ _ _ _ H0).
  - apply bind_ok in H. destruct H as (v & bb & H0 & H).
    injection H as <- <-. exact (make_index_type _ _ _ _ H0).
  - apply bind_ok in H. destruct H as (v & bb & H0 & H).
    injection H as <- <-. exact (make_index_type _ _ _ _ H0).
  - destruct sh; [| discriminate].
    apply bind_ok in H. destruct H as (v & bb & H0 & H).
    injection H as <- <-. exact (make_index_type _ _ _ _ H0).
Qed.

Lemma indexer_loop_index_typed rbs :
  forall iter b entries rest b',
    indexer_loop true rbs iter b = Ok ((entries, rest), b') ->
    Forall (fun s => v_ty s = IndexType)
      (map (fun e => fst (fst (fst e))) entries).
Proof.
  induction rbs as [| s rbs IH]; intros iter b entries rest b' H.
  - injection H as <- <- <-. constructor.
  - cbn [indexer_loop] in H.
    apply bind_ok in H. destruct H as ([entry iter1] & b1 & H1 & H).
    apply bind_ok in H. destruct H as ([entries1 iter2] & b2 & H2 & H).
    injection H as <- <- <-. cbn [map]. constructor.
    + destruct s as [| d].
      * apply bind_ok in H1. destruct H1 as (st & b0 & H0 & H1).
        injection H1 as <- <- <-. exact (make_index_type _ _ _ _ H0).
      * destruct iter as [| idx iter']; [discriminate |].
        apply bind_ok in H1. destruct H1 as (e0 & b0 & H0 & H1).
        injection H1 as <- <- <-.
        exact (index_to_start_size_stride_type _ _ _ _ H0).
    + exact (IH _ _ _ _ _ H2).
Qed.

Lemma indexer_index_typed indexer rbs b r b' :
  _indexer_to_start_size_stride indexer rbs true b = Ok (r, b') ->
  Forall (fun s => v_ty s = IndexType) (sss_starts r).
Proof.
  unfold _indexer_to_start_size_stride. destruct rbs as [rbs |];
    [| discriminate].
  intros H. apply bind_ok in H. destruct H as ([entries rest] & b1 & H1 & H).
  destruct rest; [| discriminate].
  injection H as <- <-. cbn [sss_starts].
  exact (indexer_loop_index_typed _ _ _ _ _ _ H1).
Qed.


(** ** The load rule *)

Lemma load_smem_core ref starts aval_out b result b' :
  load_smem ref starts aval_out b = Ok (result, b') ->
  exists raw between load_op,
    v_ty raw = element_type (v_ty ref)
    /\ emitted b' = emitted b ++ load_op :: between
    /\ load_access raw ref starts [] load_op
    /\ forallb is_cast_op between = true
    /\ forall m idx,
         index_values m starts = Some idx ->
         exists m',
           exec_block (load_op :: between) m = Some (m', [], [])
           /\ get_value m' result
              = swap_result aval_out (v_ty raw) (m_mem m (v_name ref, idx, []))
           /\ m_mem m' = m_mem m.
Proof.
  intros H. unfold load_smem in H.
  destruct (aval_shape aval_out) as [| d sh] eqn:Hshape; [| discriminate].
  set (n := next_id b) in *.
  set (raw := mkValue (ResId n) (element_type (v_ty ref))).
  set (load_op := MemrefLoadOp raw ref starts).
  set (b2 := mkBuilder (S n) (emitted b ++ [load_op])).
  assert (E1 : fresh (element_type (v_ty ref)) b
               = Ok (raw, mkBuilder (S n) (emitted b))) by reflexivity.
  rewrite (bind_eq_ok _ _ _ _ _ E1) in H.
  assert (E2 : emit load_op (mkBuilder (S n) (emitted b)) = Ok (tt, b2))
    by reflexivity.
  rewrite (bind_eq_ok _ _ _ _ _ E2) in H.
  assert (Hraw : older raw (next_id b2)) by (cbn; lia).
  destruct (cast_load_exec _ _ _ _ _ H Hraw)
    as (Le & Hres & opsL & EL & CL & XL).
  exists raw, opsL, load_op.
  split; [reflexivity |].
  split; [rewrite EL; unfold b2; cbn [emitted];
          rewrite <- app_assoc; reflexivity |].
  split; [constructor |]. split; [exact CL |].
  intros m idx Hidx.
  set (ma := set_value m raw (m_mem m (v_name ref, idx, []))).
  destruct (XL ma) as (mb & XLb & Fb & Vb).
  exists mb. split; [| split].
  - rewrite exec_block_cons by reflexivity.
    cbn [exec_op load_op]. unfold do_load. rewrite Hidx. cbn [option_map].
    fold ma. rewrite XLb. reflexivity.
  - rewrite Vb. unfold ma. rewrite get_set_same. reflexivity.
  - destruct Fb as [Mb _]. exact Mb.
Qed.

Lemma load_vector_core ref starts sizes strides need_stride ref_dtype
      aval_out b result b' :
  load_vector ref starts sizes strides need_stride ref_dtype aval_out b
  = Ok (result, b') ->
  aval_dtype aval_out = ref_dtype ->
  let key := if need_stride then strides else [] in
  exists raw between load_op,
    element_type (v_ty raw) = element_type (_dtype_to_ir_type ref_dtype true)
    /\ emitted b' = emitted b ++ load_op :: between
    /\ load_access raw ref starts key load_op
    /\ forallb is_cast_op between = true
    /\ forall m idx,
         index_values m starts = Some idx ->
         exists m',
           exec_block (load_op :: between) m = Some (m', [], [])
           /\ get_value m' result
              = swap_result aval_out (v_ty raw)
                  (m_mem m (v_name ref, idx, key))
           /\ m_mem m' = m_mem m.
Proof.
  intros H Hdt key. unfold load_vector in H.
  apply bind_ok in H. destruct H as (load_shape & b0 & H0 & H).
  apply lift_ok in H0. destruct H0 as [_ ->].
  apply bind_ok in H. destruct H as (load_ty & b0 & H0 & H).
  apply lift_ok in H0. destruct H0 as [Hty ->].
  cbn [aval_shape aval_dtype] in *.
  assert (Helt : element_type load_ty
                 = element_type (_dtype_to_ir_type ref_dtype true)).
  { cbn in Hty. destruct load_shape; injection Hty as <-; reflexivity. }
  set (n := next_id b) in *.
  set (raw := mkValue (ResId n) load_ty).
  set (load_op := if need_stride then TpuStridedLoadOp raw ref starts strides
                  else VectorLoadOp raw ref starts).
  set (b2 := mkBuilder (S n) (emitted b ++ [load_op])).
  assert (E1 : fresh load_ty b = Ok (raw, mkBuilder (S n) (emitted b)))
    by reflexivity.
  rewrite (bind_eq_ok _ _ _ _ _ E1) in H.
  assert (E2 : (if need_stride
                then emit (TpuStridedLoadOp raw ref starts strides)
                else emit (VectorLoadOp raw ref starts))
                 (mkBuilder (S n) (emitted b)) = Ok (tt, b2))
    by (unfold b2, load_op; destruct need_stride; reflexivity).
  rewrite (bind_eq_ok _ _ _ _ _ E2) in H.
  apply bind_ok in H. destruct H as (val2 & b3 & HR & H).
  assert (R : (next_id b2 <= next_id b3)%nat
              /\ older val2 (next_id b3)
              /\ element_type (v_ty val2) = element_type (v_ty raw)
              /\ exists opsR,
                   emitted b3 = emitted b2 ++ opsR
                   /\ forallb is_cast_op opsR = true
                   /\ forall m,
                        exists m',
                          exec_block opsR m = Some (m', [], [])
                          /\ frame (next_id b2) m m'
                          /\ get_value m' val2 = get_value m raw).
  { destruct (negb (array_aval_eqb (mkArrayAval load_shape ref_dtype)
                      aval_out)).
    - cbn in HR. injection HR as <- <-. unfold b2.
      cbn [next_id emitted v_ty].
      split; [lia |]. split; [cbn; lia |].
      split; [cbn [element_type raw v_ty]; rewrite Helt, Hdt; reflexivity |].
      eexists. split; [reflexivity |]. split; [reflexivity |].
      intros m. eexists. split; [reflexivity |]. split.
      + apply frame_set_value. cbn. lia.
      + apply get_set_same.
    - injection HR as <- <-. unfold b2. cbn [next_id emitted].
      split; [lia |]. split; [cbn; lia |]. split; [reflexivity |].
      exists []. rewrite app_nil_r.
      split; [reflexivity |]. split; [reflexivity |].
      intros m. exists m.
      split; [reflexivity |]. split; [apply frame_refl | reflexivity]. }
  destruct R as (Le3 & Hv2 & Helt2 & opsR & ER & CR & XR).
  destruct (cast_load_exec _ _ _ _ _ H Hv2)
    as (Le4 & Hres & opsL & EL & CL & XL).
  exists raw, (opsR ++ opsL), load_op.
  split; [exact Helt |].
  split; [rewrite EL, ER; unfold b2; cbn [emitted];
          rewrite <- !app_assoc; reflexivity |].
  split; [unfold load_op, key; destruct need_stride; constructor |].
  split; [rewrite forallb_app, CR, CL; reflexivity |].
  intros m idx Hidx.
  set (loc := (v_name ref, idx, key)).
  set (ma := set_value m raw (m_mem m loc)).
  destruct (XR ma) as (mb & XRb & Fb & Vb).
  destruct (XL mb) as (mc & XLc & Fc & Vc).
  exists mc. split; [| split].
  - rewrite exec_block_cons
      by (unfold load_op; destruct need_stride; reflexivity).
    assert (Eload : exec_op load_op m = Some (ma, [])).
    { unfold load_op, ma, loc, key.
      destruct need_stride; cbn [exec_op]; unfold do_load; rewrite Hidx;
        reflexivity. }
    rewrite Eload.
    rewrite (exec_block_casts opsR opsL ma mb mc CR XRb XLc). reflexivity.
  - rewrite Vc, (swap_result_element_type _ _ _ _ Helt2), Vb.
    unfold ma. rewrite get_set_same. reflexivity.
  - destruct Fc as [Mc _]. destruct Fb as [Mb _]. rewrite Mc, Mb.
    reflexivity.
Qed.

Lemma setup_ops_no_access ops :
  forallb is_setup_op ops = true ->
  filter is_memory_access ops = [].
Proof.
  induction ops as [| o r IH]; cbn; [reflexivity |].
  intros H. apply andb_prop in H. destruct H as [Ho Hr].
  rewrite (IH Hr). destruct o; try discriminate; reflexivity.
Qed.

Lemma cast_ops_no_access ops :
  forallb is_cast_op ops = true ->
  filter is_memory_access ops = [].
Proof.
  induction ops as [| o r IH]; cbn; [reflexivity |].
  intros H. apply andb_prop in H. destruct H as [Ho Hr].
  rewrite (IH Hr). destruct o; try discriminate; reflexivity.
Qed.

(** The load rule fails with [NotImplementedError] when a mask is
    supplied.  Without a mask, whenever it returns a value, what it
    appended is set-up operations, then one load of the target location
    ([memref.load] for SMEM, [vector.load] or the strided load
    otherwise) with start indices of index type, then casts of register
    values: the load is the only memory access and nothing is stored.
    Run on any machine in which the start indices have values, these
    operations leave memory as it was and put in the rule's result what
    the cell holds (for booleans: the cell compared with zero,
    not-equal). *)
Theorem load_reads_only ref indexers mask ref_dtype indexers_avals aval_out
        ref_block_shape b :
  (mask <> None -> indexers <> [] -> indexers_avals <> [] ->
   _load_lowering_rule ref indexers mask ref_dtype indexers_avals
     (OutArray aval_out) ref_block_shape b
   = Raise (Exn NotImplementedError ""))
  /\
  (forall result b',
     _load_lowering_rule ref indexers mask ref_dtype indexers_avals
       (OutArray aval_out) ref_block_shape b = Ok (LoadedValue result, b') ->
     aval_dtype aval_out = ref_dtype ->
     mask = None
     /\ exists setup load_op between ref' starts key raw,
          emitted b' = emitted b ++ setup ++ load_op :: between
          /\ forallb is_setup_op setup = true
          /\ load_access raw ref' starts key load_op
          /\ forallb is_cast_op between = true
          /\ Forall (fun s => v_ty s = IndexType) starts
          /\ filter is_memory_access (setup ++ load_op :: between)
             = [load_op]
          /\ forall m idx,
               index_values m starts = Some idx ->
               exists m',
                 exec_block (load_op :: between) m = Some (m', [], [])
                 /\ get_value m' result
                    = swap_result aval_out (v_ty raw)
                        (m_mem m (v_name ref', idx, key))
                 /\ m_mem m' = m_mem m).
Proof.
  split.
  - intros Hmask Hix Hav.
    destruct (unpack_last_ok indexers Hix) as (init & idx & E1).
    destruct (unpack_last_ok indexers_avals Hav) as (init' & idx' & E2).
    destruct mask as [mk |]; [| contradiction].
    unfold _load_lowering_rule.
    assert (L1 : lift (unpack_last indexers) b = Ok ((init, idx), b))
      by (unfold lift; rewrite E1; reflexivity).
    assert (L2 : lift (unpack_last indexers_avals) b = Ok ((init', idx'), b))
      by (unfold lift; rewrite E2; reflexivity).
    rewrite (bind_eq_ok _ _ _ _ _ L1). cbv beta iota.
    rewrite (bind_eq_ok _ _ _ _ _ L2). reflexivity.
  - intros result b' H Hdt.
    unfold _load_lowering_rule in H.
    apply bind_ok in H. destruct H as ([slice_indexers idx] & b0 & H0 & H).
    apply lift_ok in H0. destruct H0 as [U1 ->].
    apply bind_ok in H. destruct H as ([init' idx_aval] & b0 & H0 & H).
    apply lift_ok in H0. destruct H0 as [U2 ->].
    destruct mask as [mk |]; [discriminate |].
    split; [reflexivity |].
    apply bind_ok in H. destruct H as ([ref1 rbs1] & b1 & HI & H).
    apply bind_ok in H. destruct H as (smem & b1' & H0 & H).
    apply lift_ok in H0. destruct H0 as [Hsm ->].
    destruct (negb smem && block_shape_is_empty rbs1); [discriminate |].
    destruct (existsb is_int_index_aval idx_aval); [discriminate |].
    apply bind_ok in H. destruct H as (r & b3 & HR & H).
    apply bind_ok in H. destruct H as (v & b4 & HL & H).
    injection H as -> ->.
    pose proof (index_ref_steps _ _ _ _ _ _ _ HI) as S1.
    destruct (indexer_to_start_size_stride_steps _ _ _ _ _ _ HR) as [S3 _].
    pose proof (indexer_index_typed _ _ _ _ _ HR) as Hidx.
    destruct (steps_trans _ _ _ S1 S3) as [_ (setup & Esetup & Csetup & _)].
    assert (C : exists raw between load_op key,
               emitted b' = emitted b3 ++ load_op :: between
               /\ load_access raw ref1 (sss_starts r) key load_op
               /\ forallb is_cast_op between = true
               /\ forall m idx0,
                    index_values m (sss_starts r) = Some idx0 ->
                    exists m',
                      exec_block (load_op :: between) m = Some (m', [], [])
                      /\ get_value m' result
                         = swap_result aval_out (v_ty raw)
                             (m_mem m (v_name ref1, idx0, key))
                      /\ m_mem m' = m_mem m).
    { destruct smem.
      - destruct (load_smem_core _ _ _ _ _ _ HL)
          as (raw & between & load_op & _ & E & P & Cc & X).
        exists raw, between, load_op, []. auto.
      - destruct (load_vector_core _ _ _ _ _ _ _ _ _ _ HL Hdt)
          as (raw & between & load_op & _ & E & P & Cc & X).
        exists raw, between, load_op,
          (if negb (forallb (fun s => s =? 1) (sss_strides r))
           then sss_strides r else []).
        auto. }
    destruct C as (raw & between & load_op & key & E & P & Cc & X).
    exists setup, load_op, between, ref1, (sss_starts r), key, raw.
    split; [rewrite E, Esetup, <- app_assoc; reflexivity |].
    split; [exact Csetup |]. split; [exact P |]. split; [exact Cc |].
    split; [exact Hidx |]. split; [| exact X].
    rewrite filter_app, (setup_ops_no_access _ Csetup). cbn [app filter].
    rewrite (cast_ops_no_access _ Cc).
    destruct P; reflexivity.
Qed.

Lemma load_reads_only_witness :
  example_load (Some example_mask) (mkBuilder 0 [])
  = Raise (Exn NotImplementedError "")
  /\ exists result b' setup load_op between,
       example_load None (mkBuilder 0 []) = Ok (LoadedValue result, b')
       /\ emitted b' = [] ++ setup ++ load_op :: between
       /\ filter is_memory_access (setup ++ load_op :: between) = [load_op].
Proof.
  split.
  - apply (proj1 (load_reads_only example_vmem_ref [example_row_indexer]
                    (Some example_mask) Float32 [[AvalArray []; AvalSlice]]
                    (mkArrayAval [128] Float32)
                    (Some [RDim (SInt 8); RDim (SInt 128)]) (mkBuilder 0 [])));
      intros H; discriminate H.
  - destruct (example_load None (mkBuilder 0 [])) as [[[result | ks sc] b'] | e]
      eqn:E; [| vm_compute in E; discriminate E
              | vm_compute in E; discriminate E].
    destruct (proj2 (load_reads_only example_vmem_ref [example_row_indexer]
                       None Float32 [[AvalArray []; AvalSlice]]
                       (mkArrayAval [128] Float32)
                       (Some [RDim (SInt 8); RDim (SInt 128)])
                       (mkBuilder 0 []))
                result b' E eq_refl)
      as (_ & setup & load_op & between & ref' & starts & key & raw
          & Hops & _ & _ & _ & _ & Hacc & _).
    exists result, b', setup, load_op, between.
    split; [reflexivity |]. split; [exact Hops | exact Hacc].
Defined.

(** ** Booleans stored and loaded back *)








(** With [cast_to_index=True], as the load and swap rules call it,
    every start index that [_indexer_to_start_size_stride] returns has
    the index type: constants are created with it, values that have it
    are passed on and the others go through [arith.index_cast]. *)
Theorem indexer_starts_index_typed indexer rbs b r b' :
  _indexer_to_start_size_stride indexer rbs true b = Ok (r, b') ->
  Forall (fun s => v_ty s = IndexType) (sss_starts r)
  /\ exists ops,
       emitted b' = emitted b ++ ops
       /\ forallb is_setup_op ops = true
       /\ filter is_memory_access ops = [].
Proof.
  intros H. split; [exact (indexer_index_typed _ _ _ _ _ H) |].
  destruct (indexer_to_start_size_stride_steps _ _ _ _ _ _ H)
    as [[_ (ops & E & C & _)] _].
  exists ops. split; [exact E |]. split; [exact C |].
  exact (setup_ops_no_access _ C).
Qed.

Lemma indexer_starts_index_typed_witness :
  exists r b',
    _indexer_to_start_size_stride
      (mkNDIndexer [IValue example_index; ISlice (Host (Py (PyInt 0))) (SInt 128) 1]
         [SInt 128])
      (Some [RDim (SInt 8); RDim (SInt 128)]) true (mkBuilder 0 [])
    = Ok (r, b')
    /\ Forall (fun s => v_ty s = IndexType) (sss_starts r).
Proof.
  do 2 eexists. split; [reflexivity |].
  exact (proj1 (indexer_starts_index_typed
                  (mkNDIndexer
                     [IValue example_index;
                      ISlice (Host (Py (PyInt 0))) (SInt 128) 1]
                     [SInt 128])
                  (Some [RDim (SInt 8); RDim (SInt 128)]) (mkBuilder 0 [])
                  _ _ eq_refl)).
Defined.

(** ** Slicing references *)

Lemma slice_memref_type ref dt indexer rbs b out rbs' b' :
  _slice_memref ref dt indexer rbs b = Ok ((out, rbs'), b') ->
  exists shape space,
    v_ty out = MemRefType shape (_dtype_to_ir_type dt false) space
    /\ type_memory_space (v_ty ref) = Ok space.
Proof.
  unfold _slice_memref. destruct rbs as [rbs |]; [| discriminate].
  intros H. apply bind_ok in H. destruct H as (r & b1 & H1 & H).
  destruct (negb (forallb (fun s => s =? 1) (sss_strides r)));
    [discriminate |].
  apply bind_ok in H. destruct H as (space & b2 & H2 & H).
  apply lift_ok in H2. destruct H2 as [Hsp ->].
  destruct (existsb (fun sq => sq) (sss_squeeze_dims r));
    cbn in H; injection H as <- <- <-;
    do 2 eexists; (split; [reflexivity | exact Hsp]).
Qed.

(** [_index_ref] computes views only: whatever the indexers are, the
    operations it appends are constants, [tpu.memref_slice] and
    [tpu.memref_squeeze], none of which accesses memory; the reference
    it returns lies in the memory space of the reference it was given,
    and, when there is an indexer, its element type is
    [_dtype_to_ir_type(ref_aval.dtype)]. *)
Theorem index_ref_views_only dt indexers :
  forall ref rbs b out rbs' b',
    _index_ref ref dt rbs indexers b = Ok ((out, rbs'), b') ->
    (exists ops,
        emitted b' = emitted b ++ ops
        /\ forallb is_setup_op ops = true
        /\ filter is_memory_access ops = [])
    /\ type_memory_space (v_ty out) = type_memory_space (v_ty ref)
    /\ match indexers with
       | [] => out = ref /\ rbs' = rbs
       | _ :: _ =>
           exists shape space,
             v_ty out = MemRefType shape (_dtype_to_ir_type dt false) space
       end.
Proof.
  intros ref rbs b out rbs' b' H.
  split.
  { destruct (index_ref_steps _ _ _ _ _ _ _ H) as [_ (ops & E & C & _)].
    exists ops. split; [exact E |]. split; [exact C |].
    exact (setup_ops_no_access _ C). }
  revert ref rbs b out rbs' b' H.
  induction indexers as [| ix rest IH]; intros ref rbs b out rbs' b' H.
  - injection H as <- <- <-. auto.
  - cbn [_index_ref] in H.
    apply bind_ok in H. destruct H as ([ref1 rbs1] & b1 & H1 & H).
    destruct (slice_memref_type _ _ _ _ _ _ _ _ H1) as (sh & sp & T1 & Sp).
    destruct (IH _ _ _ _ _ _ H) as [Hsp Hrest].
    split.
    + rewrite Hsp, T1, Sp. reflexivity.
    + destruct rest as [| ix' rest'].
      * destruct Hrest as [-> _]. eauto.
      * exact Hrest.
Qed.

Lemma index_ref_views_only_witness :
  exists out rbs' b',
    _index_ref example_smem_ref Int32 (Some [RDim (SInt 4)])
      [mkNDIndexer [ISlice (Host (Py (PyInt 1))) (SInt 2) 1] [SInt 2]]
      (mkBuilder 0 [])
    = Ok ((out, rbs'), b')
    /\ type_memory_space (v_ty out) = Ok SMEM.
Proof.
  do 3 eexists. split; [reflexivity |].
  exact (proj1 (proj2 (index_ref_views_only Int32
                         [mkNDIndexer [ISlice (Host (Py (PyInt 1))) (SInt 2) 1]
                            [SInt 2]]
                         example_smem_ref (Some [RDim (SInt 4)])
                         (mkBuilder 0 []) _ _ _ eq_refl))).
Defined.


(** ** The for rule *)

Lemma next_non_ref_args_ok args :
  forall results,
    (List.length (filter (fun a => negb (snd a)) args)
     <= List.length results)%nat ->
    exists args',
      next_non_ref_args args results = Ok args'
      /\ map snd args' = map snd args
      /\ forall k a,
           nth_error args k = Some (a, true) ->
           nth_error args' k = Some (a, true).
Proof.
  induction args as [| [a is_ref] rest IH]; intros results Hlen.
  - exists []. cbn. auto.
  - cbn [next_non_ref_args]. destruct is_ref; cbn [negb].
    + cbn in Hlen. destruct (IH results Hlen) as (r & E & Hs & Hk).
      rewrite E. cbn [rbind]. eexists. split; [reflexivity |].
      split; [cbn; rewrite Hs; reflexivity |].
      intros [| k] x Hx; cbn in *; [exact Hx | exact (Hk k x Hx)].
    + cbn in Hlen. destruct results as [| v it]; [cbn in Hlen; lia |].
      cbn in Hlen. destruct (IH it) as (r & E & Hs & Hk); [lia |].
      rewrite E. cbn [rbind]. eexists. split; [reflexivity |].
      split; [cbn; rewrite Hs; reflexivity |].
      intros [| k] x Hx; cbn in *; [discriminate | exact (Hk k x Hx)].
Qed.

Lemma for_indices_fits nsteps reverse :
  nsteps <= 2 ^ 31 ->
  Forall (fun i => fits_int32 i = true) (for_indices nsteps reverse).
Proof.
  intros Hn. unfold for_indices, py_range2. apply Forall_forall.
  intros i Hi. apply in_map_iff in Hi. destruct Hi as (j & <- & Hj).
  apply in_map_iff in Hj. destruct Hj as (k & <- & Hk).
  apply in_seq in Hk. apply fits_int32_spec.
  destruct reverse; lia.
Qed.

Lemma for_loop_body_run block_shapes jaxpr indices :
  Forall (fun i => fits_int32 i = true) indices ->
  forall args b,
    (List.length (filter (fun a => negb (snd a)) args)
     <= List.length (sj_out_types jaxpr))%nat ->
    exists out b' ops,
      for_loop_body block_shapes jaxpr indices args b = Ok (out, b')
      /\ emitted b' = emitted b ++ ops
      /\ for_iterations block_shapes jaxpr indices args ops out
      /\ map snd out = map snd args
      /\ forall k a,
           nth_error args k = Some (a, true) ->
           nth_error out k = Some (a, true).
Proof.
  induction 1 as [| i rest Hi _ IH]; intros args b Hlen.
  - exists args, b, []. cbn. rewrite app_nil_r.
    split; [reflexivity |]. split; [reflexivity |].
    split; [constructor | auto].
  - cbn [for_loop_body].
    set (iv := mkValue (ResId (next_id b)) i32).
    set (b1 := mkBuilder (S (next_id b))
                 (emitted b
                  ++ [ArithConstantOp iv
                        (IntegerAttr i32 (NpArrayOf (PyInt i) Int32))])).
    assert (Hc : ir_constant (Py (PyInt i)) None b = Ok (iv, b1))
      by exact (ir_constant_int_default i b Hi).
    rewrite (bind_eq_ok _ _ _ _ _ Hc).
    destruct (jaxpr_subcomp_call_run (Some [] :: block_shapes) jaxpr
                (iv :: map fst args) b1) as (results & Hr & Hty).
    rewrite (bind_eq_ok _ _ _ _ _ Hr).
    match type of Hr with _ = Ok (_, ?b2') => set (b2 := b2') in * end.
    destruct (next_non_ref_args_ok args results) as (args' & En & Hs & Hk).
    { rewrite <- (length_map v_ty results), Hty. exact Hlen. }
    assert (Hl : lift (next_non_ref_args args results) b2 = Ok (args', b2))
      by (unfold lift; rewrite En; reflexivity).
    rewrite (bind_eq_ok _ _ _ _ _ Hl).
    assert (Hlen' : (List.length (filter (fun a => negb (snd a)) args')
                     <= List.length (sj_out_types jaxpr))%nat).
    { assert (F : forall (l1 l2 : list (value * bool)),
                 map snd l1 = map snd l2 ->
                 List.length (filter (fun a => negb (snd a)) l1)
                 = List.length (filter (fun a => negb (snd a)) l2)).
      { induction l1 as [| [x s] l1 IHl]; intros [| [y s'] l2] Hm;
          try discriminate; [reflexivity |].
        cbn in Hm. injection Hm as -> Hm. cbn.
        destruct (negb s'); cbn; rewrite (IHl l2 Hm); reflexivity. }
      rewrite (F args' args Hs). exact Hlen. }
    destruct (IH args' b2 Hlen') as (out & b' & ops & Hrest & E & Hit & Hs' & Hk').
    exists out, b'. eexists. split; [exact Hrest |]. split.
    { rewrite E. subst b2 b1. cbn [emitted].
      rewrite <- !app_assoc. cbn [app]. reflexivity. }
    split; [econstructor; [reflexivity | exact Hty | exact En | exact Hit] |].
    split; [congruence |].
    intros k a Ha. apply Hk', Hk, Ha.
Qed.

Lemma for_iterations_counts block_shapes jaxpr indices args ops out :
  for_iterations block_shapes jaxpr indices args ops out ->
  count_ops is_subcomp ops = List.length indices
  /\ count_ops is_structured_loop ops = 0%nat.
Proof.
  unfold count_ops.
  induction 1 as [| i rest args iv results args' ops out _ _ _ _ [IH1 IH2]];
    cbn.
  - auto.
  - rewrite IH1, IH2. auto.
Qed.

Lemma for_indices_reverse nsteps :
  for_indices nsteps true = rev (for_indices nsteps false).
Proof.
  unfold for_indices, py_range2. rewrite Z.sub_0_r.
  rewrite !map_map. cbn [Z.add].
  set (n := Z.to_nat nsteps).
  destruct (Z_le_gt_dec 0 nsteps) as [Hn | Hn].
  - assert (E : nsteps = Z.of_nat n) by (unfold n; lia).
    rewrite E. clear E Hn. generalize n. clear n nsteps.
    intros n. rewrite <- map_rev. 
    induction n as [| n IH].
    + reflexivity.
    + rewrite seq_S at 2. rewrite rev_app_distr. cbn [rev app map Nat.add].
      cbn [seq]. cbn [map]. f_equal; [lia |].
      rewrite <- seq_shift, map_map. rewrite <- IH.
      apply map_ext. intros k. lia.
  - assert (E : n = 0%nat) by (unfold n; lia). rewrite E. reflexivity.
Qed.

(** The for rule unrolls the loop completely.  Whenever the discharged
    body returns at least as many values as there are arguments that
    are not references, and the indices fit the 32-bit constants made
    of them, the rule succeeds and appends, for each of the
    [nsteps] indices in turn, a 32-bit constant of the index and one
    copy of the body on the index and the current arguments, with no
    [scf.for]; with [reverse] the indices are visited in the opposite
    order.  The body's results replace the arguments that are not
    references, and every reference is returned as it was passed. *)
Theorem for_rule_unrolls block_shapes jaxpr args nsteps reverse b :
  (List.length (filter (fun a => negb (snd a)) args)
   <= List.length (sj_out_types jaxpr))%nat ->
  nsteps <= 2 ^ 31 ->
  exists out b' ops final,
    _for_lowering_rule block_shapes jaxpr args nsteps reverse b = Ok (out, b')
    /\ emitted b' = emitted b ++ ops
    /\ for_iterations block_shapes jaxpr (for_indices nsteps reverse) args
         ops final
    /\ out = map fst final
    /\ count_ops is_subcomp ops = Z.to_nat nsteps
    /\ count_ops is_structured_loop ops = 0%nat
    /\ for_indices nsteps true = rev (for_indices nsteps false)
    /\ forall k a,
         nth_error args k = Some (a, true) -> nth_error out k = Some a.
Proof.
  intros Hlen Hsteps.
  destruct (for_loop_body_run block_shapes jaxpr (for_indices nsteps reverse)
              (for_indices_fits nsteps reverse Hsteps) args b Hlen)
    as (final & b' & ops & E & Eops & Hit & Hs & Hk).
  exists (map fst final), b', ops, final.
  split; [unfold _for_lowering_rule; rewrite (bind_eq_ok _ _ _ _ _ E);
          reflexivity |].
  split; [exact Eops |]. split; [exact Hit |]. split; [reflexivity |].
  destruct (for_iterations_counts _ _ _ _ _ _ Hit) as [C1 C2].
  split.
  { rewrite C1. unfold for_indices. rewrite length_map, length_py_range2.
    f_equal. lia. }
  split; [exact C2 |]. split; [apply for_indices_reverse |].
  intros k a Ha. rewrite nth_error_map, (Hk k a Ha). reflexivity.
Qed.

Lemma for_rule_unrolls_witness :
  exists out b' ops,
    _for_lowering_rule [None; Some [RDim (SInt 8)]] example_for_body
      [(example_carry, false); (example_vmem_ref, true)] 3 true
      (mkBuilder 0 [])
    = Ok (out, b')
    /\ emitted b' = [] ++ ops
    /\ count_ops is_subcomp ops = 3%nat
    /\ nth_error out 1 = Some example_vmem_ref.
Proof.
  destruct (for_rule_unrolls [None; Some [RDim (SInt 8)]] example_for_body
              [(example_carry, false); (example_vmem_ref, true)] 3 true
              (mkBuilder 0 []) (le_n 1))
    as (out & b' & ops & final & E & Eops & _ & _ & C & _ & _ & Hk).
  { cbn. lia. }
  exists out, b', ops.
  split; [exact E |]. split; [exact Eops |]. split; [exact C |].
  exact (Hk 1%nat example_vmem_ref eq_refl).
Defined.


(** ** The scan rule *)

(** The scan rule rejects, in this order, scans with extensive
    operands, reversed scans and scans whose jaxpr has constants, each
    with [NotImplementedError].  A scan matched with a loop index that
    lowers returns, in front of the results of the loop, a 32-bit
    constant holding the trip count [length], created after the loop
    and whatever the start of the loop index is; a scan without loop
    index returns the results of the loop alone. *)
Theorem scan_rule_final_index block_shapes num_extensive reverse
        jaxpr_has_consts matched consts loop_index args length unroll b :
  (num_extensive <> 0 ->
   _scan_lowering_rule block_shapes num_extensive reverse jaxpr_has_consts
     matched consts loop_index args length unroll b
   = Raise (Exn NotImplementedError ""))
  /\ (reverse = true ->
      _scan_lowering_rule block_shapes num_extensive reverse jaxpr_has_consts
        matched consts loop_index args length unroll b
      = Raise (Exn NotImplementedError ""))
  /\ (jaxpr_has_consts = true ->
      _scan_lowering_rule block_shapes num_extensive reverse jaxpr_has_consts
        matched consts loop_index args length unroll b
      = Raise (Exn NotImplementedError ""))
  /\ (forall results b',
        _scan_lowering_rule block_shapes num_extensive reverse
          jaxpr_has_consts matched consts loop_index args length unroll b
        = Ok (results, b') ->
        exists jaxpr consts' args' b1 b2 out b3,
          matched = Ok jaxpr
          /\ mapM (fun xv => _ensure_mlir_value (fst xv) (snd xv)) consts b
             = Ok (consts', b1)
          /\ mapM (fun xv => _ensure_mlir_value (fst xv) (snd xv)) args b1
             = Ok (args', b2)
          /\ _lower_jaxpr_to_for_loop block_shapes jaxpr
               (match loop_index with Some s => s | None => StaticInt 0 end)
               (StaticInt length) consts' args'
               (match loop_index with Some _ => true | None => false end)
               unroll b2
             = Ok (out, b3)
          /\ match loop_index with
             | Some _ =>
                 exists c,
                   results = c :: out
                   /\ v_ty c = i32
                   /\ emitted b'
                      = emitted b3
                        ++ [ArithConstantOp c
                              (IntegerAttr i32 (NpArrayOf (PyInt length) Int32))]
             | None => results = out /\ b' = b3
             end).
Proof.
  unfold _scan_lowering_rule.
  split; [| split; [| split]].
  - intros H. destruct (num_extensive =? 0) eqn:E; [lia | reflexivity].
  - intros ->. destruct (negb (num_extensive =? 0)); reflexivity.
  - intros ->. destruct (negb (num_extensive =? 0)); [reflexivity |].
    destruct reverse; reflexivity.
  - intros results b' H.
    destruct (negb (num_extensive =? 0)); [discriminate |].
    destruct reverse; [discriminate |].
    destruct jaxpr_has_consts; [discriminate |].
    apply bind_ok in H. destruct H as (jaxpr & b0 & H0 & H).
    apply lift_ok in H0. destruct H0 as [Hm ->].
    apply bind_ok in H. destruct H as (consts' & b1 & H1 & H).
    apply bind_ok in H. destruct H as (args' & b2 & H2 & H).
    apply bind_ok in H. destruct H as (out & b3 & H3 & H).
    exists jaxpr, consts', args', b1, b2, out, b3.
    split; [exact Hm |]. split; [exact H1 |]. split; [exact H2 |].
    split; [exact H3 |].
    destruct loop_index as [start |].
    + apply bind_ok in H. destruct H as (c & b4 & Hc & H).
      apply ir_constant_int_ok in Hc. destruct Hc as (_ & -> & ->).
      injection H as <- <-. eexists.
      split; [reflexivity |]. split; reflexivity.
    + injection H as <- <-. auto.
Qed.

Lemma scan_rule_final_index_witness :
  exists c out b',
    _scan_lowering_rule [None; None] 0 false false (Ok example_body) []
      (Some (StaticInt 5)) [(IR example_carry, Float32)] 3 3 (mkBuilder 0 [])
    = Ok (c :: out, b')
    /\ In (ArithConstantOp c (IntegerAttr i32 (NpArrayOf (PyInt 3) Int32)))
         (emitted b').
Proof.
  destruct (_scan_lowering_rule [None; None] 0 false false (Ok example_body) []
              (Some (StaticInt 5)) [(IR example_carry, Float32)] 3 3
              (mkBuilder 0 [])) as [[results b'] | e] eqn:E;
    [| vm_compute in E; discriminate E].
  destruct (proj2 (proj2 (proj2
              (scan_rule_final_index [None; None] 0 false false
                 (Ok example_body) [] (Some (StaticInt 5))
                 [(IR example_carry, Float32)] 3 3 (mkBuilder 0 []))))
              results b' E)
    as (jaxpr & consts' & args' & b1 & b2 & out & b3 & _ & _ & _ & _
        & c & -> & _ & Eops).
  exists c, out, b'. split; [reflexivity |].
  rewrite Eops. apply in_or_app. right. left. reflexivity.
Defined.

(** ** While loops matched as counted loops *)

Lemma for_loop_dynamic_run bs jaxpr lb n consts args b :
  exists ubd step results iv inner_args inner_out b',
    _lower_jaxpr_to_for_loop bs jaxpr (Dynamic lb) (Dynamic n) consts args
      true 1 b
    = Ok (results, b')
    /\ emitted b'
       = emitted b
         ++ [ArithAddIOp ubd lb n;
             ArithConstantOp step
               (IntegerAttr i32 (NpArrayOf (PyInt 1) Int32));
             ScfForOp results lb ubd step args iv inner_args
               [SubcompOp inner_out bs jaxpr
                  (map IR (consts ++ iv :: inner_args));
                ScfYieldOp inner_out]]
    /\ ubd = mkValue (ResId (next_id b)) (v_ty lb)
    /\ map v_ty results = map v_ty args
    /\ (next_id b <= next_id b')%nat.
Proof.
  unfold _lower_jaxpr_to_for_loop.
  change (negb (1 =? 1)) with false. cbv iota.
  set (ubd := mkValue (ResId (next_id b)) (v_ty lb)).
  set (step := mkValue (ResId (S (next_id b))) i32).
  set (c_one := ArithConstantOp step
                  (IntegerAttr i32 (NpArrayOf (PyInt 1) Int32))).
  set (b3 := mkBuilder (S (next_id b)) (emitted b ++ [ArithAddIOp ubd lb n])).
  set (b4 := mkBuilder (S (S (next_id b)))
               ((emitted b ++ [ArithAddIOp ubd lb n]) ++ [c_one])).
  assert (H1 : ensure_index (Dynamic lb) b = Ok (lb, b)) by reflexivity.
  assert (H2 : ensure_index (Dynamic n) b = Ok (n, b)) by reflexivity.
  assert (H3 : fresh (v_ty lb) b
               = Ok (ubd, mkBuilder (S (next_id b)) (emitted b)))
    by reflexivity.
  assert (H4 : emit (ArithAddIOp ubd lb n)
                 (mkBuilder (S (next_id b)) (emitted b))
               = Ok (tt, b3)) by reflexivity.
  assert (H5 : ir_constant (Py (PyInt 1)) (Some i32) b3 = Ok (step, b4))
    by reflexivity.
  destruct (fresh_list_run (map v_ty args) b4) as (results & Hres & Hrty & _).
  match type of Hres with _ = Ok (_, ?x) => set (b5 := x) in * end.
  set (iv := mkValue (ResId (next_id b5)) (v_ty lb)).
  set (b6 := mkBuilder (S (next_id b5)) (emitted b5)).
  assert (H6 : fresh (v_ty lb) b5 = Ok (iv, b6)) by reflexivity.
  destruct (fresh_list_run (map v_ty args) b6) as (inner & Hinn & Hity & _).
  match type of Hinn with _ = Ok (_, ?x) => set (b7 := x) in * end.
  destruct (_run_body_run bs jaxpr consts true iv inner
              (mkBuilder (next_id b7) []))
    as (inner_out & Hbody & _).
  match type of Hbody with _ = Ok (_, ?x) => set (b8 := x) in * end.
  exists ubd, step, results, iv, inner, inner_out.
  exists (mkBuilder (next_id b8)
            (emitted b7
             ++ [ScfForOp results lb ubd step args iv inner
                   (emitted b8 ++ [ScfYieldOp inner_out])])).
  split.
  - rewrite (bind_eq_ok _ _ _ _ _ H1), (bind_eq_ok _ _ _ _ _ H2),
      (bind_eq_ok _ _ _ _ _ H3), (bind_eq_ok _ _ _ _ _ H4),
      (bind_eq_ok _ _ _ _ _ H5), (bind_eq_ok _ _ _ _ _ Hres),
      (bind_eq_ok _ _ _ _ _ H6), (bind_eq_ok _ _ _ _ _ Hinn).
    unfold bind at 1, in_region. rewrite (bind_eq_ok _ _ _ _ _ Hbody).
    reflexivity.
  - subst b8 b7 b6 b5 b4 b3. cbn [emitted next_id].
    rewrite <- !app_assoc. cbn [app].
    split; [reflexivity |]. split; [reflexivity |].
    split; [exact Hrty | lia].
Qed.

(** A while loop matched as a counted loop is never unrolled: the rule
    computes the trip count [ub - lb], then the upper bound
    [lb + (ub - lb)], and emits exactly one [scf.for] from [lb] to that
    bound with step one around one copy of the body; it returns [ub]
    twice, for the counter and the bound, in front of the results of
    the loop.  In wrap-around arithmetic the upper bound handed to
    [scf.for] evaluates to the value of [ub]. *)
Theorem while_via_fori_bounds block_shapes fori_jaxpr cond_consts body_consts
        lb ub carried b :
  exists num_steps ubd step results iv inner_args inner_out b',
    _lower_while_via_fori block_shapes fori_jaxpr (List.length cond_consts)
      (List.length body_consts)
      (cond_consts ++ body_consts ++ lb :: ub :: carried) b
    = Ok (ub :: ub :: results, b')
    /\ emitted b'
       = emitted b
         ++ [ArithSubIOp num_steps ub lb;
             ArithAddIOp ubd lb num_steps;
             ArithConstantOp step
               (IntegerAttr i32 (NpArrayOf (PyInt 1) Int32));
             ScfForOp results lb ubd step carried iv inner_args
               [SubcompOp inner_out
                  (firstn (List.length body_consts + 1) block_shapes
                   ++ skipn (List.length body_consts + 2) block_shapes)
                  fori_jaxpr (map IR (body_consts ++ iv :: inner_args));
                ScfYieldOp inner_out]]
    /\ map v_ty results = map v_ty carried
    /\ forall m s w x y,
         v_ty lb = IntegerType s w -> v_ty ub = IntegerType s w ->
         older lb (next_id b) -> older ub (next_id b) ->
         get_value m lb = Some (RInt x) ->
         get_value m ub = Some (RInt y) ->
         0 <= y < 2 ^ w ->
         exists m',
           exec_block [ArithSubIOp num_steps ub lb;
                       ArithAddIOp ubd lb num_steps] m
           = Some (m', [], [])
           /\ get_value m' ubd = Some (RInt y)
           /\ get_value m' lb = Some (RInt x).
Proof.
  unfold _lower_while_via_fori.
  rewrite skipn_app, skipn_all, Nat.sub_diag. cbn [skipn app].
  rewrite firstn_app, firstn_all, Nat.sub_diag. cbn [firstn].
  rewrite app_nil_r.
  rewrite skipn_app, skipn_all, Nat.sub_diag. cbn [skipn app firstn].
  set (num_steps := mkValue (ResId (next_id b)) (v_ty ub)).
  set (b1 := mkBuilder (S (next_id b))
               (emitted b ++ [ArithSubIOp num_steps ub lb])).
  assert (H1 : fresh (v_ty ub) b
               = Ok (num_steps, mkBuilder (S (next_id b)) (emitted b)))
    by reflexivity.
  assert (H2 : emit (ArithSubIOp num_steps ub lb)
                 (mkBuilder (S (next_id b)) (emitted b)) = Ok (tt, b1))
    by reflexivity.
  destruct (for_loop_dynamic_run
              (firstn (List.length body_consts + 1) block_shapes
               ++ skipn (List.length body_consts + 2) block_shapes)
              fori_jaxpr lb num_steps body_consts carried b1)
    as (ubd & step & results & iv & inner & inner_out & b' & E & Eops
        & Hubd & Hty & _).
  exists num_steps, ubd, step, results, iv, inner, inner_out, b'.
  split.
  { rewrite (bind_eq_ok _ _ _ _ _ H1), (bind_eq_ok _ _ _ _ _ H2),
      (bind_eq_ok _ _ _ _ _ E). reflexivity. }
  split.
  { rewrite Eops. unfold b1. cbn [emitted]. rewrite <- app_assoc.
    reflexivity. }
  split; [exact Hty |].
  intros m s w x y Tlb Tub Olb Oub Vlb Vub Hy.
  assert (Olb1 : older lb (S (next_id b))) by (apply older_S; exact Olb).
  subst ubd. unfold b1, num_steps. cbn [next_id].
  eexists. split; [| split].
  - rewrite exec_block_cons by reflexivity. cbn [exec_op].
    rewrite exec_block_cons by reflexivity. cbn [exec_op].
    cbn [exec_block exec_ops]. reflexivity.
  - rewrite get_set_same. cbn [v_ty].
    rewrite (get_set_older _ _ _ _ lb Olb).
    rewrite get_set_same.
    rewrite Vlb, Vub. cbn [binary_rt option_map].
    unfold wrap_to. rewrite Tlb, Tub. cbn [element_type type_width].
    cbn [option_map binary_rt].
    rewrite Zplus_mod_idemp_r.
    replace (x + (y - x)) with y by lia.
    rewrite Z.mod_small by exact Hy. reflexivity.
  - rewrite (get_set_older _ _ _ _ lb Olb1).
    rewrite (get_set_older _ _ _ _ lb Olb). exact Vlb.
Qed.

Lemma while_via_fori_bounds_witness :
  exists results b' ubd m',
    _lower_while_via_fori [None; None; None] example_body 0 0
      [example_lower; example_upper; example_carry] (mkBuilder 0 [])
    = Ok (example_upper :: example_upper :: results, b')
    /\ get_value m' ubd = Some (RInt 7).
Proof.
  destruct (while_via_fori_bounds [None; None; None] example_body [] []
              example_lower example_upper [example_carry] (mkBuilder 0 []))
    as (num_steps & ubd & step & results & iv & inner & inner_out & b'
        & E & _ & _ & X).
  destruct (X (mkMachine
                 (fun n => if vname_eqb n (ArgName "lower")
                           then Some (RInt 3)
                           else if vname_eqb n (ArgName "upper")
                                then Some (RInt 7) else None)
                 (fun _ => None))
              None 32 3 7) as (m' & _ & V & _);
    [reflexivity | reflexivity | exact I | exact I | reflexivity
    | reflexivity | lia |].
  exists results, b', ubd, m'. split; [exact E | exact V].
Defined.


(** ** Grid dimensions *)

Lemma interleave_semantics_filter (mapped_dims : list Z) :
  forall idxs semantics_iter r,
    interleave_semantics idxs mapped_dims semantics_iter = Ok r ->
    List.length r = List.length idxs
    /\ exists rest,
         semantics_iter
         = map snd (filter (fun ix => negb (in_dims (fst ix) mapped_dims))
                      (combine idxs r)) ++ rest.
Proof.
  intros idxs.
  induction idxs as [| i rest IH]; intros it r H; cbn in H.
  - injection H as <-. split; [reflexivity |]. exists it. reflexivity.
  - destruct (in_dims i mapped_dims) eqn:Hi; cbn in H.
    + destruct (interleave_semantics rest mapped_dims it) as [r' |] eqn:Hr;
        [| discriminate].
      cbn in H. injection H as <-.
      destruct (IH _ _ Hr) as [Hlen (tl & E)].
      split; [cbn; congruence |].
      exists tl. cbn [combine filter fst]. rewrite Hi. exact E.
    + destruct it as [| s it']; [discriminate |].
      destruct (interleave_semantics rest mapped_dims it') as [r' |] eqn:Hr;
        [| discriminate].
      cbn in H. injection H as <-.
      destruct (IH _ _ Hr) as [Hlen (tl & E)].
      split; [cbn; congruence |].
      exists tl. cbn [combine filter fst]. rewrite Hi. cbn. rewrite <- E.
      reflexivity.
Qed.

Lemma length_filter_combine_fst {A B} (f : A -> bool) :
  forall (xs : list A) (ys : list B),
    List.length xs = List.length ys ->
    List.length (filter (fun p => f (fst p)) (combine xs ys))
    = List.length (filter f xs).
Proof.
  induction xs as [| x xs IH]; intros [| y ys] H; try discriminate;
    [reflexivity |].
  cbn. injection H as H. destruct (f x); cbn; rewrite (IH ys H); reflexivity.
Qed.

(** The per-dimension semantics of a grid mapping restricted to the
    dimensions that are not vmapped, the way [get_grid_indices]
    restricts grid indices, are exactly the tuple the user passed, in
    order; and a grid mapping is only constructed when the vmapped
    dimensions and the user's dimensions together number the grid's
    dimensions. *)
Theorem dimension_semantics_round_trip grid mapped_dims user_semantics sem :
  MosaicGridMapping_init grid mapped_dims (Some user_semantics) = Ok sem ->
  _get_grid_indices mapped_dims sem false = user_semantics
  /\ List.length sem = List.length grid
  /\ (List.length mapped_dims + List.length user_semantics
      = List.length grid)%nat.
Proof.
  unfold MosaicGridMapping_init. intros H.
  destruct (negb (List.length (user_grid grid mapped_dims)
                  =? List.length user_semantics)%nat) eqn:E1;
    [discriminate |].
  destruct (negb (List.length mapped_dims + List.length user_semantics
                  =? List.length grid)%nat) eqn:E2; [discriminate |].
  apply negb_false_iff, Nat.eqb_eq in E1.
  apply negb_false_iff, Nat.eqb_eq in E2.
  destruct (interleave_semantics_filter _ _ _ _ H) as [Hlen (rest & E)].
  unfold py_range in Hlen. rewrite length_map, length_seq in Hlen.
  split; [| split; [exact Hlen | exact E2]].
  unfold _get_grid_indices. rewrite Hlen.
  assert (Hrest : rest = []).
  { apply (f_equal (@List.length _)) in E.
    rewrite length_app, length_map in E.
    rewrite (length_filter_combine_fst
               (fun i => negb (in_dims i mapped_dims))) in E
      by (unfold py_range; rewrite length_map, length_seq; congruence).
    unfold user_grid in E1. rewrite length_map in E1.
    rewrite (length_filter_combine_fst
               (fun i => negb (in_dims i mapped_dims))) in E1
      by (unfold py_range; rewrite length_map, length_seq; reflexivity).
    destruct rest; [reflexivity |]. cbn in E. lia. }
  subst rest. rewrite app_nil_r in E. symmetry. exact E.
Qed.

Lemma dimension_semantics_round_trip_witness :
  exists sem,
    MosaicGridMapping_init [GridSize 4; GridSize 2; DynamicGridDim] [1]
      (Some [Some "parallel"; None]) = Ok sem
    /\ _get_grid_indices [1] sem false = [Some "parallel"; None].
Proof.
  eexists. split; [reflexivity |].
  exact (proj1 (dimension_semantics_round_trip
                  [GridSize 4; GridSize 2; DynamicGridDim] [1]
                  [Some "parallel"; None] _ eq_refl)).
Defined.

(** ** Boolean operands at the call boundary *)

(** The avals the kernel is called with never have a boolean dtype:
    [_maybe_cast_to_int] keeps the shape, turns [bool] into
    [BOOL_MEMREF_TYPE] and leaves every other aval alone, so applying it
    twice changes nothing.  The IR type of the cast dtype is the type
    the lowering gives the original dtype at the kernel boundary, and
    casting a kernel output back with [_maybe_cast_to_bool] restores the
    dtype of the original output aval. *)
Theorem bool_operands_cast_at_boundary x :
  aval_shape (_maybe_cast_to_int x) = aval_shape x
  /\ dtype_eqb (aval_dtype (_maybe_cast_to_int x)) Bool_ = false
  /\ _maybe_cast_to_int (_maybe_cast_to_int x) = _maybe_cast_to_int x
  /\ _dtype_to_ir_type (aval_dtype (_maybe_cast_to_int x)) false
     = _dtype_to_ir_type (aval_dtype x) true
  /\ _maybe_cast_to_bool (aval_dtype (_maybe_cast_to_int x)) x = aval_dtype x.
Proof.
  destruct x as [shape d]. unfold _maybe_cast_to_int, _maybe_cast_to_bool.
  cbn [aval_dtype aval_shape].
  destruct d; cbn; repeat split; reflexivity.
Qed.

(** ** Loading PRNG keys *)

Lemma list_Z_eqb_eq a :
  forall b, list_Z_eqb a b = true -> a = b.
Proof.
  induction a as [| x a IH]; intros [| y b] H; cbn in H; try discriminate;
    [reflexivity |].
  apply andb_prop in H. destruct H as [Hx Hr].
  apply Z.eqb_eq in Hx. rewrite Hx, (IH b Hr). reflexivity.
Qed.

(** A load whose result is a PRNG key succeeds only from a reference
    that, after slicing, lies in SMEM and only for keys of shape (1,
    1); it then loads one scalar with [memref.load] at the constant
    indices 0, 0 from the reference as it was passed to the rule, not
    from the sliced one, and returns it in a [KeyScalarBundle]. *)
Theorem prng_key_load_reads_one_scalar ref indexers ref_dtype indexers_avals
        key_shape ref_block_shape b result b' :
  _load_lowering_rule ref indexers None ref_dtype indexers_avals
    (OutKey key_shape) ref_block_shape b = Ok (result, b') ->
  key_shape = [1; 1]
  /\ exists slice_indexers idx sliced rbs' b1 c0 c1 scalar,
       unpack_last indexers = Ok (slice_indexers, idx)
       /\ _index_ref ref ref_dtype ref_block_shape slice_indexers b
          = Ok ((sliced, rbs'), b1)
       /\ is_smem (v_ty sliced) = Ok true
       /\ result = KeyScalarBundle [1; 1] [scalar]
       /\ v_ty scalar = element_type (v_ty ref)
       /\ v_ty c0 = IndexType /\ v_ty c1 = IndexType
       /\ emitted b'
          = emitted b1
            ++ [ArithConstantOp c0
                  (IntegerAttr IndexType (NpArrayOf (PyInt 0) Int32));
                ArithConstantOp c1
                  (IntegerAttr IndexType (NpArrayOf (PyInt 0) Int32));
                MemrefLoadOp scalar ref [c0; c1]].
Proof.
  intros H. unfold _load_lowering_rule in H.
  apply bind_ok in H. destruct H as ([slice_indexers idx] & b0 & H0 & H).
  apply lift_ok in H0. destruct H0 as [U1 ->].
  apply bind_ok in H. destruct H as ([init' idx_aval] & b0 & H0 & H).
  apply lift_ok in H0. destruct H0 as [U2 ->].
  apply bind_ok in H. destruct H as ([ref1 rbs1] & b1 & HI & H).
  apply bind_ok in H. destruct H as (smem & b1' & H0 & H).
  apply lift_ok in H0. destruct H0 as [Hsm ->].
  destruct smem; [| discriminate]. cbn [negb] in H.
  unfold _prng_key_load_lowering_rule in H.
  destruct (negb (List.length key_shape =? 2)%nat); [discriminate |].
  destruct (negb (list_Z_eqb key_shape [1; 1])) eqn:Hk; [discriminate |].
  assert (Hshape : key_shape = [1; 1]).
  { apply negb_false_iff in Hk. exact (list_Z_eqb_eq _ _ Hk). }
  subst key_shape. split; [reflexivity |].
  cbn in H. injection H as <- <-.
  exists slice_indexers, idx, ref1, rbs1, b1.
  exists (mkValue (ResId (next_id b1)) IndexType),
    (mkValue (ResId (S (next_id b1))) IndexType),
    (mkValue (ResId (S (S (next_id b1)))) (element_type (v_ty ref))).
  split; [exact U1 |]. split; [exact HI |]. split; [exact Hsm |].
  split; [reflexivity |]. split; [reflexivity |].
  split; [reflexivity |]. split; [reflexivity |].
  cbn [emitted]. rewrite <- !app_assoc. reflexivity.
Qed.

Lemma prng_key_load_reads_one_scalar_witness :
  exists scalar b',
    example_key_load [1; 1] (mkBuilder 0 [])
    = Ok (KeyScalarBundle [1; 1] [scalar], b')
    /\ v_ty scalar = IntegerType None 32.
Proof.
  destruct (example_key_load [1; 1] (mkBuilder 0 [])) as [[result b'] | e]
    eqn:E; [| vm_compute in E; discriminate E].
  destruct (proj2 (prng_key_load_reads_one_scalar example_key_ref
                     [mkNDIndexer [] []] UInt32 [[]] [1; 1] (Some [])
                     (mkBuilder 0 []) result b' E))
    as (si & idx & sliced & rbs' & b1 & c0 & c1 & scalar & _ & _ & _ & ->
        & Hty & _).
  exists scalar, b'. split; [reflexivity | exact Hty].
Defined.


(** ** Grid queries *)

Lemma xbind_ok {A B} (m : X A) (k : A -> X B) b r :
  xbind m k b = Ok r -> exists a b1, m b = Ok (a, b1) /\ k a b1 = Ok r.
Proof.
  unfold xbind. destruct (m b) as [[a b1] | e]; [| discriminate].
  intros H. exists a, b1. auto.
Qed.

Lemma xbind_eq_ok {A B} (m : X A) (k : A -> X B) b a b1 :
  m b = Ok (a, b1) -> xbind m k b = k a b1.
Proof. intros H. unfold xbind. rewrite H. reflexivity. Qed.

Lemma xlift_ok {A} (r : result A) b a b' :
  xlift r b = Ok (a, b') -> r = Ok a /\ b' = b.
Proof.
  unfold xlift. destruct r as [x | e]; [| discriminate].
  intros H. injection H as <- <-. auto.
Qed.

Lemma num_programs_loop_finds (mapped_dims : list Z) (axis : Z) {A} :
  forall (dims : list Z) (vs : list A) seen k v,
    List.length dims = List.length vs ->
    nth_error
      (map snd (filter (fun ix => negb (in_dims (fst ix) mapped_dims))
                  (combine dims vs))) k = Some v ->
    axis = seen + Z.of_nat k ->
    exists i j,
      num_programs_loop mapped_dims axis seen dims = Some i
      /\ nth_error dims j = Some i
      /\ nth_error vs j = Some v
      /\ in_dims i mapped_dims = false.
Proof.
  induction dims as [| i rest IH]; intros [| x vs] seen k v Hlen Hk Hax;
    try discriminate.
  - destruct k; discriminate.
  - injection Hlen as Hlen. cbn [combine filter fst] in Hk.
    cbn [num_programs_loop].
    destruct (in_dims i mapped_dims) eqn:Hi; cbn [negb] in *.
    + assert (E : (seen + 0 =? axis + 1) = false) by lia. rewrite E.
      destruct (IH vs (seen + 0) k v Hlen Hk) as (i' & j & L & N1 & N2 & M');
        [lia |].
      exists i', (S j). auto.
    + cbn [map snd nth_error] in Hk. destruct k as [| k].
      * injection Hk as ->.
        assert (E : (seen + 1 =? axis + 1) = true) by lia. rewrite E.
        exists i, 0%nat. auto.
      * cbn [nth_error] in Hk.
        assert (E : (seen + 1 =? axis + 1) = false) by lia. rewrite E.
        destruct (IH vs (seen + 1) k v Hlen Hk) as (i' & j & L & N1 & N2 & M');
          [lia |].
        exists i', (S j). auto.
Qed.

Lemma num_programs_loop_none (mapped_dims : list Z) (axis : Z) :
  forall (dims : list Z) seen,
    seen + Z.of_nat (List.length
                       (filter (fun i => negb (in_dims i mapped_dims)) dims))
    <= axis ->
    num_programs_loop mapped_dims axis seen dims = None.
Proof.
  induction dims as [| i rest IH]; intros seen H; [reflexivity |].
  cbn [num_programs_loop]. cbn [filter] in H.
  destruct (negb (in_dims i mapped_dims)).
  - cbn [List.length] in H.
    assert (E : (seen + 1 =? axis + 1) = false) by lia. rewrite E.
    apply IH. lia.
  - assert (E : (seen + 0 =? axis + 1) = false) by lia. rewrite E.
    apply IH. lia.
Qed.

(** [program_id] and [num_programs] agree on what a user axis is.
    With the grid indices restricted by [get_grid_indices] to the
    dimensions that are not vmapped, whenever [program_id] returns the
    index of an axis, [num_programs] of the same axis succeeds and
    returns the bound of the very grid dimension that index belongs to,
    a dimension that is not vmapped.  For an axis at or past the number
    of user dimensions, where [program_id] raises [ValueError],
    [num_programs] raises [TypeError]. *)
Theorem program_id_matches_num_programs mapped_dims grid_indices axis b :
  (forall v,
      _program_id_lowering_rule
        (Some (_get_grid_indices mapped_dims grid_indices false)) axis = Ok v ->
      exists i r,
        _num_programs_lowering_rule mapped_dims (List.length grid_indices)
          axis b
        = Ok (r, mkXBuilder (S (x_next_id b))
                   (x_emitted b ++ [TpuIterationBoundOp r i]))
        /\ nth_error grid_indices (Z.to_nat i) = Some v
        /\ 0 <= i
        /\ in_dims i mapped_dims = false)
  /\ (Z.of_nat (List.length
                  (_get_grid_indices mapped_dims grid_indices false))
      <= axis ->
      (exists msg,
          _program_id_lowering_rule
            (Some (_get_grid_indices mapped_dims grid_indices false)) axis
          = Raise (Exn ValueError msg))
      /\ exists msg,
           _num_programs_lowering_rule mapped_dims (List.length grid_indices)
             axis b
           = Raise (Exn TypeError msg)).
Proof.
  split.
  - intros v H. unfold _program_id_lowering_rule in H.
    destruct (negb ((0 <=? axis)
                    && (axis <? Z.of_nat
                                  (List.length
                                     (_get_grid_indices mapped_dims
                                        grid_indices false))))) eqn:Hr;
      [discriminate |].
    apply negb_false_iff, andb_prop in Hr. destruct Hr as [H0 _].
    destruct (nth_error (_get_grid_indices mapped_dims grid_indices false)
                (Z.to_nat axis)) as [v' |] eqn:Hn; [| discriminate].
    injection H as ->.
    unfold _get_grid_indices in Hn.
    destruct (num_programs_loop_finds mapped_dims axis
                (py_range (List.length grid_indices)) grid_indices 0
                (Z.to_nat axis) v)
      as (i & j & L & N1 & N2 & Hm).
    { unfold py_range. rewrite length_map, length_seq. reflexivity. }
    { exact Hn. }
    { lia. }
    assert (Hj : (j < List.length grid_indices)%nat)
      by (apply nth_error_Some; congruence).
    rewrite (nth_error_py_range _ _ Hj) in N1. injection N1 as <-.
    exists (Z.of_nat j), (mkValue (ResId (x_next_id b)) i32).
    unfold _num_programs_lowering_rule. rewrite L.
    split; [reflexivity |]. rewrite Nat2Z.id.
    split; [exact N2 |]. split; [lia | exact Hm].
  - intros Hax. split.
    + unfold _program_id_lowering_rule.
      assert (E : (axis <? Z.of_nat
                             (List.length
                                (_get_grid_indices mapped_dims grid_indices
                                   false))) = false) by lia.
      rewrite E, andb_false_r. cbn. eexists. reflexivity.
    + unfold _num_programs_lowering_rule.
      rewrite num_programs_loop_none; [eexists; reflexivity |].
      unfold _get_grid_indices in Hax. rewrite length_map in Hax.
      rewrite (length_filter_combine_fst
                 (fun i => negb (in_dims i mapped_dims))) in Hax
        by (unfold py_range; rewrite length_map, length_seq; reflexivity).
      lia.
Qed.

Lemma program_id_matches_num_programs_witness :
  exists i r b',
    _num_programs_lowering_rule [0] 3 1 (mkXBuilder 0 []) = Ok (r, b')
    /\ x_emitted b' = [] ++ [TpuIterationBoundOp r i]
    /\ nth_error example_grid_indices (Z.to_nat i)
       = Some (mkValue (ArgName "i2") i32).
Proof.
  destruct (proj1 (program_id_matches_num_programs [0] example_grid_indices
                     1 (mkXBuilder 0 []))
              (mkValue (ArgName "i2") i32) eq_refl)
    as (i & r & E & Hn & _).
  exists i, r. eexists. split; [exact E |]. split; [reflexivity | exact Hn].
Defined.


(** ** Elementwise rules *)

Lemma embed_ir_constant_run h ty b v b' :
  embed (ir_constant h (Some ty)) b = Ok (v, b') ->
  v_ty v = ty
  /\ exists a, x_emitted b' = x_emitted b ++ [BaseOp (ArithConstantOp v a)].
Proof.
  unfold embed. intros H.
  destruct (ir_constant h (Some ty) (mkBuilder (x_next_id b) []))
    as [[v0 b0] |] eqn:E; [| discriminate].
  injection H as <- <-.
  split; [exact (ir_constant_type _ _ _ _ _ E) |].
  destruct (ir_constant_run _ _ _ _ _ E) as (_ & _ & a & Ea).
  exists a. cbn [x_emitted]. rewrite Ea. reflexivity.
Qed.

Lemma bcast_constant_run x y d b x' b' :
  bcast_constant x y d b = Ok (x', b') ->
  exists pre,
    x_emitted b' = x_emitted b ++ pre /\ forallb is_bcast_op pre = true.
Proof.
  unfold bcast_constant. destruct x as [h | v].
  - destruct (is_numeric_host h).
    + intros H. apply xbind_ok in H. destruct H as (c & b1 & H1 & H).
      injection H as <- <-.
      destruct (embed_ir_constant_run _ _ _ _ _ H1) as (_ & a & E).
      eexists. split; [exact E | reflexivity].
    + intros H. injection H as <- <-. exists []. rewrite app_nil_r. auto.
  - intros H. injection H as <- <-. exists []. rewrite app_nil_r. auto.
Qed.

Lemma bcast_shape_run x sh out d b x' b' :
  bcast_shape x sh out d b = Ok (x', b') ->
  exists pre,
    x_emitted b' = x_emitted b ++ pre /\ forallb is_bcast_op pre = true.
Proof.
  unfold bcast_shape. destruct (negb (list_Z_eqb sh out)).
  - intros H. apply xbind_ok in H. destruct H as (v & b1 & H1 & H).
    destruct x as [h | v0]; [discriminate |].
    injection H1 as <- <-. cbn in H. injection H as <- <-.
    eexists. split; [reflexivity | reflexivity].
  - intros H. injection H as <- <-. exists []. rewrite app_nil_r. auto.
Qed.

Lemma bcast_run x y x_aval y_aval out_aval b x' y' b' :
  _bcast x y x_aval y_aval out_aval b = Ok ((x', y'), b') ->
  exists pre,
    x_emitted b' = x_emitted b ++ pre /\ forallb is_bcast_op pre = true.
Proof.
  unfold _bcast.
  destruct (if in_weak_type y_aval
            then (in_dtype x_aval, in_dtype x_aval)
            else if in_weak_type x_aval
                 then (in_dtype y_aval, in_dtype y_aval)
                 else (in_dtype x_aval, in_dtype y_aval)) as [xd yd].
  intros H.
  apply xbind_ok in H. destruct H as (x1 & b1 & H1 & H).
  apply xbind_ok in H. destruct H as (y1 & b2 & H2 & H).
  apply xbind_ok in H. destruct H as (x2 & b3 & H3 & H).
  apply xbind_ok in H. destruct H as (y2 & b4 & H4 & H).
  injection H as <- <- <-.
  destruct (bcast_constant_run _ _ _ _ _ _ H1) as (p1 & E1 & C1).
  destruct (bcast_constant_run _ _ _ _ _ _ H2) as (p2 & E2 & C2).
  destruct (bcast_shape_run _ _ _ _ _ _ _ H3) as (p3 & E3 & C3).
  destruct (bcast_shape_run _ _ _ _ _ _ _ H4) as (p4 & E4 & C4).
  exists (p1 ++ p2 ++ p3 ++ p4). split.
  - rewrite E4, E3, E2, E1, <- !app_assoc. reflexivity.
  - rewrite !forallb_app, C1, C2, C3, C4. reflexivity.
Qed.

Lemma arith_binary_run kind x y b r b' :
  arith_binary kind x y b = Ok (r, b') ->
  exists vx vy,
    x = IR vx /\ y = IR vy
    /\ r = mkValue (ResId (x_next_id b)) (v_ty vx)
    /\ b' = mkXBuilder (S (x_next_id b))
              (x_emitted b ++ [ArithBinaryOp kind r vx vy]).
Proof.
  unfold arith_binary. destruct x as [h | vx]; [discriminate |].
  destruct y as [h | vy]; [discriminate |].
  intros H. cbn in H. injection H as <- <-.
  exists vx, vy. repeat split; reflexivity.
Qed.

Lemma bcast_then_binary kind x y x_aval y_aval out_aval b r b' :
  xbind (_bcast x y x_aval y_aval out_aval)
    (fun p => let '(x, y) := p in arith_binary kind x y) b = Ok (r, b') ->
  lowered_as kind b r b'.
Proof.
  intros H. apply xbind_ok in H. destruct H as ([x1 y1] & b1 & H1 & H).
  destruct (bcast_run _ _ _ _ _ _ _ _ _ H1) as (pre & E & C).
  destruct (arith_binary_run _ _ _ _ _ _ H) as (vx & vy & _ & _ & -> & ->).
  exists pre, vx, vy. cbn [x_emitted v_ty]. rewrite E, <- app_assoc.
  split; [reflexivity |]. split; [exact C | reflexivity].
Qed.

(** Division and remainder do not look at the signedness of integers:
    for an unsigned output dtype the division rule creates
    [arith.divsi] and the remainder rule [arith.remsi], as for signed
    ones, their branches for unsigned integers being unreachable, while
    the maximum and minimum rules create [arith.maxui] and
    [arith.minui].  So the quotient of two unsigned 32-bit scalars is
    computed as the quotient, rounded toward zero, of the operands read
    in two's complement. *)
Theorem unsigned_division_is_signed x y x_aval y_aval aval_out b :
  issubdtype_unsignedinteger (aval_dtype aval_out) = true ->
  (forall r b',
      _div_lowering_rule x y x_aval y_aval aval_out b = Ok (r, b') ->
      lowered_as DivSI b r b')
  /\ (forall r b',
         _rem_lowering_rule x y x_aval y_aval aval_out b = Ok (r, b') ->
         lowered_as RemSI b r b')
  /\ (forall r b',
         _max_lowering_rule x y x_aval y_aval aval_out b = Ok (r, b') ->
         lowered_as MaxUI b r b')
  /\ (forall r b',
         _min_lowering_rule x y x_aval y_aval aval_out b = Ok (r, b') ->
         lowered_as MinUI b r b')
  /\ (forall vx vy r b' device_id m n d,
         x = IR vx -> y = IR vy ->
         v_ty vx = IntegerType None 32 ->
         _div_lowering_rule x y
           (mkInAval (aval_shape aval_out) (aval_dtype aval_out) false)
           (mkInAval (aval_shape aval_out) (aval_dtype aval_out) false)
           aval_out b = Ok (r, b') ->
         get_value m vx = Some (RInt n) ->
         get_value m vy = Some (RInt d) ->
         to_signed 32 d <> 0 ->
         x_emitted b' = x_emitted b ++ [ArithBinaryOp DivSI r vx vy]
         /\ exists m',
              xexec_block device_id [ArithBinaryOp DivSI r vx vy] m = Some m'
              /\ get_value m' r
                 = Some (RInt (Z.quot (to_signed 32 n) (to_signed 32 d)
                               mod 2 ^ 32))).
Proof.
  intros Hu.
  assert (Hi : issubdtype_integer (aval_dtype aval_out) = true)
    by (unfold issubdtype_integer; rewrite Hu; apply orb_true_r).
  assert (Hs : issubdtype_signedinteger (aval_dtype aval_out) = false)
    by (destruct (aval_dtype aval_out); cbn in Hu |- *; congruence).
  split; [| split; [| split; [| split]]].
  - intros r b' H. unfold _div_lowering_rule in H. rewrite Hi in H.
    apply (bcast_then_binary DivSI x y x_aval y_aval aval_out).
    exact H.
  - intros r b' H. unfold _rem_lowering_rule in H. rewrite Hi in H.
    apply (bcast_then_binary RemSI x y x_aval y_aval aval_out).
    exact H.
  - intros r b' H. unfold _max_lowering_rule in H. rewrite Hs, Hu in H.
    apply (bcast_then_binary MaxUI x y x_aval y_aval aval_out).
    exact H.
  - intros r b' H. unfold _min_lowering_rule in H. rewrite Hs, Hu in H.
    apply (bcast_then_binary MinUI x y x_aval y_aval aval_out).
    exact H.
  - intros vx vy r b' device_id m n d -> -> Hty H Vx Vy Hd.
    unfold _div_lowering_rule, _bcast in H. rewrite Hi in H.
    cbn [in_weak_type in_dtype in_shape bcast_constant] in H.
    unfold bcast_shape in H.
    assert (Hsh : list_Z_eqb (aval_shape aval_out) (aval_shape aval_out)
                  = true).
    { generalize (aval_shape aval_out). intros l.
      induction l as [| z l IH]; cbn; [reflexivity |].
      rewrite Z.eqb_refl, IH. reflexivity. }
    rewrite Hsh in H. cbn in H. injection H as <- <-.
    cbn [x_emitted]. split; [reflexivity |].
    eexists. split.
    + cbn [xexec_block xexec_op v_ty]. rewrite Hty.
      cbn [element_type type_width]. reflexivity.
    + rewrite Hty, get_set_same, Vx, Vy. cbn [binary_rt option_map].
      unfold arith_eval.
      destruct (to_signed 32 d =? 0) eqn:E; [lia | reflexivity].
Qed.

Lemma unsigned_division_is_signed_witness :
  exists r b' m',
    _div_lowering_rule (IR (example_u32 "x")) (IR (example_u32 "y"))
      example_u32_aval example_u32_aval (mkArrayAval [] UInt32)
      (mkXBuilder 0 [])
    = Ok (r, b')
    /\ xexec_block 0 (x_emitted b')
         (mkMachine
            (fun n => if vname_eqb n (ArgName "x") then Some (RInt 4294967294)
                      else if vname_eqb n (ArgName "y") then Some (RInt 2)
                           else None)
            (fun _ => None))
       = Some m'
    /\ get_value m' r = Some (RInt 4294967295).
Proof.
  destruct (_div_lowering_rule (IR (example_u32 "x")) (IR (example_u32 "y"))
              example_u32_aval example_u32_aval (mkArrayAval [] UInt32)
              (mkXBuilder 0 [])) as [[r b'] | e] eqn:E;
    [| vm_compute in E; discriminate E].
  destruct (proj2 (proj2 (proj2 (proj2
              (unsigned_division_is_signed (IR (example_u32 "x"))
                 (IR (example_u32 "y")) example_u32_aval example_u32_aval
                 (mkArrayAval [] UInt32) (mkXBuilder 0 []) eq_refl))))
              (example_u32 "x") (example_u32 "y") r b' 0
              (mkMachine
                 (fun n => if vname_eqb n (ArgName "x")
                           then Some (RInt 4294967294)
                           else if vname_eqb n (ArgName "y")
                                then Some (RInt 2) else None)
                 (fun _ => None))
              4294967294 2 eq_refl eq_refl eq_refl E eq_refl eq_refl)
    as (Eops & m' & X1 & V).
  { vm_compute. discriminate. }
  exists r, b', m'. split; [reflexivity |].
  rewrite Eops. split; [exact X1 | exact V].
Defined.


Lemma list_Z_eqb_refl l : list_Z_eqb l l = true.
Proof.
  induction l as [| z l IH]; cbn; [reflexivity |].
  rewrite Z.eqb_refl, IH. reflexivity.
Qed.

Lemma to_signed_inj w a b :
  0 < w -> 0 <= a < 2 ^ w -> 0 <= b < 2 ^ w ->
  to_signed w a = to_signed w b -> a = b.
Proof.
  intros Hw Ha Hb. unfold to_signed.
  assert (H2 : 2 ^ w = 2 * 2 ^ (w - 1)).
  { replace w with (Z.succ (w - 1)) at 1 by lia.
    rewrite Z.pow_succ_r by lia. reflexivity. }
  destruct (a <? 2 ^ (w - 1)) eqn:Ea, (b <? 2 ^ (w - 1)) eqn:Eb; lia.
Qed.

(** Comparisons of integers use the signed predicates of [arith.cmpi]
    whatever the signedness of the dtype: on two scalars of one integer
    dtype, signed or unsigned, the rule creates the constants 1 and 0
    (used for boolean operands only) and one [arith.cmpi] with the
    predicate of [_cmpi_lowering_types], between 0 and 5, so that on
    32-bit operands the result is the comparison of the operands read
    in two's complement.  Operands of which one is an integer and the
    other a float are rejected with [NotImplementedError]. *)
Theorem integer_comparison_is_signed prim vx vy shape dt b :
  issubdtype_integer dt = true ->
  let aval := mkInAval shape dt false in
  (exists true_ false_ r b',
      _cmp_lowering_rule prim (IR vx) (IR vy) aval aval
        (mkArrayAval shape Bool_) b = Ok (r, b')
      /\ x_emitted b'
         = x_emitted b
           ++ [BaseOp (ArithConstantOp true_
                         (IntegerAttr i32 (NpArrayOf (PyInt 1) Int32)));
               BaseOp (ArithConstantOp false_
                         (IntegerAttr i32 (NpArrayOf (PyInt 0) Int32)));
               BaseOp (ArithCmpIOp r (_cmpi_lowering_types prim) vx vy)]
      /\ 0 <= _cmpi_lowering_types prim <= 5
      /\ forall device_id m n d,
           v_ty vx = IntegerType None 32 ->
           older vx (x_next_id b) -> older vy (x_next_id b) ->
           get_value m vx = Some (RInt n) ->
           get_value m vy = Some (RInt d) ->
           0 <= n < 2 ^ 32 -> 0 <= d < 2 ^ 32 ->
           exists m',
             xexec_block device_id
               [BaseOp (ArithConstantOp true_
                          (IntegerAttr i32 (NpArrayOf (PyInt 1) Int32)));
                BaseOp (ArithConstantOp false_
                          (IntegerAttr i32 (NpArrayOf (PyInt 0) Int32)));
                BaseOp (ArithCmpIOp r (_cmpi_lowering_types prim) vx vy)] m
             = Some m'
             /\ get_value m' r
                = Some (RInt (if cmp_holds prim (to_signed 32 n)
                                   (to_signed 32 d)
                              then 1 else 0)))
  /\ forall fdt,
       issubdtype_floating fdt = true ->
       _cmp_lowering_rule prim (IR vx) (IR vy) aval (mkInAval shape fdt false)
         (mkArrayAval shape Bool_) b
       = Raise (Exn NotImplementedError "Mixed dtype operands in cmp").
Proof.
  intros Hi aval.
  assert (Hf : issubdtype_floating dt = false)
    by (destruct dt; cbn in Hi |- *; congruence).
  assert (Hb : issubdtype_bool dt = false)
    by (destruct dt; cbn in Hi |- *; congruence).
  split.
  - set (true_ := mkValue (ResId (x_next_id b)) i32).
    set (false_ := mkValue (ResId (S (x_next_id b))) i32).
    set (r := mkValue (ResId (S (S (x_next_id b))))
                (cmpi_result_type (v_ty vx))).
    exists true_, false_, r. eexists.
    split; [| split; [| split]].
    + unfold _cmp_lowering_rule, _bcast, bcast_shape. subst aval.
      cbn [in_weak_type in_dtype in_shape bcast_constant aval_shape fst snd
           forallb].
      rewrite list_Z_eqb_refl, Hi, Hb. cbn. reflexivity.
    + cbn [x_emitted]. rewrite <- !app_assoc. reflexivity.
    + destruct prim; cbn; lia.
    + intros device_id m n d Hty Ox Oy Vx Vy Hn Hd.
      assert (Ox1 : older vx (S (x_next_id b))) by (apply older_S; exact Ox).
      assert (Oy1 : older vy (S (x_next_id b))) by (apply older_S; exact Oy).
      eexists. split.
      * cbn [xexec_block xexec_op exec_op option_map fst]. reflexivity.
      * rewrite get_set_same. unfold true_, false_.
        rewrite !(get_set_older _ _ _ _ vx) by assumption.
        rewrite !(get_set_older _ _ _ _ vy) by assumption.
        rewrite Vx, Vy. unfold compare_rt. rewrite Hty.
        cbn [element_type type_width binary_rt option_map].
        f_equal. f_equal.
        destruct prim; cbn [_cmpi_lowering_types eval_cmpi cmp_holds];
          try reflexivity.
        -- destruct (n =? d) eqn:E1, (to_signed 32 n =? to_signed 32 d) eqn:E2;
             try reflexivity.
           ++ apply Z.eqb_eq in E1. subst. lia.
           ++ apply Z.eqb_eq in E2.
              apply (to_signed_inj 32) in E2; [| lia | exact Hn | exact Hd].
              lia.
        -- destruct (n =? d) eqn:E1, (to_signed 32 n =? to_signed 32 d) eqn:E2;
             try reflexivity.
           ++ apply Z.eqb_eq in E1. subst. lia.
           ++ apply Z.eqb_eq in E2.
              apply (to_signed_inj 32) in E2; [| lia | exact Hn | exact Hd].
              lia.
  - intros fdt Hfl.
    assert (Hfi : issubdtype_integer fdt = false)
      by (destruct fdt; cbn in Hfl |- *; congruence).
    assert (Hfb : issubdtype_bool fdt = false)
      by (destruct fdt; cbn in Hfl |- *; congruence).
    unfold _cmp_lowering_rule, _bcast, bcast_shape. subst aval.
    cbn [in_weak_type in_dtype in_shape bcast_constant aval_shape fst snd
         forallb].
    rewrite list_Z_eqb_refl, Hi, Hb, Hf, Hfi, Hfb. reflexivity.
Qed.

Lemma integer_comparison_is_signed_witness :
  exists r b' m',
    _cmp_lowering_rule lt_p (IR (example_u32 "x")) (IR (example_u32 "y"))
      example_u32_aval example_u32_aval (mkArrayAval [] Bool_)
      (mkXBuilder 0 [])
    = Ok (r, b')
    /\ xexec_block 0 (x_emitted b')
         (mkMachine
            (fun n => if vname_eqb n (ArgName "x") then Some (RInt 4294967294)
                      else if vname_eqb n (ArgName "y") then Some (RInt 2)
                           else None)
            (fun _ => None))
       = Some m'
    /\ get_value m' r = Some (RInt 1).
Proof.
  destruct (proj1 (integer_comparison_is_signed lt_p (example_u32 "x")
                     (example_u32 "y") [] UInt32 (mkXBuilder 0 []) eq_refl))
    as (true_ & false_ & r & b' & E & Eops & _ & Hx).
  destruct (Hx 0
              (mkMachine
                 (fun n => if vname_eqb n (ArgName "x")
                           then Some (RInt 4294967294)
                           else if vname_eqb n (ArgName "y")
                                then Some (RInt 2) else None)
                 (fun _ => None))
              4294967294 2 eq_refl I I eq_refl eq_refl)
    as (m' & X1 & V); [lia | lia |].
  exists r, b', m'. split; [exact E |].
  rewrite Eops. split; [exact X1 | exact V].
Defined.


(** ** Mesh queries *)

Lemma linearize_acc strides :
  forall indices acc,
    fold_left (fun acc ab => acc + fst ab * snd ab)
      (combine indices strides) acc
    = acc + _linearize_mesh_indices (combine indices strides).
Proof.
  unfold _linearize_mesh_indices.
  induction strides as [| s ss IH]; intros [| c cs] acc;
    cbn [combine fold_left fst snd]; try lia.
  rewrite (IH cs (acc + c * s)), (IH cs (0 + c * s)). lia.
Qed.

Lemma linearize_cons s ss c cs :
  _linearize_mesh_indices (combine (c :: cs) (row_major_strides (s :: ss)))
  = c * fold_right Z.mul 1 ss
    + _linearize_mesh_indices (combine cs (row_major_strides ss)).
Proof.
  unfold _linearize_mesh_indices at 1. cbn [row_major_strides combine fold_left].
  rewrite linearize_acc. cbn [fst snd]. lia.
Qed.

Lemma prod_pos coords shape :
  Forall2 (fun c s => 0 <= c < s) coords shape ->
  0 < fold_right Z.mul 1 shape.
Proof.
  induction 1 as [| c s cs ss Hc _ IH]; cbn; [lia | nia].
Qed.

Lemma Forall2_skipn {A B} (P : A -> B -> Prop) n :
  forall xs ys, Forall2 P xs ys -> Forall2 P (skipn n xs) (skipn n ys).
Proof.
  induction n as [| n IH]; intros xs ys H; [exact H |].
  destruct H; cbn; [constructor | apply IH; assumption].
Qed.

Lemma linearize_bound coords shape :
  Forall2 (fun c s => 0 <= c < s) coords shape ->
  0 <= _linearize_mesh_indices (combine coords (row_major_strides shape))
  < fold_right Z.mul 1 shape.
Proof.
  induction 1 as [| c s cs ss Hc Hr IH].
  - cbn. lia.
  - rewrite linearize_cons. cbn [fold_right].
    pose proof (prod_pos _ _ Hr). nia.
Qed.

Lemma prod_skipn_divides k :
  forall shape s,
    nth_error shape k = Some s ->
    exists a,
      fold_right Z.mul 1 shape
      = a * s * fold_right Z.mul 1 (skipn (S k) shape).
Proof.
  induction k as [| k IH]; intros [| s0 ss] s H; try discriminate.
  - injection H as ->. exists 1. cbn [fold_right skipn]. lia.
  - cbn [nth_error] in H. destruct (IH ss s H) as (a & E).
    exists (s0 * a). cbn [fold_right skipn]. rewrite E.
    cbn [skipn]. lia.
Qed.

Lemma linearize_decode coords shape :
  Forall2 (fun c s => 0 <= c < s) coords shape ->
  forall k c s,
    nth_error coords k = Some c ->
    nth_error shape k = Some s ->
    (_linearize_mesh_indices (combine coords (row_major_strides shape))
     / fold_right Z.mul 1 (skipn (S k) shape)) mod s = c.
Proof.
  induction 1 as [| c0 s0 cs ss Hc Hr IH]; intros k c s Hk Hs.
  - destruct k; discriminate.
  - rewrite linearize_cons. destruct k as [| k].
    + injection Hk as ->. injection Hs as ->. cbn [skipn].
      pose proof (prod_pos _ _ Hr) as Hp.
      pose proof (linearize_bound _ _ Hr) as Hb.
      rewrite Z.div_add_l by lia.
      rewrite (Z.div_small _ _ Hb). rewrite Z.add_0_r.
      apply Z.mod_small. exact Hc.
    + cbn [nth_error] in Hk, Hs.
      change (skipn (S (S k)) (s0 :: ss)) with (skipn (S k) ss).
      destruct (prod_skipn_divides k ss s Hs) as (a & E).
      pose proof (prod_pos _ _ (Forall2_skipn _ (S k) _ _ Hr)) as Hp.
      rewrite E.
      replace (c0 * (a * s * fold_right Z.mul 1 (skipn (S k) ss)))
        with ((c0 * a * s) * fold_right Z.mul 1 (skipn (S k) ss)) by lia.
      rewrite Z.div_add_l by lia.
      replace (c0 * a * s) with ((c0 * a) * s) by lia.
      rewrite Z.add_comm, Z.mod_add.
      * exact (IH k c s Hk Hs).
      * assert (Hs' : exists c', nth_error cs k = Some c' /\ 0 <= c' < s).
        { clear - Hr Hk Hs. revert k Hk Hs.
          induction Hr as [| c1 s1 cs ss H1 _ IH]; intros [| k] Hk Hs;
            cbn [nth_error] in *; try discriminate.
          - injection Hk as <-. injection Hs as <-. eauto.
          - exact (IH k Hk Hs). }
        destruct Hs' as (c' & _ & Hc'). lia.
Qed.

Lemma to_signed_small w z :
  0 < w -> 0 <= z < 2 ^ (w - 1) -> to_signed w z = z.
Proof.
  intros Hw Hz. unfold to_signed.
  destruct (z <? 2 ^ (w - 1)) eqn:E; lia.
Qed.

Lemma prod_skipn_le k coords shape :
  Forall2 (fun c s => 0 <= c < s) coords shape ->
  0 < fold_right Z.mul 1 (skipn k shape) <= fold_right Z.mul 1 shape.
Proof.
  intros H. revert k.
  induction H as [| c s cs ss Hc Hr IH]; intros [| k]; cbn [skipn fold_right];
    try lia.
  - pose proof (prod_pos _ _ Hr). nia.
  - specialize (IH k). pose proof (prod_pos _ _ Hr). nia.
Qed.

Lemma nth_le_prod k coords shape s :
  Forall2 (fun c s => 0 <= c < s) coords shape ->
  nth_error shape k = Some s ->
  0 < s <= fold_right Z.mul 1 shape.
Proof.
  intros H Hs.
  destruct (prod_skipn_divides k shape s Hs) as (a & E).
  pose proof (prod_pos _ _ H) as Hp.
  pose proof (prod_skipn_le (S k) _ _ H) as Hq.
  assert (Hspos : 0 < s).
  { clear - H Hs. revert k Hs.
    induction H as [| c1 s1 cs ss H1 _ IH]; intros [| k] Hs;
      cbn [nth_error] in *; try discriminate.
    - injection Hs as <-. lia.
    - exact (IH k Hs). }
  split; [exact Hspos |].
  rewrite E in *.
  set (Q := fold_right Z.mul 1 (skipn (S k) shape)) in *.
  assert (Ha : 0 < a) by nia.
  assert (Haq : 1 <= a * Q) by nia.
  replace (a * s * Q) with (s * (a * Q)) by lia.
  nia.
Qed.

(** [axis_index] inverts the linearization of mesh coordinates.  For a
    mesh axis that is no grid axis, with the row-major strides of the
    mesh shape and fewer than 2^31 devices, the rule creates
    [tpu.device_id], the constants of the axis size and of the number
    of devices per step along the axis, [arith.divsi] and
    [arith.remsi]; run on the device whose logical id is the id that
    [_linearize_mesh_indices] assigns to mesh coordinates within the
    mesh shape, these return the coordinate of that device along the
    axis. *)
Theorem axis_index_inverts_linearization mc axis_name k coords ugi b :
  list_index (axis_names mc) axis_name = Some k ->
  List.length (axis_names mc) = List.length (mesh_shape mc) ->
  mesh_strides mc = row_major_strides (mesh_shape mc) ->
  Forall2 (fun c s => 0 <= c < s) coords (mesh_shape mc) ->
  fold_right Z.mul 1 (mesh_shape mc) < 2 ^ 31 ->
  exists c s device_id axis_size minor_divisor q r b',
    nth_error coords k = Some c
    /\ nth_error (mesh_shape mc) k = Some s
    /\ _axis_index_rule None ugi (Some mc) axis_name b = Ok (r, b')
    /\ x_emitted b'
       = x_emitted b
         ++ [TpuDeviceIdOp device_id;
             BaseOp (ArithConstantOp axis_size
                       (IntegerAttr i32 (NpArrayOf (PyInt s) Int32)));
             BaseOp (ArithConstantOp minor_divisor
                       (IntegerAttr i32
                          (NpArrayOf
                             (PyInt (np_prod_int32
                                       (skipn (S k) (mesh_shape mc))))
                             Int32)));
             ArithBinaryOp DivSI q device_id minor_divisor;
             ArithBinaryOp RemSI r q axis_size]
    /\ forall m,
         exists m',
           xexec_block (_linearize_mesh_indices (combine coords (mesh_strides mc)))
             (skipn (List.length (x_emitted b)) (x_emitted b')) m
           = Some m'
           /\ get_value m' r = Some (RInt c).
Proof.
  intros Hk Hlen Hstr Hco Hsmall.
  assert (Hkl : (k < List.length (mesh_shape mc))%nat).
  { rewrite <- Hlen. clear - Hk. revert k Hk.
    induction (axis_names mc) as [| n rest IH]; intros k Hk; [discriminate |].
    cbn in Hk. destruct (String.eqb n axis_name).
    - injection Hk as <-. cbn. lia.
    - destruct (list_index rest axis_name) as [j |]; [| discriminate].
      injection Hk as <-. cbn. specialize (IH j eq_refl). lia. }
  destruct (nth_error (mesh_shape mc) k) as [s |] eqn:Hs;
    [| apply nth_error_None in Hs; lia].
  assert (Hc : exists c, nth_error coords k = Some c).
  { destruct (nth_error coords k) as [c |] eqn:E; [eauto |].
    apply nth_error_None in E.
    rewrite (Forall2_length Hco) in E. lia. }
  destruct Hc as (c & Hc).
  set (n := x_next_id b).
  set (device_id := mkValue (ResId n) i32).
  set (axis_size := mkValue (ResId (S n)) i32).
  set (minor_divisor := mkValue (ResId (S (S n))) i32).
  set (q := mkValue (ResId (S (S (S n)))) i32).
  set (r := mkValue (ResId (S (S (S (S n))))) i32).
  exists c, s, device_id, axis_size, minor_divisor, q, r. eexists.
  split; [exact Hc |]. split; [reflexivity |].
  assert (Erun : _axis_index_rule None ugi (Some mc) axis_name b
                 = Ok (r, mkXBuilder (S (S (S (S (S n)))))
                            (x_emitted b
                             ++ [TpuDeviceIdOp device_id;
                                 BaseOp (ArithConstantOp axis_size
                                           (IntegerAttr i32
                                              (NpArrayOf (PyInt s) Int32)));
                                 BaseOp (ArithConstantOp minor_divisor
                                           (IntegerAttr i32
                                              (NpArrayOf
                                                 (PyInt
                                                    (np_prod_int32
                                                       (skipn (S k)
                                                          (mesh_shape mc))))
                                                 Int32)));
                                 ArithBinaryOp DivSI q device_id minor_divisor;
                                 ArithBinaryOp RemSI r q axis_size]))).
  { assert (Hfit : fits_int32 s = true).
    { apply fits_int32_spec.
      pose proof (nth_le_prod k _ _ s Hco Hs). lia. }
    assert (Ec : forall b0,
               embed (ir_constant (Py (PyInt s)) None) b0
               = Ok (mkValue (ResId (x_next_id b0)) i32,
                     mkXBuilder (S (x_next_id b0))
                       (x_emitted b0
                        ++ [BaseOp
                              (ArithConstantOp
                                 (mkValue (ResId (x_next_id b0)) i32)
                                 (IntegerAttr i32
                                    (NpArrayOf (PyInt s) Int32)))]))).
    { intros b0. unfold embed.
      rewrite (ir_constant_int_default s _ Hfit). reflexivity. }
    unfold _axis_index_rule. cbn [xbind xfresh xemit].
    rewrite Hk, Hs. rewrite (xbind_eq_ok _ _ _ _ _ (Ec _)).
    cbn. rewrite <- !app_assoc. reflexivity. }
  split; [exact Erun |]. split; [reflexivity |].
  intros m. cbn [x_emitted].
  rewrite skipn_app, skipn_all, Nat.sub_diag, skipn_O. cbn [app].
  set (P := fold_right Z.mul 1 (skipn (S k) (mesh_shape mc))).
  set (d := _linearize_mesh_indices (combine coords (mesh_strides mc))).
  pose proof (prod_skipn_le (S k) _ _ Hco) as HP. fold P in HP.
  pose proof (nth_le_prod k _ _ s Hco Hs) as Hsb.
  assert (Hd : 0 <= d < fold_right Z.mul 1 (mesh_shape mc)).
  { unfold d. rewrite Hstr. apply linearize_bound. exact Hco. }
  assert (H31 : 2 ^ 31 = 2147483648) by reflexivity.
  assert (H32 : 2 ^ 32 = 4294967296) by reflexivity.
  assert (Hnp : np_prod_int32 (skipn (S k) (mesh_shape mc)) = P).
  { unfold np_prod_int32. fold P. rewrite Z.mod_small by lia.
    apply to_signed_small; [lia |]. change (32 - 1) with 31. lia. }
  rewrite Hnp.
  assert (Hdec : (d / P) mod s = c).
  { unfold d, P. rewrite Hstr. exact (linearize_decode _ _ Hco k c s Hc Hs). }
  assert (Hq : 0 <= d / P <= d).
  { split; [apply Z.div_pos; lia |].
    apply Z.div_le_upper_bound; [lia |]. nia. }
  assert (Hcb : 0 <= c < s).
  { rewrite <- Hdec. apply Z.mod_pos_bound. lia. }
  assert (W : type_width (element_type i32) = Some 32) by reflexivity.
  assert (Wrap : forall z, 0 <= z < 2 ^ 31 ->
                           option_map RInt (wrap_to i32 z) = Some (RInt z)).
  { intros z Hz. unfold wrap_to. rewrite W. cbn [option_map].
    rewrite Z.mod_small by lia. reflexivity. }
  assert (Sg : forall z, 0 <= z < 2 ^ 31 -> to_signed 32 z = z).
  { intros z Hz. apply to_signed_small; [lia |].
    change (32 - 1) with 31. exact Hz. }
  set (m1 := set_value m device_id (Some (RInt d))).
  set (m2 := set_value m1 axis_size (Some (RInt s))).
  set (m3 := set_value m2 minor_divisor (Some (RInt P))).
  set (m4 := set_value m3 q (Some (RInt (d / P)))).
  exists (set_value m4 r (Some (RInt c))).
  split; [| apply get_set_same].
  cbn [xexec_block xexec_op exec_op option_map fst v_ty device_id
       axis_size minor_divisor q r attr_value host_int].
  rewrite W, (Wrap d), (Wrap s), (Wrap P) by lia.
  fold device_id axis_size minor_divisor q r.
  fold m1. fold m2. fold m3.
  assert (V3d : get_value m3 device_id = Some (RInt d)).
  { unfold m3, m2, minor_divisor, axis_size.
    rewrite !get_set_older by (cbn; lia). apply get_set_same. }
  assert (V3p : get_value m3 minor_divisor = Some (RInt P)).
  { apply get_set_same. }
  rewrite V3d, V3p. cbn [binary_rt arith_eval].
  rewrite (Sg d), (Sg P) by lia.
  assert (EP : (P =? 0) = false) by lia. rewrite EP.
  rewrite Z.quot_div_nonneg by lia.
  rewrite (Z.mod_small (d / P)) by lia.
  cbn [option_map]. fold m4.
  assert (V4q : get_value m4 q = Some (RInt (d / P))).
  { apply get_set_same. }
  assert (V4s : get_value m4 axis_size = Some (RInt s)).
  { unfold m4, m3, q, minor_divisor.
    rewrite !get_set_older by (cbn; lia). apply get_set_same. }
  rewrite V4q, V4s. cbn [binary_rt arith_eval].
  rewrite (Sg (d / P)), (Sg s) by lia.
  assert (Es : (s =? 0) = false) by lia. rewrite Es.
  rewrite Z.rem_mod_nonneg by lia.
  rewrite Hdec, (Z.mod_small c) by lia.
  reflexivity.
Qed.

Lemma axis_index_inverts_linearization_witness :
  exists r b' m',
    _axis_index_rule None None (Some example_mesh) "model" (mkXBuilder 0 [])
    = Ok (r, b')
    /\ xexec_block (_linearize_mesh_indices (combine [1; 3; 5] [32; 8; 1]))
         (x_emitted b') (mkMachine (fun _ => None) (fun _ => None))
       = Some m'
    /\ get_value m' r = Some (RInt 3).
Proof.
  destruct (axis_index_inverts_linearization example_mesh "model" 1
              [1; 3; 5] None (mkXBuilder 0 []) eq_refl eq_refl eq_refl)
    as (c & s & device_id & axis_size & minor_divisor & q & r & b'
        & Hc & _ & E & _ & X1).
  { repeat constructor; lia. }
  { reflexivity. }
  injection Hc as <-.
  destruct (X1 (mkMachine (fun _ => None) (fun _ => None))) as (m' & X2 & V).
  exists r, b', m'. split; [exact E |]. split; [exact X2 | exact V].
Defined.


(** ** Negation and complement *)

(** Negation is zero minus the operand, and needs a constant of the
    operand's dtype, which [ir_constant] builds for five dtypes only.
    For an operand that is an IR value the rule succeeds only for int8,
    int32, uint32, bfloat16 and float32, and then creates constants
    and broadcasts followed by one [arith.subi] (integers) or
    [arith.subf] (floats); for every other dtype, int16, int64, uint8
    and float16 among them, it raises [NotImplementedError].  On an
    integer scalar the operations are the zero constant and the
    subtraction, and the result is the two's complement negation of
    the operand. *)
Theorem neg_subtracts_from_zero vx x_aval aval_out b :
  aval_dtype aval_out = in_dtype x_aval ->
  (forall r b',
      _neg_lowering_rule (IR vx) x_aval aval_out b = Ok (r, b') ->
      dtype_in (in_dtype x_aval) [Int8; Int32; UInt32; BFloat16; Float32]
      = true
      /\ lowered_as (if issubdtype_integer (in_dtype x_aval)
                     then SubI else SubF) b r b')
  /\ (dtype_in (in_dtype x_aval) [Int8; Int32; UInt32; BFloat16; Float32]
      = false ->
      exists msg,
        _neg_lowering_rule (IR vx) x_aval aval_out b
        = Raise (Exn NotImplementedError msg))
  /\ (forall w device_id m n,
         dtype_in (in_dtype x_aval) [Int8; Int32; UInt32] = true ->
         in_shape x_aval = [] -> aval_shape aval_out = [] ->
         v_ty vx = _dtype_to_ir_type (in_dtype x_aval) false ->
         type_width (v_ty vx) = Some w ->
         older vx (x_next_id b) ->
         get_value m vx = Some (RInt n) ->
         exists zero r b' m',
           _neg_lowering_rule (IR vx) x_aval aval_out b = Ok (r, b')
           /\ x_emitted b'
              = x_emitted b
                ++ [BaseOp (ArithConstantOp zero
                              (IntegerAttr (v_ty vx)
                                 (NpArrayOf (PyInt 0) (in_dtype x_aval))));
                    ArithBinaryOp SubI r zero vx]
           /\ xexec_block device_id
                [BaseOp (ArithConstantOp zero
                           (IntegerAttr (v_ty vx)
                              (NpArrayOf (PyInt 0) (in_dtype x_aval))));
                 ArithBinaryOp SubI r zero vx] m
              = Some m'
           /\ get_value m' r = Some (RInt ((- n) mod 2 ^ w))).
Proof.
  intros Hdt.
  destruct x_aval as [shape dt weak], aval_out as [oshape odt].
  cbn [in_dtype in_shape in_weak_type aval_dtype aval_shape] in *.
  subst odt.
  assert (P2 : dtype_in dt [Int8; Int32; UInt32; BFloat16; Float32] = false ->
               exists msg,
                 _neg_lowering_rule (IR vx) (mkInAval shape dt weak)
                   (mkArrayAval oshape dt) b
                 = Raise (Exn NotImplementedError msg)).
  { intros D.
    unfold _neg_lowering_rule, _sub_lowering_rule, _bcast, bcast_constant,
      bcast_shape.
    cbn [in_dtype in_shape in_weak_type aval_dtype aval_shape
         is_numeric_host has_index_type].
    destruct dt; try discriminate D;
      destruct weak, (ir_type_eqb (v_ty vx) IndexType),
        (list_Z_eqb [] oshape), (list_Z_eqb shape oshape);
      cbn; eexists; reflexivity. }
  split; [| split; [exact P2 |]].
  - intros r b' H.
    destruct (dtype_in dt [Int8; Int32; UInt32; BFloat16; Float32]) eqn:D;
      [| destruct (P2 eq_refl) as (msg & E); rewrite E in H; discriminate H].
    split; [reflexivity |].
    unfold _neg_lowering_rule, _sub_lowering_rule in H.
    cbn [aval_dtype] in H.
    destruct dt; try discriminate D;
      cbn [issubdtype_integer issubdtype_signedinteger
           issubdtype_unsignedinteger issubdtype_floating orb] in *;
      eapply bcast_then_binary; exact H.
  - intros w device_id m n D -> -> Hty Hw Old Vx.
    destruct vx as [name ty]. cbn [v_ty] in *. subst ty.
    set (k := x_next_id b).
    destruct dt; try discriminate D; cbn in Hw; injection Hw as <-;
      destruct weak.
    all: eexists _, _, _, _.
    all: split;
      [ unfold _neg_lowering_rule, _sub_lowering_rule, _bcast; cbn;
        reflexivity |].
    all: split; [cbn [x_emitted]; rewrite <- app_assoc; reflexivity |].
    all: split;
      [ cbn [xexec_block xexec_op exec_op option_map fst v_ty];
        cbn [_dtype_to_ir_type is_semaphore_dtype andb dtype_eqb
             mlir_dtype_to_ir_type element_type type_width];
        reflexivity |].
    all: rewrite get_set_same.
    all: rewrite get_set_same.
    all: rewrite get_set_older by exact Old.
    all: unfold get_value in Vx |- *; cbn [v_name] in Vx |- *; rewrite Vx.
    all: cbn [attr_value host_int wrap_to element_type type_width option_map
              binary_rt arith_eval _dtype_to_ir_type is_semaphore_dtype andb
              dtype_eqb mlir_dtype_to_ir_type].
    all: rewrite Z.mod_0_l by (apply Z.pow_nonzero; lia).
    all: rewrite Z.sub_0_l; reflexivity.
Qed.

Lemma neg_subtracts_from_zero_witness :
  exists r b' m',
    _neg_lowering_rule (IR (example_u32 "x")) example_u32_aval
      (mkArrayAval [] UInt32) (mkXBuilder 0 [])
    = Ok (r, b')
    /\ xexec_block 0 (x_emitted b')
         (mkMachine
            (fun n => if vname_eqb n (ArgName "x") then Some (RInt 1)
                      else None)
            (fun _ => None))
       = Some m'
    /\ get_value m' r = Some (RInt 4294967295).
Proof.
  destruct (proj2 (proj2
              (neg_subtracts_from_zero (example_u32 "x") example_u32_aval
                 (mkArrayAval [] UInt32) (mkXBuilder 0 []) eq_refl))
              32 0
              (mkMachine
                 (fun n => if vname_eqb n (ArgName "x") then Some (RInt 1)
                           else None)
                 (fun _ => None))
              1 eq_refl eq_refl eq_refl eq_refl eq_refl I eq_refl)
    as (zero & r & b' & m' & E & Eops & X1 & V).
  exists r, b', m'. split; [exact E |].
  rewrite Eops. split; [exact X1 | exact V].
Defined.


Lemma lxor_ones_complement w n :
  0 <= w -> 0 <= n < 2 ^ w -> Z.lxor n ((-1) mod 2 ^ w) = 2 ^ w - 1 - n.
Proof.
  intros Hw Hn.
  assert (E1 : Z.ones w = (-1) mod 2 ^ w).
  { rewrite Z.ones_equiv. apply Z.mod_unique with (q := -1); lia. }
  assert (E2 : 2 ^ w - 1 - n = Z.lnot n mod 2 ^ w).
  { unfold Z.lnot. apply Z.mod_unique with (q := -1); lia. }
  rewrite <- E1, E2. apply Z.bits_inj'. intros i Hi.
  rewrite Z.lxor_spec.
  destruct (Z.lt_ge_cases i w).
  - rewrite Z.ones_spec_low, Z.mod_pow2_bits_low, Z.lnot_spec by lia.
    apply xorb_true_r.
  - rewrite Z.ones_spec_high, Z.mod_pow2_bits_high by lia.
    rewrite <- (Z.mod_small n (2 ^ w)) by lia.
    rewrite Z.mod_pow2_bits_high by lia. reflexivity.
Qed.

Lemma zip_with_opt_repeat (f : Z -> Z -> Z) c xs :
  zip_with_opt (fun a b => Some (f a b)) xs (repeat c (List.length xs))
  = Some (map (fun a => f a c) xs).
Proof.
  induction xs as [| x xs IH]; cbn; [reflexivity |].
  rewrite IH. reflexivity.
Qed.

(** [not] is the complement, bit by bit: for an output dtype whose IR
    type is an integer type of [w] bits (the integers, and booleans
    with one bit) the rule creates one constant of the operand's type,
    a scalar for a scalar output and a splat vector otherwise, and one
    [arith.xori] of the operand with it.  The constant is all ones, so
    a scalar [n] becomes [2^w - 1 - n], the logical negation for a
    boolean, and a vector is complemented element by element. *)
Theorem not_complements_bits vx out_aval w b :
  aval_to_ir_type (ShapedArray (aval_shape out_aval) (aval_dtype out_aval))
    None None false = Ok (v_ty vx) ->
  type_width (_dtype_to_ir_type (aval_dtype out_aval) false) = Some w ->
  older vx (x_next_id b) ->
  exists minus_one attr r b',
    _not_lowering_rule (IR vx) out_aval b = Ok (r, b')
    /\ x_emitted b'
       = x_emitted b
         ++ [BaseOp (ArithConstantOp minus_one attr);
             ArithXOrIOp r vx minus_one]
    /\ v_ty minus_one = v_ty vx
    /\ v_ty r = v_ty vx
    /\ forall device_id m,
         exists m',
           xexec_block device_id
             [BaseOp (ArithConstantOp minus_one attr);
              ArithXOrIOp r vx minus_one] m
           = Some m'
           /\ (forall n,
                  aval_shape out_aval = [] ->
                  get_value m vx = Some (RInt n) ->
                  0 <= n < 2 ^ w ->
                  get_value m' r = Some (RInt (2 ^ w - 1 - n)))
           /\ (forall ns,
                  aval_shape out_aval <> [] ->
                  get_value m vx = Some (RVec ns) ->
                  List.length ns = num_elements (aval_shape out_aval) ->
                  Forall (fun n => 0 <= n < 2 ^ w) ns ->
                  get_value m' r
                  = Some (RVec (map (fun n => 2 ^ w - 1 - n) ns))).
Proof.
  intros Hty Hw Old.
  destruct out_aval as [shape dt]. cbn [aval_shape aval_dtype] in *.
  set (ty := _dtype_to_ir_type dt false) in *.
  assert (Hw0 : 0 <= w).
  { revert Hw. unfold ty. destruct dt; cbn; intros H; try discriminate H;
      injection H as <-; lia. }
  assert (Hel : element_type ty = ty).
  { revert Hw. unfold ty. destruct dt; cbn; intros H; try discriminate H;
      reflexivity. }
  set (k := x_next_id b).
  assert (Hm1 : attr_value (IntegerAttr ty (NpArrayOf (PyInt (-1)) Int32))
                = Some (RInt ((-1) mod 2 ^ w))).
  { cbn [attr_value host_int]. unfold wrap_to. rewrite Hel, Hw.
    reflexivity. }
  destruct shape as [| d0 shape'].
  - cbn in Hty. injection Hty as Hty. fold ty in Hty.
    exists (mkValue (ResId k) ty),
           (IntegerAttr ty (NpArrayOf (PyInt (-1)) Int32)),
           (mkValue (ResId (S k)) (v_ty vx)).
    eexists. split.
    { unfold _not_lowering_rule. cbn [aval_shape aval_dtype]. fold ty.
      cbn. rewrite <- app_assoc. reflexivity. }
    split; [reflexivity |]. split; [cbn [v_ty]; congruence |].
    split; [reflexivity |].
    intros device_id m. eexists. split.
    { cbn [xexec_block xexec_op exec_op option_map fst]. reflexivity. }
    split.
    + intros n _ Vx Hn. rewrite get_set_same.
      rewrite get_set_same, get_set_older by exact Old.
      rewrite Vx, Hm1. cbn [binary_rt option_map].
      rewrite lxor_ones_complement by lia. reflexivity.
    + intros ns Hne. contradiction Hne. reflexivity.
  - cbn in Hty. injection Hty as Hty. fold ty in Hty.
    exists (mkValue (ResId k) (VectorType (d0 :: shape') ty)),
           (DenseSplatAttr (VectorType (d0 :: shape') ty)
              (IntegerAttr ty (Py (PyInt (-1))))),
           (mkValue (ResId (S k)) (v_ty vx)).
    eexists. split.
    { unfold _not_lowering_rule. cbn [aval_shape aval_dtype]. fold ty.
      cbn. rewrite <- app_assoc. reflexivity. }
    split; [reflexivity |]. split; [cbn [v_ty]; congruence |].
    split; [reflexivity |].
    intros device_id m. eexists. split.
    { cbn [xexec_block xexec_op exec_op option_map fst]. reflexivity. }
    split.
    + intros n Hnil. discriminate Hnil.
    + intros ns _ Vx Hlen Hns. rewrite get_set_same.
      rewrite get_set_same, get_set_older by exact Old.
      rewrite Vx. cbn [attr_value host_int]. unfold wrap_to.
      rewrite Hel, Hw. cbn [option_map binary_rt]. rewrite <- Hlen, zip_with_opt_repeat.
      cbn [option_map]. do 2 f_equal.
      apply map_ext_in. intros a Ha.
      rewrite Forall_forall in Hns.
      apply lxor_ones_complement; [exact Hw0 | exact (Hns a Ha)].
Qed.

Lemma not_complements_bits_witness :
  exists r b' m',
    _not_lowering_rule (IR (example_i1 "p")) (mkArrayAval [] Bool_)
      (mkXBuilder 0 [])
    = Ok (r, b')
    /\ xexec_block 0 (x_emitted b')
         (mkMachine
            (fun n => if vname_eqb n (ArgName "p") then Some (RInt 1)
                      else None)
            (fun _ => None))
       = Some m'
    /\ get_value m' r = Some (RInt 0).
Proof.
  destruct (not_complements_bits (example_i1 "p") (mkArrayAval [] Bool_) 1
              (mkXBuilder 0 []) eq_refl eq_refl I)
    as (minus_one & attr & r & b' & E & Eops & _ & _ & X1).
  destruct (X1 0 (mkMachine
                    (fun n => if vname_eqb n (ArgName "p") then Some (RInt 1)
                              else None)
                    (fun _ => None)))
    as (m' & X2 & V & _).
  exists r, b', m'. split; [exact E |].
  rewrite Eops. split; [exact X2 |].
  apply (V 1 eq_refl eq_refl). cbn. lia.
Defined.
